(** * YLSE: the save-file envelope codec ([tse.py]) and the table
      serializer of the editor ([youtubers_life_save_editor.py])

    The development has two parts.  The first part embeds the program: the
    Python values it manipulates, the library calls it makes, and the
    functions of the two source files, each under the name it has in the
    source.  The second part states and proves the properties.

    Conventions of the embedding:
    - a Python [bytes] object is a [list byte];
    - a Python [str] is a [string] whose characters are code points below
      256 (the Latin-1 range of Unicode); where the type inference of a
      field is concerned, it is also modelled as the list of its code
      points, of any range ([Unicode.str]);
    - a Python [int] is a [Z], a Python [float] is a binary64 value
      ([spec_float] with precision 53);
    - a [dict] is an association list in insertion order;
    - a raised exception is the [Raise] branch of [result]. *)

From Stdlib Require Import NArith ZArith Lia Bool Ascii String List.
From Stdlib Require Import Strings.Byte.
From Stdlib Require Import Numbers.DecimalString Numbers.DecimalZ Numbers.DecimalPos.
From Stdlib Require Import Floats.SpecFloat.
From Stdlib Require Import Sorting.Permutation.
Import ListNotations.

Set Implicit Arguments.

(** ** Python values and exceptions *)

Abbreviation bytes := (list byte).

(** The messages of the [ValueError]s the program meets: the four that
    [tse.py] raises itself, and the two of a failed conversion. *)
Inductive message : Type :=
| base64_decode_failed            (* 'base64 decode failed: ...' *)
| gzip_decompress_failed          (* 'gzip decompress failed: ...' *)
| base64_decoding_failed_during_stream
| final_base64_decode_failed
| invalid_literal                 (* raised by [int] and [float] *)
| exceeds_digit_limit.            (* raised by [int] past the digit limit *)

Inductive exn : Type :=
| binascii_Error                  (* raised by [a2b_base64] *)
| gzip_error                      (* BadGzipFile, EOFError or zlib.error *)
| UnicodeEncodeError              (* raised by [str.encode('ascii')] *)
| KeyError
| IndexError
| ValueError (m : message).

Inductive result (A : Type) : Type :=
| Ok (a : A)
| Raise (e : exn).
Arguments Ok {A} a.
Arguments Raise {A} e.

Definition bind {A B} (r : result A) (k : A -> result B) : result B :=
  match r with
  | Ok a => k a
  | Raise e => Raise e
  end.

Notation "x <- r ;; k" := (bind r (fun x => k))
  (at level 61, r at next level, right associativity).

(** [try: r except Exception as e: raise ValueError(m)] *)
Definition reraise {A} (m : message) (r : result A) : result A :=
  match r with
  | Ok a => Ok a
  | Raise _ => Raise (ValueError m)
  end.

(** ** Bytes as numbers *)

Definition byte_of_N (n : N) : byte :=
  match Byte.of_N (n mod 256) with
  | Some b => b
  | None => x00
  end.

Definition is_empty {A} (l : list A) : bool :=
  match l with
  | [] => true
  | _ :: _ => false
  end.

(** [str.encode('ascii')] and [bytes.decode('ascii')]. *)
Definition is_ascii (c : ascii) : bool := (N_of_ascii c <? 128)%N.

Fixpoint all_chars (p : ascii -> bool) (s : string) : bool :=
  match s with
  | EmptyString => true
  | String c s' => p c && all_chars p s'
  end.

Definition encode_ascii (s : string) : result bytes :=
  if all_chars is_ascii s then Ok (list_byte_of_string s)
  else Raise UnicodeEncodeError.

Definition decode_ascii (b : bytes) : string := string_of_list_byte b.

(** ** The [binascii] / [base64] library calls

    [b2a_base64] is [binascii.b2a_base64(data, newline=False)], which is
    what [base64.b64encode] returns; [a2b_base64] is
    [binascii.a2b_base64(data)] in its default, non-strict mode (CPython
    3.11 and later), which is what [base64.b64decode(data)] computes when
    [validate] is left at [False]: characters outside the alphabet are
    discarded, a completed padding ends the scan, and an incomplete final
    quad is an error. *)
Module Base64.

Definition table_b2a_base64 : bytes :=
  list_byte_of_string
    "ABCDEFGHIJKLMNOPQRSTUVWXYZabcdefghijklmnopqrstuvwxyz0123456789+/".

Definition BASE64_PAD : byte := byte_of_ascii "="%char.

Definition b2a (n : N) : byte := nth (N.to_nat n) table_b2a_base64 x00.

(** The inverse table: [None] stands for the entries that are 64 or more
    in the C table. *)
Definition table_a2b_base64 (c : byte) : option N :=
  let n := Byte.to_N c in
  if ((65 <=? n) && (n <=? 90))%N then Some (n - 65)%N
  else if ((97 <=? n) && (n <=? 122))%N then Some (n - 71)%N
  else if ((48 <=? n) && (n <=? 57))%N then Some (n + 4)%N
  else if (n =? 43)%N then Some 62%N
  else if (n =? 47)%N then Some 63%N
  else None.

Fixpoint b2a_base64 (bin : bytes) : bytes :=
  match bin with
  | [] => []
  | [a] =>
      let a := Byte.to_N a in
      [b2a (N.shiftr a 2); b2a (N.shiftl (N.land a 3) 4);
       BASE64_PAD; BASE64_PAD]
  | [a; b] =>
      let a := Byte.to_N a in
      let b := Byte.to_N b in
      [b2a (N.shiftr a 2);
       b2a (N.lor (N.shiftl (N.land a 3) 4) (N.shiftr b 4));
       b2a (N.shiftl (N.land b 15) 2);
       BASE64_PAD]
  | a :: b :: c :: rest =>
      let a := Byte.to_N a in
      let b := Byte.to_N b in
      let c := Byte.to_N c in
      b2a (N.shiftr a 2)
      :: b2a (N.lor (N.shiftl (N.land a 3) 4) (N.shiftr b 4))
      :: b2a (N.lor (N.shiftl (N.land b 15) 2) (N.shiftr c 6))
      :: b2a (N.land c 63)
      :: b2a_base64 rest
  end.

(** The scan of [a2b_base64]: [quad_pos] is the position inside the
    current quad, [leftchar] the bits carried over, [pads] the number of
    consecutive padding characters seen at [quad_pos >= 2]. *)
Fixpoint a2b_scan (quad_pos : nat) (leftchar : N) (pads : nat)
    (ascii_data : bytes) : result bytes :=
  match ascii_data with
  | [] =>
      match quad_pos with
      | O => Ok []
      | _ => Raise binascii_Error
      end
  | this_ch :: rest =>
      if Byte.eqb this_ch BASE64_PAD then
        if (2 <=? quad_pos)%nat then
          if (4 <=? quad_pos + S pads)%nat then Ok []
          else a2b_scan quad_pos leftchar (S pads) rest
        else a2b_scan quad_pos leftchar pads rest
      else
        match table_a2b_base64 this_ch with
        | None => a2b_scan quad_pos leftchar pads rest
        | Some v =>
            match quad_pos with
            | 0%nat => a2b_scan 1 v 0 rest
            | 1%nat =>
                out <- a2b_scan 2 (N.land v 15) 0 rest ;;
                Ok (byte_of_N (N.lor (N.shiftl leftchar 2) (N.shiftr v 4))
                    :: out)
            | 2%nat =>
                out <- a2b_scan 3 (N.land v 3) 0 rest ;;
                Ok (byte_of_N (N.lor (N.shiftl leftchar 4) (N.shiftr v 2))
                    :: out)
            | _ =>
                out <- a2b_scan 0 0 0 rest ;;
                Ok (byte_of_N (N.lor (N.shiftl leftchar 6) v) :: out)
            end
        end
  end.

Definition a2b_base64 (ascii_data : bytes) : result bytes :=
  a2b_scan 0 0 0 ascii_data.

(** A character of the base64 alphabet. *)
Definition in_alphabet (c : byte) : bool :=
  match table_a2b_base64 c with
  | Some _ => true
  | None => false
  end.

(** A character the scan looks at: of the alphabet, or the padding. *)
Definition significant (c : byte) : bool :=
  Byte.eqb c BASE64_PAD || in_alphabet c.

Definition b64encode (s : bytes) : bytes := b2a_base64 s.
Definition b64decode (s : bytes) : result bytes := a2b_base64 s.

End Base64.

(** ** The [gzip] / [zlib] library calls

    The compression library is not part of the repository.  The program
    uses it through five entry points, which the embedding takes as an
    interface: the two whole-buffer calls on [gzip.GzipFile] and the two
    incremental objects of [zlib].  The moment at which a [GzipFile] is
    written is an argument, since its header carries a timestamp. *)
Record zlib : Type := {
  (** [buf = io.BytesIO(); with gzip.GzipFile(fileobj=buf, mode='wb') as
      gz: gz.write(data)] followed by [buf.getvalue()] *)
  GzipFile_write : Z -> bytes -> bytes;
  (** [with gzip.GzipFile(fileobj=io.BytesIO(decoded)) as gz: gz.read()] *)
  GzipFile_read : bytes -> result bytes;
  (** [zlib.decompressobj(16 + zlib.MAX_WBITS)] *)
  decompressobj : Type;
  decompressobj_new : decompressobj;
  decompress : decompressobj -> bytes -> result (decompressobj * bytes);
  decompress_flush : decompressobj -> bytes;
  (** [zlib.compressobj(wbits=16 + zlib.MAX_WBITS)] *)
  compressobj : Type;
  compressobj_new : compressobj;
  compress : compressobj -> bytes -> compressobj * bytes;
  compress_flush : compressobj -> bytes
}.

(** ** Python [str] operations used by both files *)
Module PyStr.

(** [str.isspace] on one code point below 256. *)
Definition isspace (c : ascii) : bool :=
  let n := N_of_ascii c in
  (((9 <=? n) && (n <=? 13)) || ((28 <=? n) && (n <=? 32))
   || (n =? 133) || (n =? 160))%N.

Fixpoint lstrip (s : string) : string :=
  match s with
  | EmptyString => EmptyString
  | String c s' => if isspace c then lstrip s' else s
  end.

Fixpoint rstrip (s : string) : string :=
  match s with
  | EmptyString => EmptyString
  | String c s' =>
      match rstrip s' with
      | EmptyString => if isspace c then EmptyString else String c EmptyString
      | r => String c r
      end
  end.

Definition strip (s : string) : string := rstrip (lstrip s).

(** The slices [s[:n]] and [s[n:]]. *)
Fixpoint take (n : nat) (s : string) : string :=
  match n, s with
  | S n', String c s' => String c (take n' s')
  | _, _ => EmptyString
  end.

Fixpoint drop (n : nat) (s : string) : string :=
  match n, s with
  | S n', String _ s' => drop n' s'
  | _, _ => s
  end.


(** [s.split(sep)] for a separator of one character. *)
Fixpoint split (sep : ascii) (s : string) : list string :=
  match s with
  | EmptyString => [EmptyString]
  | String c s' =>
      if Ascii.eqb c sep then EmptyString :: split sep s'
      else
        match split sep s' with
        | w :: ws => String c w :: ws
        | [] => [String c EmptyString]
        end
  end.

(** [sep.join(l)] *)
Fixpoint join (sep : string) (l : list string) : string :=
  match l with
  | [] => EmptyString
  | [x] => x
  | x :: l' => (x ++ sep ++ join sep l')%string
  end.

(** [s.startswith(p)] *)
Fixpoint startswith (p s : string) : bool :=
  match p, s with
  | EmptyString, _ => true
  | String a p', String b s' => Ascii.eqb a b && startswith p' s'
  | String _ _, EmptyString => false
  end.

(** [c in s] for one character. *)
Fixpoint contains (c : ascii) (s : string) : bool :=
  match s with
  | EmptyString => false
  | String a s' => Ascii.eqb a c || contains c s'
  end.

(** [s.replace(c, '')] for one character. *)
Fixpoint remove (c : ascii) (s : string) : string :=
  match s with
  | EmptyString => EmptyString
  | String a s' => if Ascii.eqb a c then remove c s' else String a (remove c s')
  end.

(** [str.isdigit] on one code point below 256: the decimal digits and
    the superscripts one, two and three. *)
Definition isdigit_char (c : ascii) : bool :=
  let n := N_of_ascii c in
  (((48 <=? n) && (n <=? 57)) || (n =? 178) || (n =? 179) || (n =? 185))%N.

(** [s.isdigit()]: every character is a digit and there is at least
    one. *)
Definition isdigit (s : string) : bool :=
  match s with
  | EmptyString => false
  | _ => all_chars isdigit_char s
  end.

Definition TAB : ascii := "009"%char.
Definition LF : ascii := "010"%char.

End PyStr.

(** ** [tse.py] *)

Inductive str_or_bytes : Type :=
| Str (s : string)
| Bytes (b : bytes).

(** A file-like object opened for reading: what is left to read. *)
Definition infile := str_or_bytes.

(** [infile.read(read_size)]: at most [read_size] items, everything when
    [read_size] is negative. *)
Definition read_bytes (b : bytes) (read_size : Z) : bytes * bytes :=
  if (read_size <? 0)%Z then (b, [])
  else (firstn (Z.to_nat read_size) b, skipn (Z.to_nat read_size) b).

Definition read (f : infile) (read_size : Z) : str_or_bytes * infile :=
  match f with
  | Str s =>
      if (read_size <? 0)%Z then (Str s, Str EmptyString)
      else (Str (PyStr.take (Z.to_nat read_size) s),
            Str (PyStr.drop (Z.to_nat read_size) s))
  | Bytes b =>
      let (chunk, rest) := read_bytes b read_size in (Bytes chunk, Bytes rest)
  end.

Definition remaining (f : infile) : nat :=
  match f with
  | Str s => String.length s
  | Bytes b => List.length b
  end.

(** [not chunk] *)
Definition is_falsy (chunk : str_or_bytes) : bool :=
  match chunk with
  | Str EmptyString => true
  | Bytes [] => true
  | _ => false
  end.

(** [if isinstance(chunk, str): chunk = chunk.encode('ascii')] *)
Definition as_bytes (chunk : str_or_bytes) : result bytes :=
  match chunk with
  | Str s => encode_ascii s
  | Bytes b => Ok b
  end.

(** The outcome of a streaming call: everything written to [outfile], and
    how the call ended. *)
Record stream_outcome (A : Type) : Type := {
  written : A;
  ended : result unit
}.

Section Tse.

Variable zl : zlib.

Definition decode_base64_gzip (data : str_or_bytes) : result bytes :=
  data <- match data with
          | Str s => encode_ascii (PyStr.strip s)
          | Bytes b => Ok b
          end ;;
  decoded <- reraise base64_decode_failed (Base64.b64decode data) ;;
  reraise gzip_decompress_failed (GzipFile_read zl decoded).

(** Whole-buffer encode, as [_self_test], [_main] (the [--encode] path)
    and [save_as_yls] write it. *)
Definition encode_base64_gzip (now : Z) (data : bytes) : string :=
  decode_ascii (Base64.b64encode (GzipFile_write zl now data)).

(** The [while True] loop of [stream_decode_b64_gzip] and the code after
    it.  [fuel] bounds the number of iterations. *)
Fixpoint stream_decode_loop (fuel : nat) (infile : infile) (read_size : Z)
    (decomp : decompressobj zl) (pending : bytes) (outfile : bytes)
    : option (stream_outcome bytes) :=
  match fuel with
  | O => None
  | S fuel' =>
      let (chunk, infile) := read infile read_size in
      if is_falsy chunk then
        (* final leftover *)
        let after_leftover :=
          if is_empty pending then Ok (decomp, outfile)
          else
            reraise final_base64_decode_failed
              (decoded <- Base64.a2b_base64 pending ;;
               r <- decompress zl decomp decoded ;;
               Ok (fst r, outfile ++ snd r)) in
        match after_leftover with
        | Raise e => Some {| written := outfile; ended := Raise e |}
        | Ok (decomp, outfile) =>
            Some {| written := outfile ++ decompress_flush zl decomp;
                    ended := Ok tt |}
        end
      else
        match as_bytes chunk with
        | Raise e => Some {| written := outfile; ended := Raise e |}
        | Ok chunk =>
            let pending := pending ++ chunk in
            let n := (List.length pending / 4 * 4)%nat in
            if (n =? 0)%nat then
              stream_decode_loop fuel' infile read_size decomp pending outfile
            else
              let to_decode := firstn n pending in
              let pending := skipn n pending in
              match reraise base64_decoding_failed_during_stream
                      (Base64.a2b_base64 to_decode) with
              | Raise e => Some {| written := outfile; ended := Raise e |}
              | Ok decoded =>
                  match decompress zl decomp decoded with
                  | Raise e => Some {| written := outfile; ended := Raise e |}
                  | Ok (decomp, out) =>
                      let outfile :=
                        if is_empty out then outfile else outfile ++ out in
                      stream_decode_loop fuel' infile read_size decomp
                        pending outfile
                  end
              end
        end
  end.

Definition stream_decode_b64_gzip (infile : infile) (read_size : Z)
    : option (stream_outcome bytes) :=
  stream_decode_loop (S (remaining infile)) infile read_size
    (decompressobj_new zl) [] [].

(** The loop of [stream_gzip_base64] and the code after it; [infile] is a
    binary file. *)
Fixpoint stream_gzip_loop (fuel : nat) (infile : bytes) (read_size : Z)
    (comp : compressobj zl) (buf : bytes) (outfile : string)
    : option string :=
  match fuel with
  | O => None
  | S fuel' =>
      let (chunk, infile) := read_bytes infile read_size in
      if is_empty chunk then
        let tail := compress_flush zl comp in
        let buf := if is_empty tail then buf else buf ++ tail in
        if is_empty buf then Some outfile
        else Some (outfile ++ decode_ascii (Base64.b64encode buf))%string
      else
        let (comp, compressed) := compress zl comp chunk in
        if is_empty compressed then
          stream_gzip_loop fuel' infile read_size comp buf outfile
        else
          let buf := buf ++ compressed in
          let n := (List.length buf / 3 * 3)%nat in
          if (n =? 0)%nat then
            stream_gzip_loop fuel' infile read_size comp buf outfile
          else
            let to_enc := firstn n buf in
            let buf := skipn n buf in
            stream_gzip_loop fuel' infile read_size comp buf
              (outfile ++ decode_ascii (Base64.b64encode to_enc))%string
  end.

Definition stream_gzip_base64 (infile : bytes) (read_size : Z)
    : option string :=
  stream_gzip_loop (S (List.length infile)) infile read_size
    (compressobj_new zl) [] EmptyString.

End Tse.

(** ** Notions used to state the streaming properties *)

Section Streams.

Variable zl : zlib.

(** Everything the incremental compressor emits when the file is fed to
    it in reads of [read_size]: the output of each [compress] call, then
    the output of [flush]. *)
Fixpoint compressed_stream (fuel : nat) (infile : bytes) (read_size : Z)
    (comp : compressobj zl) : bytes :=
  match fuel with
  | O => []
  | S fuel' =>
      let (chunk, infile) := read_bytes infile read_size in
      if is_empty chunk then compress_flush zl comp
      else
        let (comp, compressed) := compress zl comp chunk in
        compressed ++ compressed_stream fuel' infile read_size comp
  end.

(** Feeding a decompression object a sequence of pieces: the final
    object and everything it returned on the way. *)
Fixpoint feed (d : decompressobj zl) (pieces : list bytes)
    : result (decompressobj zl * bytes) :=
  match pieces with
  | [] => Ok (d, [])
  | p :: ps =>
      r1 <- decompress zl d p ;;
      r2 <- feed (fst r1) ps ;;
      Ok (fst r2, snd r1 ++ snd r2)
  end.

End Streams.

(** The bytes a file still holds, once encoded. *)
Definition file_bytes (f : infile) : bytes :=
  match f with
  | Str s => list_byte_of_string s
  | Bytes b => b
  end.

(** A text file holds ASCII only. *)
Definition ascii_file (f : infile) : bool :=
  match f with
  | Str s => all_chars is_ascii s
  | Bytes _ => true
  end.

(** ** A reference implementation of the library interface

    [StoredGzip] implements the interface with gzip members (RFC 1952)
    whose deflate stream consists of stored blocks only (RFC 1951, block
    type 00).  Its members are valid gzip files; its headers are the ones
    the two Python entry points write: [gzip.GzipFile] (compression level
    9) stores the time of writing, XFL = 2 and OS = 255, whereas zlib's
    own gzip wrapper, which [zlib.compressobj] uses, stores a zero time,
    XFL = 0 and the code of the platform (3 on Unix). *)
Module StoredGzip.

#[local] Open Scope N_scope.

Definition crc32_bit (c : N) : N :=
  if N.testbit c 0 then N.lxor (N.shiftr c 1) 3988292384 (* 0xEDB88320 *)
  else N.shiftr c 1.

Definition crc32_byte (crc : N) (b : byte) : N :=
  let c := N.lxor crc (Byte.to_N b) in
  crc32_bit (crc32_bit (crc32_bit (crc32_bit
    (crc32_bit (crc32_bit (crc32_bit (crc32_bit c))))))).

Definition crc32 (data : bytes) : N :=
  N.lxor (fold_left crc32_byte data 4294967295) 4294967295.

Definition le16 (n : N) : bytes :=
  [byte_of_N n; byte_of_N (N.shiftr n 8)].

Definition le32 (n : N) : bytes :=
  [byte_of_N n; byte_of_N (N.shiftr n 8);
   byte_of_N (N.shiftr n 16); byte_of_N (N.shiftr n 24)].

Definition header (mtime xfl os : N) : bytes :=
  [x1f; x8b; x08; x00] ++ le32 mtime ++ [byte_of_N xfl; byte_of_N os].

Definition trailer (data : bytes) : bytes :=
  le32 (crc32 data) ++ le32 (N.of_nat (length data)).

(** The largest stored block. *)
Definition max_stored : N := 65535.

Fixpoint stored_blocks (fuel : nat) (data : bytes) : bytes :=
  match fuel with
  | O => []
  | S fuel' =>
      let len := N.of_nat (length data) in
      if (len <=? max_stored)%N then
        x01 :: le16 len ++ le16 (max_stored - len) ++ data
      else
        x00 :: le16 max_stored ++ le16 0
        ++ firstn (N.to_nat max_stored) data
        ++ stored_blocks fuel' (skipn (N.to_nat max_stored) data)
  end.

Definition deflate (data : bytes) : bytes :=
  stored_blocks (S (length data)) data.

Definition member (mtime xfl os : N) (data : bytes) : bytes :=
  header mtime xfl os ++ deflate data ++ trailer data.

Fixpoint inflate (fuel : nat) (b : bytes) : result (bytes * bytes) :=
  match fuel with
  | O => Raise gzip_error
  | S fuel' =>
      match b with
      | h :: l0 :: l1 :: n0 :: n1 :: rest =>
          let len := (Byte.to_N l0 + 256 * Byte.to_N l1)%N in
          let nlen := (Byte.to_N n0 + 256 * Byte.to_N n1)%N in
          if negb (N.land (N.shiftr (Byte.to_N h) 1) 3 =? 0)%N then
            Raise gzip_error          (* not a stored block *)
          else if negb (len + nlen =? 65535)%N then
            Raise gzip_error          (* corrupt length *)
          else if (N.of_nat (length rest) <? len)%N then
            Raise gzip_error          (* truncated block *)
          else
            let data := firstn (N.to_nat len) rest in
            let rest := skipn (N.to_nat len) rest in
            if N.testbit (Byte.to_N h) 0 then Ok (data, rest)
            else
              r <- inflate fuel' rest ;;
              Ok (data ++ fst r, snd r)
      | _ => Raise gzip_error
      end
  end.

Definition bytes_eqb (a b : bytes) : bool :=
  if list_eq_dec Byte.byte_eq_dec a b then true else false.

(** Reading a file that holds one member. *)
Definition gunzip (b : bytes) : result bytes :=
  match b with
  | id1 :: id2 :: cm :: flg :: _ :: _ :: _ :: _ :: _ :: _ :: body =>
      if negb (bytes_eqb [id1; id2; cm; flg] [x1f; x8b; x08; x00]) then
        Raise gzip_error
      else
        r <- inflate (S (length body)) body ;;
        if bytes_eqb (snd r) (trailer (fst r)) then Ok (fst r)
        else Raise gzip_error
  | _ => Raise gzip_error
  end.

(** zlib's code for the platform in a gzip header. *)
Definition OS_CODE : N := 3.

(** The compression object emits the header at the first call and the
    rest at [flush]; the decompression object returns the data at
    [flush]. *)
Definition zl : zlib := {|
  GzipFile_write now data := member (Z.to_N (now mod 2 ^ 32)%Z) 2 255 data;
  GzipFile_read := gunzip;
  decompressobj := bytes;
  decompressobj_new := [];
  decompress d data := Ok (d ++ data, []);
  decompress_flush d :=
    match gunzip d with
    | Ok out => out
    | Raise _ => []
    end;
  compressobj := bool * bytes;
  compressobj_new := (false, []);
  compress c data :=
    ((true, snd c ++ data), if fst c then [] else header 0 0 OS_CODE);
  compress_flush c :=
    (if fst c then [] else header 0 0 OS_CODE)
    ++ deflate (snd c) ++ trailer (snd c)
|}.

End StoredGzip.

(** ** Python scalars: [int], [float], [str]

    The cells of a table are Python scalars.  [int] is unbounded, but
    its conversion from text is limited in the number of digits; [float]
    is IEEE 754 binary64, converted from and to decimal text with correct
    rounding, as CPython does. *)
Module PyNum.

#[local] Open Scope Z_scope.

Definition float : Type := spec_float.

Definition prec : Z := 53.
Definition emax : Z := 1024.

(** The binary64 value nearest to [m * 10 ^ e10], ties to even. *)
Definition float_of_decimal (neg : bool) (m : N) (e10 : Z) : float :=
  match m with
  | N0 => S754_zero neg
  | Npos p =>
      if 0 <=? e10 then
        binary_normalize prec emax
          (if neg then Z.neg p * 10 ^ e10 else Z.pos p * 10 ^ e10) 0 neg
      else
        let '(mz, ez, lz) :=
          SFdiv_core_binary prec emax (Z.pos p) 0 (10 ^ (- e10)) 0 in
        binary_round_aux prec emax neg mz ez lz
  end.

(** The decimal digits of a literal, as a number; [None] when a character
    is not one of 0..9. *)
Definition digits_value (s : string) : option N :=
  option_map N.of_uint (NilEmpty.uint_of_string s).

(** The text before the first ['.'] and the text after it. *)
Fixpoint split_point (s : string) : string * option string :=
  match s with
  | EmptyString => (EmptyString, None)
  | String c s' =>
      if Ascii.eqb c "."%char then (EmptyString, Some s')
      else let (i, f) := split_point s' in (String c i, f)
  end.

(** [float(value)] on the texts the editor passes to it: an optional
    minus sign, digits, at most one decimal point, digits, and at least
    one digit in all.  Any other text made of digits, points and minus
    signs raises [ValueError].  (Exponents, infinities, underscores and
    blanks are not modelled: the guard before the call lets through
    texts made of digits, points and minus signs only.) *)
Definition py_float (value : string) : result float :=
  let (neg, body) :=
    match value with
    | String "-"%char rest => (true, rest)
    | _ => (false, value)
    end in
  let (int_part, frac) := split_point body in
  let frac_part := match frac with Some f => f | None => EmptyString end in
  match (int_part ++ frac_part)%string with
  | EmptyString => Raise (ValueError invalid_literal)
  | all_digits =>
      match digits_value all_digits with
      | Some m =>
          Ok (float_of_decimal neg m (- Z.of_nat (String.length frac_part)))
      | None => Raise (ValueError invalid_literal)
      end
  end.

(** [sys.get_int_max_str_digits()]: the limit CPython puts on the number
    of digits in a conversion between [str] and [int], at its default
    value. *)
Definition int_max_str_digits : Z := 4300.

(** [int(value)] on the texts the editor passes to it: an optional minus
    sign and decimal digits.  A text with more digits than the limit
    raises [ValueError] too, leading zeros counted. *)
Definition py_int (value : string) : result Z :=
  match NilZero.int_of_string value with
  | Some d =>
      let digits :=
        match value with
        | String "-"%char rest => rest
        | _ => value
        end in
      if int_max_str_digits <? Z.of_nat (String.length digits) then
        Raise (ValueError exceeds_digit_limit)
      else Ok (Z.of_int d)
  | None => Raise (ValueError invalid_literal)
  end.

(** [str(n)] for an [int] within the digit limit.  (Past the limit
    [str] raises; the integers of a table come from [int], which has
    the same limit.) *)
Definition str_of_int (z : Z) : string := NilZero.string_of_int (Z.to_int z).

(** *** [repr] of a float: the shortest decimal text that reads back as
    the same float, the nearest one among the shortest. *)

Definition str_of_N (n : N) : string := NilZero.string_of_uint (N.to_uint n).

(** The number of decimal digits of a positive integer. *)
Definition ndigits (n : Z) : Z := Z.of_nat (String.length (str_of_N (Z.to_N n))).

(** The position of the decimal point of [p / q]: the [k] with
    [10 ^ (k - 1) <= p / q < 10 ^ k]. *)
Fixpoint decpt_small (fuel : nat) (p q : Z) (k : Z) : Z :=
  match fuel with
  | O => k
  | S fuel' => if q <=? p * 10 then k else decpt_small fuel' (p * 10) q (k - 1)
  end.

Definition decpt_of (p q : Z) : Z :=
  if q <=? p then ndigits (p / q) else decpt_small 400 p q 0.

(** The candidates with [n] digits on both sides of [p / q], the nearer
    one first. *)
Definition candidates (p q k : Z) (n : Z) : list Z :=
  let sp := if 0 <=? n - k then p * 10 ^ (n - k) else p in
  let sq := if 0 <=? n - k then q else q * 10 ^ (k - n) in
  let lo := sp / sq in
  let hi := lo + 1 in
  let dlo := sp - lo * sq in
  let dhi := hi * sq - sp in
  if dlo <? dhi then [lo; hi]
  else if dhi <? dlo then [hi; lo]
  else if Z.even lo then [lo; hi] else [hi; lo].

Definition float_eqb (a b : float) : bool :=
  match a, b with
  | S754_finite s m e, S754_finite s' m' e' =>
      Bool.eqb s s' && Pos.eqb m m' && Z.eqb e e'
  | S754_zero s, S754_zero s' => Bool.eqb s s'
  | S754_infinity s, S754_infinity s' => Bool.eqb s s'
  | S754_nan, S754_nan => true
  | _, _ => false
  end.

Fixpoint strip_zeros (fuel : nat) (c : Z) : Z :=
  match fuel with
  | O => c
  | S fuel' => if (c mod 10 =? 0) && (0 <? c) then strip_zeros fuel' (c / 10) else c
  end.

(** The digits and the position of the decimal point of the shortest
    text for the positive float [m * 2 ^ e]. *)
Fixpoint shortest_from (fuel : nat) (m : positive) (e : Z) (p q k n : Z)
    : Z * Z :=
  match fuel with
  | O => (Z.pos m, 0)
  | S fuel' =>
      let reads_back c :=
        (0 <? c) &&
        float_eqb (float_of_decimal false (Z.to_N c) (k - n))
                  (S754_finite false m e) in
      match filter reads_back (candidates p q k n) with
      | c :: _ => (strip_zeros 20 c, k - n + ndigits c)
      | [] => shortest_from fuel' m e p q k (n + 1)
      end
  end.

Definition shortest_digits (m : positive) (e : Z) : Z * Z :=
  let p := if 0 <=? e then Z.pos m * 2 ^ e else Z.pos m in
  let q := if 0 <=? e then 1 else 2 ^ (- e) in
  shortest_from 17 m e p q (decpt_of p q) 1.

Fixpoint zeros (n : nat) : string :=
  match n with
  | O => EmptyString
  | S n' => String "0"%char (zeros n')
  end.

Definition format_short (digits : string) (decpt : Z) : string :=
  let nd := Z.of_nat (String.length digits) in
  if (16 <? decpt) || (decpt <=? -4) then
    let exp := decpt - 1 in
    let mant :=
      match digits with
      | String d EmptyString => String d EmptyString
      | String d rest => String d (String "."%char rest)
      | EmptyString => EmptyString
      end in
    let sign := if exp <? 0 then "-"%string else "+"%string in
    let pad := if Z.abs exp <? 10 then "0"%string else EmptyString in
    (mant ++ "e" ++ sign ++ pad ++ str_of_N (Z.to_N (Z.abs exp)))%string
  else if decpt <=? 0 then
    ("0." ++ zeros (Z.to_nat (- decpt)) ++ digits)%string
  else if nd <=? decpt then
    (digits ++ zeros (Z.to_nat (decpt - nd)) ++ ".0")%string
  else
    (PyStr.take (Z.to_nat decpt) digits ++ "."
     ++ PyStr.drop (Z.to_nat decpt) digits)%string.

(** [str(x)] for a [float]. *)
Definition str_of_float (x : float) : string :=
  match x with
  | S754_zero s => if s then "-0.0" else "0.0"
  | S754_infinity s => if s then "-inf" else "inf"
  | S754_nan => "nan"
  | S754_finite s m e =>
      let (d, k) := shortest_digits m e in
      let sign := if s then "-"%string else EmptyString in
      (sign ++ format_short (str_of_N (Z.to_N d)) k)%string
  end.

End PyNum.

(** ** [youtubers_life_save_editor.py]: the table serializer *)

(** A [dict] with [str] keys, in insertion order. *)
Definition dict (V : Type) : Type := list (string * V).

(** [d[k] = v]: an existing key keeps its place. *)
Fixpoint dict_set {V} (d : dict V) (k : string) (v : V) : dict V :=
  match d with
  | [] => [(k, v)]
  | (k', v') :: d' =>
      if String.eqb k' k then (k, v) :: d' else (k', v') :: dict_set d' k v
  end.

(** [d.get(k)] *)
Fixpoint dict_get {V} (d : dict V) (k : string) : option V :=
  match d with
  | [] => None
  | (k', v) :: d' => if String.eqb k' k then Some v else dict_get d' k
  end.

(** [d[k]], which raises [KeyError] for a missing key. *)
Definition dict_lookup {V} (d : dict V) (k : string) : result V :=
  match dict_get d k with
  | Some v => Ok v
  | None => Raise KeyError
  end.

Definition keys {V} (d : dict V) : list string := map fst d.

(** [l[i]], which raises [IndexError] out of range. *)
Definition list_index {A} (l : list A) (i : nat) : result A :=
  match nth_error l i with
  | Some a => Ok a
  | None => Raise IndexError
  end.

(** A cell: [int], [float] or [str]. *)
Inductive cell : Type :=
| Integer (z : Z)
| Float (f : PyNum.float)
| Text (s : string).

Definition row : Type := dict cell.
Definition tables : Type := dict (list row).
Definition table_headers : Type := dict (list string).

(** [str(v)] for a cell. *)
Definition py_str (v : cell) : string :=
  match v with
  | Integer z => PyNum.str_of_int z
  | Float f => PyNum.str_of_float f
  | Text s => s
  end.

Module Editor.
Import PyStr.

(** The [try] block that converts one field: the conversions raise
    [ValueError] on texts they do not accept, and the bare [except]
    keeps the text. *)
Definition convert (value : string) : cell :=
  match
    (if contains "."%char value
        && isdigit (remove "-"%char (remove "."%char value))
     then f <- PyNum.py_float value ;; Ok (Float f)
     else if isdigit value
             || (startswith "-" value && isdigit (drop 1 value))
     then z <- PyNum.py_int value ;; Ok (Integer z)
     else Ok (Text value))
  with
  | Ok v => v
  | Raise _ => Text value
  end.

(** The [while] loop that pads [parts] up to the length of the header. *)
Definition pad (parts : list string) (n : nat) : list string :=
  parts ++ repeat EmptyString (n - length parts).

(** The [for i, header in enumerate(current_headers)] loop, from index
    [i] on. *)
Fixpoint fill_row (headers : list string) (i : nat) (parts : list string)
    (row : dict cell) : result (dict cell) :=
  match headers with
  | [] => Ok row
  | header :: headers' =>
      value <- (if (i <? length parts)%nat then list_index parts i
                else Ok EmptyString) ;;
      fill_row headers' (S i) parts (dict_set row header (convert value))
  end.

(** The variables of [parse_save_data]. *)
Record parser : Type := {
  p_tables : tables;
  p_table_headers : table_headers;
  current_table : option string;
  current_headers : list string
}.

(** The body of the [for line in lines] loop. *)
Definition parse_line (st : parser) (line : string) : result parser :=
  let line := strip line in
  match line with
  | EmptyString => Ok st
  | _ =>
      if startswith "###" line then
        let name := drop 3 line in
        Ok {| p_tables := dict_set (p_tables st) name [];
              p_table_headers := p_table_headers st;
              current_table := Some name;
              current_headers := [] |}
      else
        match current_table st with
        | None => Ok st
        | Some table =>
            let parts := split TAB line in
            if is_empty (current_headers st) && (1 <? length parts)%nat then
              Ok {| p_tables := p_tables st;
                    p_table_headers :=
                      dict_set (p_table_headers st) table parts;
                    current_table := Some table;
                    current_headers := parts |}
            else if negb (is_empty (current_headers st))
                    && (length parts <=? length (current_headers st))%nat
            then
              let parts := pad parts (length (current_headers st)) in
              row <- fill_row (current_headers st) 0 parts [] ;;
              rows <- dict_lookup (p_tables st) table ;;
              Ok {| p_tables := dict_set (p_tables st) table (rows ++ [row]);
                    p_table_headers := p_table_headers st;
                    current_table := Some table;
                    current_headers := current_headers st |}
            else Ok st
        end
  end.

Fixpoint parse_lines (st : parser) (lines : list string) : result parser :=
  match lines with
  | [] => Ok st
  | line :: lines' =>
      st' <- parse_line st line ;;
      parse_lines st' lines'
  end.

Definition parser_new : parser :=
  {| p_tables := []; p_table_headers := [];
     current_table := None; current_headers := [] |}.

(** [parse_save_data] returns the tables and stores the header order in
    [self.table_headers]; the embedding returns both. *)
Definition parse_save_data (data : string) : result (tables * table_headers) :=
  st <- parse_lines parser_new (split LF data) ;;
  Ok (p_tables st, p_table_headers st).

(** The text [save_as_yls] builds for one table. *)
Definition row_text (headers : list string) (r : row) : string :=
  (join (String TAB EmptyString)
     (map (fun col => py_str (match dict_get r col with
                              | Some v => v
                              | None => Text EmptyString
                              end)) headers)
   ++ String LF EmptyString)%string.

Definition table_text (ths : table_headers) (table_name : string)
    (table_data : list row) : string :=
  ("###" ++ table_name ++ String LF EmptyString
   ++ match table_data with
      | [] => EmptyString
      | first :: _ =>
          let headers :=
            match dict_get ths table_name with
            | Some h => h
            | None => keys first
            end in
          join (String TAB EmptyString) headers ++ String LF EmptyString
          ++ String.concat EmptyString (map (row_text headers) table_data)
      end
   ++ String LF EmptyString)%string.

(** [text_data] at the end of the first loop of [save_as_yls]. *)
Definition text_data (ts : tables) (ths : table_headers) : string :=
  String.concat EmptyString
    (map (fun t => table_text ths (fst t) (snd t)) ts).

(** [str.encode('utf-8')] on code points below 256. *)
Fixpoint encode_utf8 (s : string) : bytes :=
  match s with
  | EmptyString => []
  | String c s' =>
      let n := N_of_ascii c in
      if (n <? 128)%N then byte_of_N n :: encode_utf8 s'
      else byte_of_N (N.lor 192 (N.shiftr n 6))
           :: byte_of_N (N.lor 128 (N.land n 63))
           :: encode_utf8 s'
  end.

(** The content [save_as_yls] writes to the file. *)
Definition save_as_yls (zl : zlib) (now : Z) (ts : tables)
    (ths : table_headers) : string :=
  encode_base64_gzip zl now (encode_utf8 (text_data ts ths)).

End Editor.

(** ** Decimal texts

    What [int] and [float] accept among the texts the editor passes to
    them, and the values they return: these notions serve to describe
    [PyNum.py_int] and [PyNum.py_float], and [infer] is the rule of the
    conversion on texts of code points below 256. *)
Module DecimalText.
Import PyStr.

Definition is_decimal (c : ascii) : bool :=
  let n := N_of_ascii c in ((48 <=? n) && (n <=? 57))%N.

(** "All characters are digits", of a text that has some. *)
Definition all_digits (s : string) : bool :=
  match s with
  | EmptyString => false
  | _ => all_chars is_decimal s
  end.

(** Stripping at most one leading minus sign. *)
Definition strip_minus (s : string) : string :=
  match s with
  | String "-"%char rest => rest
  | _ => s
  end.

Definition has_minus (s : string) : bool :=
  match s with
  | String "-"%char _ => true
  | _ => false
  end.

(** Stripping the decimal point. *)
Fixpoint strip_point (s : string) : string :=
  match s with
  | EmptyString => EmptyString
  | String c s' => if Ascii.eqb c "."%char then s' else String c (strip_point s')
  end.

Definition number (digits : string) : N :=
  match PyNum.digits_value digits with
  | Some n => n
  | None => 0%N
  end.

(** The integer a text of digits with an optional sign denotes. *)
Definition integer_value (s : string) : Z :=
  if has_minus s then (- Z.of_N (number (strip_minus s)))%Z
  else Z.of_N (number s).

(** The binary64 value a decimal text with an optional sign denotes. *)
Definition float_value (s : string) : PyNum.float :=
  let (int_part, frac) := PyNum.split_point (strip_minus s) in
  let frac_part := match frac with Some f => f | None => EmptyString end in
  PyNum.float_of_decimal (has_minus s) (number (int_part ++ frac_part))
    (- Z.of_nat (String.length frac_part)).

(** The digits of the text are not more than the limit of [int]. *)
Definition within_limit (s : string) : bool :=
  (Z.of_nat (String.length (strip_minus s)) <=? PyNum.int_max_str_digits)%Z.

Definition infer (s : string) : cell :=
  if contains "."%char s && all_digits (strip_point (strip_minus s)) then
    Float (float_value s)
  else if (all_digits s || (has_minus s && all_digits (strip_minus s)))
          && within_limit s then
    Integer (integer_value s)
  else Text s.

End DecimalText.

(** ** Notions used to state the properties of the serializer *)
Module TableText.
Import PyStr.

(** The text of one field of a row line: the cell's text, or nothing
    when the row has no such column. *)
Definition field (r : row) (col : string) : string :=
  match dict_get r col with
  | Some v => py_str v
  | None => EmptyString
  end.

(** Lines, each followed by a newline. *)
Definition unlines (ls : list string) : string :=
  String.concat EmptyString (map (fun l => (l ++ String LF EmptyString)%string) ls).

(** The lines of a table section, after the marker line. *)
Definition body_lines (headers : list string) (rows : list row)
    : list string :=
  match rows with
  | [] => []
  | _ :: _ =>
      join (String TAB EmptyString) headers
      :: map (fun r => join (String TAB EmptyString) (map (field r) headers))
           rows
  end.

End TableText.

(** ** Table sets that survive a round trip

    A table set is given as a list of sections: the name of a table, the
    header order captured for it, and its rows.  The conditions below
    are the ones the text format imposes: it has no quoting, lines are
    stripped, and cells are typed by inference alone. *)
Module TableSet.
Import PyStr.

Record section : Type := {
  sec_name : string;
  sec_headers : list string;
  sec_rows : list row
}.

Definition tables_of (secs : list section) : tables :=
  map (fun s => (sec_name s, sec_rows s)) secs.

Definition headers_of (secs : list section) : table_headers :=
  map (fun s => (sec_name s, sec_headers s)) secs.

Definition has_rows (s : section) : bool := negb (is_empty (sec_rows s)).

(** The first character of the text is not white space; the text is not
    empty. *)
Definition clean_start (s : string) : bool :=
  match s with
  | EmptyString => false
  | String c _ => negb (isspace c)
  end.

(** The last character of the text is not white space; the text is not
    empty. *)
Fixpoint clean_end (s : string) : bool :=
  match s with
  | EmptyString => false
  | String c EmptyString => negb (isspace c)
  | String _ s' => clean_end s'
  end.

(** No tab and no newline inside. *)
Definition one_field (s : string) : bool :=
  negb (contains TAB s) && negb (contains LF s).

(** The fields of a line without the empty ones at its end. *)
Fixpoint trim (fields : list string) : list string :=
  match fields with
  | [] => []
  | x :: l =>
      match trim l with
      | [] => match x with EmptyString => [] | _ => [x] end
      | t => x :: t
      end
  end.

Fixpoint distinct (l : list string) : bool :=
  match l with
  | [] => true
  | x :: l' => negb (existsb (String.eqb x) l') && distinct l'
  end.

Fixpoint strings_eqb (a b : list string) : bool :=
  match a, b with
  | [], [] => true
  | x :: a', y :: b' => String.eqb x y && strings_eqb a' b'
  | _, _ => false
  end.

Definition cell_eqb (a b : cell) : bool :=
  match a, b with
  | Integer x, Integer y => Z.eqb x y
  | Float x, Float y => PyNum.float_eqb x y
  | Text x, Text y => String.eqb x y
  | _, _ => false
  end.

(** A cell whose text is one field and is inferred back as the cell. *)
Definition stable_cell (c : cell) : bool :=
  one_field (py_str c) && cell_eqb (Editor.convert (py_str c)) c.

(** The fields of a line that is read back as it was written: it starts
    with a field that is not blank at its start and does not look like a
    marker, and its last field that is not empty does not end in white
    space. *)
Definition stable_line (fields : list string) : bool :=
  forallb one_field fields
  && clean_start (hd EmptyString fields)
  && negb (startswith "###" (hd EmptyString fields))
  && clean_end (last (trim fields) EmptyString).

Definition stable_row (headers : list string) (r : row) : bool :=
  strings_eqb (keys r) headers
  && forallb stable_cell (map snd r)
  && stable_line (map py_str (map snd r)).

Definition stable_name (name : string) : bool :=
  negb (contains LF name)
  && match name with EmptyString => true | _ => clean_end name end.

Definition stable_section (s : section) : bool :=
  stable_name (sec_name s)
  && (2 <=? length (sec_headers s))%nat
  && distinct (sec_headers s)
  && stable_line (sec_headers s)
  && clean_end (last (sec_headers s) EmptyString)
  && forallb (stable_row (sec_headers s)) (sec_rows s).

Definition stable (secs : list section) : bool :=
  distinct (map sec_name secs) && forallb stable_section secs.

End TableSet.

(** ** Notions used to state how the streaming functions compose *)

Section Chunks.

Variable zl : zlib.

(** Everything a compression object emits for a sequence of [compress]
    calls followed by [flush]. *)
Fixpoint compress_chunks (comp : compressobj zl) (chunks : list bytes)
    : bytes :=
  match chunks with
  | [] => compress_flush zl comp
  | chunk :: chunks' =>
      let (comp, compressed) := compress zl comp chunk in
      compressed ++ compress_chunks comp chunks'
  end.

End Chunks.

(** The results of the successive calls [infile.read(read_size)] of a
    loop that stops at the first empty one. *)
Fixpoint reads (fuel : nat) (infile : bytes) (read_size : Z)
    : list bytes :=
  match fuel with
  | O => []
  | S fuel' =>
      let (chunk, infile) := read_bytes infile read_size in
      if is_empty chunk then [] else chunk :: reads fuel' infile read_size
  end.

(** ** [youtubers_life_save_editor.py]: the text file and the validation *)
Module EditorFiles.
Import PyStr Editor.

(** The text [save_as_text] writes; [export_to_text] has the same loop.
    The header line is made of the keys of the first row. *)
Definition save_as_text (ts : tables) : string :=
  String.concat EmptyString
    (map (fun t =>
            let table_name := fst t in
            let table_data := snd t in
            ("###" ++ table_name ++ String LF EmptyString
             ++ match table_data with
                | [] => EmptyString
                | first :: _ =>
                    let headers := keys first in
                    join (String TAB EmptyString) headers
                    ++ String LF EmptyString
                    ++ String.concat EmptyString
                         (map (row_text headers) table_data)
                end
             ++ String LF EmptyString)%string) ts).

(** The header order stored for a table that has rows, if one is stored,
    is the order of the keys of its first row. *)
Definition headers_agree (ts : tables) (ths : table_headers) : bool :=
  forallb (fun t =>
             match snd t, dict_get ths (fst t) with
             | first :: _, Some headers =>
                 TableSet.strings_eqb headers (keys first)
             | _, _ => true
             end) ts.






End EditorFiles.

(** ** When the lenient base64 scan fails, in words

    The scan discards every character that is neither of the alphabet
    nor the padding character.  A padding character completes the data
    when it comes after a number of data characters that is 3 modulo 4,
    or when it is the second padding character in a row after a number
    that is 2 modulo 4; what follows a completing padding is not looked
    at.  Any other padding character is passed over. *)
Module PaddingRule.
Import Base64.

(** The number of data characters, the characters of the alphabet. *)
Definition data_count (s : bytes) : nat := length (filter in_alphabet s).

(** The last character that is not discarded is a padding character. *)
Definition ends_with_pad (s : bytes) : bool :=
  match rev (filter significant s) with
  | c :: _ => Byte.eqb c BASE64_PAD
  | [] => false
  end.

(** A padding character that comes after [before] completes the data. *)
Definition completing (before : bytes) : bool :=
  (data_count before mod 4 =? 3)%nat
  || ((data_count before mod 4 =? 2)%nat && ends_with_pad before).

(** Some padding character of [data] completes the data. *)
Definition padded (data : bytes) : Prop :=
  exists before after : bytes,
    data = before ++ BASE64_PAD :: after /\ completing before = true.

End PaddingRule.

(** ** Type inference on Unicode text

    The conversion of a field, on a [str] that may hold any code point.
    [str.isdigit], [int] and [float] consult the Unicode character
    database of the interpreter, which is not part of the repository:
    the embedding takes the three properties they look up as an
    interface. *)
Module Unicode.

(** A [str] as the list of its code points. *)
Definition str : Type := list N.

Record database : Type := {
  (** [Py_UNICODE_TODECIMAL]: the value of a decimal digit *)
  todecimal : N -> option N;
  (** [Py_UNICODE_TODIGIT]: the value of a digit; [str.isdigit] holds of
      the characters that have one *)
  todigit : N -> option N;
  (** [Py_UNICODE_ISSPACE] *)
  isspace : N -> bool
}.

Definition POINT : N := 46.
Definition MINUS : N := 45.

(** The [str] of a text of code points below 256. *)
Definition of_string (s : string) : str :=
  map N_of_ascii (list_ascii_of_string s).

(** A cell: [int], [float] or [str]. *)
Inductive cell : Type :=
| Integer (z : Z)
| Float (f : PyNum.float)
| Text (s : str).

Section Convert.

Variable db : database.

Definition isdigit_char (c : N) : bool :=
  match todigit db c with
  | Some _ => true
  | None => false
  end.

(** [s.isdigit()] *)
Definition isdigit (s : str) : bool :=
  match s with
  | [] => false
  | _ => forallb isdigit_char s
  end.

(** [c in s] for one character. *)
Definition contains (c : N) (s : str) : bool := existsb (N.eqb c) s.

(** [s.replace(c, '')] for one character. *)
Definition remove (c : N) (s : str) : str :=
  filter (fun a => negb (N.eqb a c)) s.

(** [s.startswith(c)] for one character. *)
Definition startswith (c : N) (s : str) : bool :=
  match s with
  | a :: _ => N.eqb a c
  | [] => false
  end.

(** [_PyUnicode_TransformDecimalAndSpaceToASCII], through which [int]
    and [float] read a [str].  An ASCII text is returned as it is.  In
    any other text a character below 127 is kept, a space becomes a
    blank, a decimal digit becomes the ASCII digit of its value, and at
    any other character the text ends with a question mark. *)
Fixpoint transform_loop (s : str) : string :=
  match s with
  | [] => EmptyString
  | ch :: rest =>
      if (ch <? 127)%N then String (ascii_of_N ch) (transform_loop rest)
      else if isspace db ch then String " "%char (transform_loop rest)
      else
        match todecimal db ch with
        | None => String "?"%char EmptyString
        | Some decimal =>
            String (ascii_of_N (48 + decimal)) (transform_loop rest)
        end
  end.

Definition transform (s : str) : string :=
  if forallb (fun ch => (ch <? 128)%N) s then
    string_of_list_ascii (map ascii_of_N s)
  else transform_loop s.

(** [int(value)] and [float(value)] *)
Definition py_int (value : str) : result Z :=
  PyNum.py_int (transform value).

Definition py_float (value : str) : result PyNum.float :=
  PyNum.py_float (transform value).

(** The [try] block that converts one field. *)
Definition convert (value : str) : cell :=
  match
    (if contains POINT value
        && isdigit (remove MINUS (remove POINT value))
     then f <- py_float value ;; Ok (Float f)
     else if isdigit value
             || (startswith MINUS value && isdigit (skipn 1 value))
     then z <- py_int value ;; Ok (Integer z)
     else Ok (Text value))
  with
  | Ok v => v
  | Raise _ => Text value
  end.

End Convert.

(** The character database on the code points below U+0700, which
    cover the Basic Latin, Latin-1 Supplement and Arabic blocks: the
    decimal digits are the ASCII digits, the Arabic-Indic digits and
    the Extended Arabic-Indic digits; the other digits are the
    superscripts two, three and one.  The code points from U+0700 on are
    given no property. *)
Definition in_range (lo hi c : N) : bool := ((lo <=? c) && (c <=? hi))%N.

Definition LatinArabic : database := {|
  todecimal c :=
    if in_range 48 57 c then Some (c - 48)%N
    else if in_range 1632 1641 c then Some (c - 1632)%N
    else if in_range 1776 1785 c then Some (c - 1776)%N
    else None;
  todigit c :=
    if in_range 48 57 c then Some (c - 48)%N
    else if in_range 1632 1641 c then Some (c - 1632)%N
    else if in_range 1776 1785 c then Some (c - 1776)%N
    else if (c =? 178)%N then Some 2%N
    else if (c =? 179)%N then Some 3%N
    else if (c =? 185)%N then Some 1%N
    else None;
  isspace c :=
    in_range 9 13 c || in_range 28 32 c || (c =? 133)%N || (c =? 160)%N
|}.

End Unicode.

(** A cell of the table model, whose texts hold code points below 256,
    as a cell over [Unicode.str]. *)
Definition unicode_cell (c : cell) : Unicode.cell :=
  match c with
  | Integer z => Unicode.Integer z
  | Float f => Unicode.Float f
  | Text s => Unicode.Text (Unicode.of_string s)
  end.

(** ** The type inference rule, in the words of the specification

    Kept apart from [Unicode.convert], which is the code: (1) a text
    that contains a decimal point and, after stripping at most one
    leading minus sign and the decimal point, consists of digits is a
    Float; (2) a text of digits, or of one leading minus sign followed
    by digits, is an Integer; (3) any other text, the empty one
    included, is Text.  A digit is a character that has a decimal digit
    value.  The rule takes the largest number of digits an Integer may
    have as a parameter: the specification has none. *)
Module InferenceRule.
Import Unicode.

Section Rule.

Variable db : database.

Definition is_digit (c : N) : bool :=
  match todecimal db c with
  | Some _ => true
  | None => false
  end.

(** "All characters are digits", of a text that has some. *)
Definition all_digits (s : str) : bool :=
  match s with
  | [] => false
  | _ => forallb is_digit s
  end.

(** Stripping at most one leading minus sign. *)
Definition strip_minus (s : str) : str :=
  match s with
  | c :: rest => if (c =? MINUS)%N then rest else s
  | [] => []
  end.

Definition has_minus (s : str) : bool :=
  match s with
  | c :: _ => (c =? MINUS)%N
  | [] => false
  end.

(** The text before the first decimal point and the text after it. *)
Fixpoint split_point (s : str) : str * option str :=
  match s with
  | [] => ([], None)
  | c :: s' =>
      if (c =? POINT)%N then ([], Some s')
      else let (i, f) := split_point s' in (c :: i, f)
  end.

(** Stripping the decimal point. *)
Fixpoint strip_point (s : str) : str :=
  match s with
  | [] => []
  | c :: s' => if (c =? POINT)%N then s' else c :: strip_point s'
  end.

Definition digit_value (c : N) : N :=
  match todecimal db c with
  | Some d => d
  | None => 0%N
  end.

(** The number a text of digits denotes. *)
Fixpoint number (digits : str) : N :=
  match digits with
  | [] => 0%N
  | c :: rest =>
      (digit_value c * 10 ^ N.of_nat (length rest) + number rest)%N
  end.

(** The integer a text of digits with an optional sign denotes. *)
Definition integer_value (s : str) : Z :=
  if has_minus s then (- Z.of_N (number (strip_minus s)))%Z
  else Z.of_N (number s).

(** The binary64 value a decimal text with an optional sign denotes. *)
Definition float_value (s : str) : PyNum.float :=
  let (int_part, frac) := split_point (strip_minus s) in
  let frac_part := match frac with Some f => f | None => [] end in
  PyNum.float_of_decimal (has_minus s) (number (int_part ++ frac_part))
    (- Z.of_nat (length frac_part)).

(** The digits of the text are not more than the limit, when there is
    one. *)
Definition within (limit : option Z) (s : str) : bool :=
  match limit with
  | Some n => (Z.of_nat (length (strip_minus s)) <=? n)%Z
  | None => true
  end.

Definition infer (limit : option Z) (s : str) : cell :=
  if contains POINT s && all_digits (strip_point (strip_minus s)) then
    Float (float_value s)
  else if (all_digits s || (has_minus s && all_digits (strip_minus s)))
          && within limit s then
    Integer (integer_value s)
  else Text s.

End Rule.

End InferenceRule.

(** ** [tse.py]: the self-test of [_main] *)
Module SelfTest.

(** How a call ends: it returns a value, [sys.exit] raises [SystemExit],
    or an exception leaves it. *)
Inductive ending (A : Type) : Type :=
| returned (a : A)
| SystemExit (code : Z)
| raised (e : exn).
Arguments returned {A} a.
Arguments SystemExit {A} code.
Arguments raised {A} e.

(** [b"Hello from tse.py self-test\n"] *)
Definition original : bytes :=
  list_byte_of_string
    ("Hello from tse.py self-test" ++ String PyStr.LF EmptyString).

(** [(b"The quick brown fox jumps over the lazy dog. " * 2500)[:100000]] *)
Definition big : bytes :=
  firstn (Z.to_nat 100000)
    (concat
       (repeat
          (list_byte_of_string "The quick brown fox jumps over the lazy dog. ")
          (Z.to_nat 2500))).

(** [b'A' * 200000] *)
Definition big2 : bytes := repeat "A"%byte (Z.to_nat 200000).

(** The default of the parameter [read_size]. *)
Definition default_read_size : Z := 8192.

(** [a == b] on [bytes]. *)
Definition bytes_equal (a b : bytes) : bool :=
  if list_eq_dec Byte.byte_eq_dec a b then true else false.

Section SelfTest.

Variable zl : zlib.

(** [_self_test], run at the moment [now]; what it prints is left out. *)
Definition _self_test (now : Z) : ending unit :=
  let b64 := encode_base64_gzip zl now original in
  match decode_base64_gzip zl (Str b64) with
  | Raise e => raised e
  | Ok out =>
      if bytes_equal out original then returned tt else SystemExit 2
  end.

(** The branch [if args.self_test] of [_main]: [now1] and [now2] are the
    moments of the two [GzipFile] writes; what it prints is left out.
    The result is [None] when a streaming loop has not ended. *)
Definition _main_self_test (now1 now2 : Z) : option (ending Z) :=
  match _self_test now1 with
  | SystemExit code => Some (SystemExit code)
  | raised e => Some (raised e)
  | returned _ =>
      let b64 := encode_base64_gzip zl now2 big in
      (* test streaming path *)
      match stream_decode_b64_gzip zl (Str b64) default_read_size with
      | None => None
      | Some {| written := outf; ended := Raise e |} => Some (raised e)
      | Some {| written := outf; ended := Ok _ |} =>
          if negb (bytes_equal outf big) then Some (returned 5%Z)
          else
            (* encode->decode roundtrip test (streaming) *)
            match stream_gzip_base64 zl big2 default_read_size with
            | None => None
            | Some outb64 =>
                match stream_decode_b64_gzip zl (Str outb64)
                        default_read_size with
                | None => None
                | Some {| written := roundbin; ended := Raise e |} =>
                    Some (raised e)
                | Some {| written := roundbin; ended := Ok _ |} =>
                    if negb (bytes_equal roundbin big2)
                    then Some (returned 6%Z)
                    else Some (returned 0%Z)
                end
            end
      end
  end.

End SelfTest.

End SelfTest.

(** ** [bytes.decode('utf-8')]

    The strict decoder: a sequence that is too short, an overlong form,
    a surrogate or a code point past U+10FFFF raises
    [UnicodeDecodeError], which is [None] here. *)
Module Utf8.

(** A continuation byte, from 0x80 to 0xBF. *)
Definition continuation (b : byte) : bool :=
  ((128 <=? Byte.to_N b) && (Byte.to_N b <=? 191))%N.

Definition between (lo hi : N) (b : byte) : bool :=
  ((lo <=? Byte.to_N b) && (Byte.to_N b <=? hi))%N.

(** The six payload bits of a continuation byte. *)
Definition payload (b : byte) : N := N.land (Byte.to_N b) 63.

Definition push (c : N) (rest : option Unicode.str) : option Unicode.str :=
  match rest with
  | Some s => Some (c :: s)
  | None => None
  end.

Fixpoint decode_utf8 (data : bytes) : option Unicode.str :=
  match data with
  | [] => Some []
  | b0 :: rest =>
      let n0 := Byte.to_N b0 in
      if (n0 <? 128)%N then push n0 (decode_utf8 rest)
      else if between 194 223 b0 then
        match rest with
        | b1 :: rest =>
            if continuation b1 then
              push (N.shiftl (N.land n0 31) 6 + payload b1)%N
                (decode_utf8 rest)
            else None
        | _ => None
        end
      else if between 224 239 b0 then
        match rest with
        | b1 :: b2 :: rest =>
            if (if (n0 =? 224)%N then between 160 191 b1
                else if (n0 =? 237)%N then between 128 159 b1
                else continuation b1)
               && continuation b2
            then
              push (N.shiftl (N.land n0 15) 12 + N.shiftl (payload b1) 6
                    + payload b2)%N
                (decode_utf8 rest)
            else None
        | _ => None
        end
      else if between 240 244 b0 then
        match rest with
        | b1 :: b2 :: b3 :: rest =>
            if (if (n0 =? 240)%N then between 144 191 b1
                else if (n0 =? 244)%N then between 128 143 b1
                else continuation b1)
               && continuation b2 && continuation b3
            then
              push (N.shiftl (N.land n0 7) 18 + N.shiftl (payload b1) 12
                    + N.shiftl (payload b2) 6 + payload b3)%N
                (decode_utf8 rest)
            else None
        | _ => None
        end
      else None
  end.

End Utf8.

(** * Properties

    ** Bytes and bit arithmetic *)

Lemma to_N_byte_of_N (n : N) : Byte.to_N (byte_of_N n) = (n mod 256)%N.
Proof.
  unfold byte_of_N.
  destruct (Byte.of_N (n mod 256)) as [b|] eqn:E.
  - now apply Byte.to_of_N.
  - apply Byte.of_N_None_iff in E.
    pose proof (N.mod_upper_bound n 256). lia.
Qed.

Lemma byte_of_N_to_N (b : byte) : byte_of_N (Byte.to_N b) = b.
Proof.
  unfold byte_of_N.
  pose proof (Byte.to_N_bounded b).
  rewrite N.mod_small by lia.
  now rewrite Byte.of_to_N.
Qed.

Lemma byte_of_N_small (n : N) (b : byte) : Byte.to_N b = n -> byte_of_N n = b.
Proof. intros <-. apply byte_of_N_to_N. Qed.

Lemma lor_shiftl_add (a b k : N) :
  (b < 2 ^ k)%N -> N.lor (N.shiftl a k) b = (a * 2 ^ k + b)%N.
Proof.
  intros Hb.
  rewrite N.shiftl_mul_pow2.
  assert (H0 : N.land (a * 2 ^ k) b = 0%N); [|now rewrite <- N.lxor_lor, N.add_nocarry_lxor].
  apply N.bits_inj; intro i.
  rewrite N.land_spec, N.bits_0.
  destruct (N.ltb_spec i k) as [Hi|Hi].
  - rewrite N.mul_pow2_bits_low by assumption. reflexivity.
  - destruct (N.eq_dec b 0) as [->|Hnz].
    + rewrite N.bits_0. apply andb_false_r.
    + rewrite (N.bits_above_log2 b i), andb_false_r; [reflexivity|].
      apply N.log2_lt_pow2 in Hb; lia.
Qed.


Ltac euclid_step x k :=
  let q := fresh "q" in
  let r := fresh "r" in
  let Hq := fresh "Hq" in
  let Hr := fresh "Hr" in
  assert (Hq := N.div_mod' x k);
  assert (Hr : (x mod k < k)%N) by (apply N.mod_upper_bound; discriminate);
  set (q := (x / k)%N) in *; set (r := (x mod k)%N) in *;
  clearbody q r.
Ltac euclid :=
  repeat match goal with
  | |- context [(?x / ?k)%N] => euclid_step x k
  | |- context [(?x mod ?k)%N] => euclid_step x k
  | H : context [(?x / ?k)%N] |- _ => euclid_step x k
  | H : context [(?x mod ?k)%N] |- _ => euclid_step x k
  end; lia.

Lemma land_3 (x : N) : N.land x 3 = (x mod 4)%N.
Proof. change 3%N with (N.ones 2). now rewrite N.land_ones. Qed.
Lemma land_15 (x : N) : N.land x 15 = (x mod 16)%N.
Proof. change 15%N with (N.ones 4). now rewrite N.land_ones. Qed.
Lemma land_63 (x : N) : N.land x 63 = (x mod 64)%N.
Proof. change 63%N with (N.ones 6). now rewrite N.land_ones. Qed.
Lemma shiftr_2 (x : N) : N.shiftr x 2 = (x / 4)%N.
Proof. now rewrite N.shiftr_div_pow2. Qed.
Lemma shiftr_4 (x : N) : N.shiftr x 4 = (x / 16)%N.
Proof. now rewrite N.shiftr_div_pow2. Qed.
Lemma shiftr_6 (x : N) : N.shiftr x 6 = (x / 64)%N.
Proof. now rewrite N.shiftr_div_pow2. Qed.
Lemma shiftl_2 (x : N) : N.shiftl x 2 = (x * 4)%N.
Proof. now rewrite N.shiftl_mul_pow2. Qed.
Lemma shiftl_4 (x : N) : N.shiftl x 4 = (x * 16)%N.
Proof. now rewrite N.shiftl_mul_pow2. Qed.
Lemma lor_shiftl_2 (x y : N) : (y < 4)%N -> N.lor (N.shiftl x 2) y = (x * 4 + y)%N.
Proof. intros. now rewrite lor_shiftl_add. Qed.
Lemma lor_shiftl_4 (x y : N) : (y < 16)%N -> N.lor (N.shiftl x 4) y = (x * 16 + y)%N.
Proof. intros. now rewrite lor_shiftl_add. Qed.
Lemma lor_shiftl_6 (x y : N) : (y < 64)%N -> N.lor (N.shiftl x 6) y = (x * 64 + y)%N.
Proof. intros. now rewrite lor_shiftl_add. Qed.

Create Rewrite HintDb bits.
#[export] Hint Rewrite land_3 land_15 land_63 shiftr_2 shiftr_4 shiftr_6 : bits.

Ltac bits :=
  autorewrite with bits;
  repeat first
    [ rewrite lor_shiftl_2 by (bits; euclid)
    | rewrite lor_shiftl_4 by (bits; euclid)
    | rewrite lor_shiftl_6 by (bits; euclid) ];
  rewrite ?shiftl_2, ?shiftl_4;
  autorewrite with bits.


(** ** Base64 *)
Module Base64Facts.
Import Base64.


Definition sextets : list N := map N.of_nat (seq 0 64).

Lemma sextets_complete (n : N) : (n < 64)%N -> In n sextets.
Proof.
  intros H. unfold sextets.
  rewrite <- (N2Nat.id n). apply in_map, in_seq. lia.
Qed.

Lemma table_roundtrip (n : N) :
  (n < 64)%N ->
  table_a2b_base64 (b2a n) = Some n /\ Byte.eqb (b2a n) BASE64_PAD = false.
Proof.
  intros H. apply sextets_complete in H. revert n H.
  apply Forall_forall. unfold sextets.
  repeat (apply Forall_cons; [split; vm_compute; reflexivity|]).
  apply Forall_nil.
Qed.


(** The four sextets of a group of three bytes, and the two sextets that
    end a short final group. *)
Definition s0 (na : N) := N.shiftr na 2.
Definition s1 (na nb : N) := N.lor (N.shiftl (N.land na 3) 4) (N.shiftr nb 4).
Definition s2 (nb nc : N) := N.lor (N.shiftl (N.land nb 15) 2) (N.shiftr nc 6).
Definition s3 (nc : N) := N.land nc 63.
Definition s1' (na : N) := N.shiftl (N.land na 3) 4.
Definition s2' (nb : N) := N.shiftl (N.land nb 15) 2.

Lemma s0_bound na : (na < 256)%N -> (s0 na < 64)%N.
Proof. intros. unfold s0. bits. euclid. Qed.
Lemma s1_bound na nb : (nb < 256)%N -> (s1 na nb < 64)%N.
Proof. intros. unfold s1. bits. euclid. Qed.
Lemma s2_bound nb nc : (nc < 256)%N -> (s2 nb nc < 64)%N.
Proof. intros. unfold s2. bits. euclid. Qed.
Lemma s3_bound nc : (s3 nc < 64)%N.
Proof. intros. unfold s3. bits. euclid. Qed.
Lemma s1'_bound na : (s1' na < 64)%N.
Proof. intros. unfold s1'. bits. euclid. Qed.
Lemma s2'_bound nb : (s2' nb < 64)%N.
Proof. intros. unfold s2'. bits. euclid. Qed.

Lemma out0 na nb :
  (na < 256)%N -> (nb < 256)%N ->
  N.lor (N.shiftl (s0 na) 2) (N.shiftr (s1 na nb) 4) = na.
Proof. intros. unfold s0, s1. bits. euclid. Qed.
Lemma out0' na :
  (na < 256)%N -> N.lor (N.shiftl (s0 na) 2) (N.shiftr (s1' na) 4) = na.
Proof. intros. unfold s0, s1'. bits. euclid. Qed.
Lemma out1 na nb nc :
  (nb < 256)%N -> (nc < 256)%N ->
  N.lor (N.shiftl (N.land (s1 na nb) 15) 4) (N.shiftr (s2 nb nc) 2) = nb.
Proof. intros. unfold s1, s2. bits. euclid. Qed.
Lemma out1' na nb :
  (nb < 256)%N ->
  N.lor (N.shiftl (N.land (s1 na nb) 15) 4) (N.shiftr (s2' nb) 2) = nb.
Proof. intros. unfold s1, s2'. bits. euclid. Qed.
Lemma out2 nb nc :
  (nc < 256)%N -> N.lor (N.shiftl (N.land (s2 nb nc) 3) 6) (s3 nc) = nc.
Proof. intros. unfold s2, s3. bits. euclid. Qed.


(** Induction three bytes at a time. *)
Lemma list_ind3 (A : Type) (P : list A -> Prop) :
  P [] -> (forall a, P [a]) -> (forall a b, P [a; b]) ->
  (forall a b c l, P l -> P (a :: b :: c :: l)) ->
  forall l, P l.
Proof.
  intros H0 H1 H2 H3.
  fix IH 1. intros [|a [|b [|c l]]].
  - exact H0.
  - apply H1.
  - apply H2.
  - apply H3, IH.
Qed.

Lemma scan_alpha (q : nat) (l : N) (p : nat) (s : N) (rest : bytes) :
  (s < 64)%N ->
  a2b_scan q l p (b2a s :: rest) =
  match q with
  | 0%nat => a2b_scan 1 s 0 rest
  | 1%nat =>
      out <- a2b_scan 2 (N.land s 15) 0 rest ;;
      Ok (byte_of_N (N.lor (N.shiftl l 2) (N.shiftr s 4)) :: out)
  | 2%nat =>
      out <- a2b_scan 3 (N.land s 3) 0 rest ;;
      Ok (byte_of_N (N.lor (N.shiftl l 4) (N.shiftr s 2)) :: out)
  | _ =>
      out <- a2b_scan 0 0 0 rest ;;
      Ok (byte_of_N (N.lor (N.shiftl l 6) s) :: out)
  end.
Proof.
  intros H. destruct (table_roundtrip H) as [Ht Hp].
  cbn [a2b_scan]. rewrite Hp, Ht. reflexivity.
Qed.

Lemma b2a_base64_cons3 (a b c : byte) (rest : bytes) :
  b2a_base64 (a :: b :: c :: rest) =
  b2a (s0 (Byte.to_N a))
  :: b2a (s1 (Byte.to_N a) (Byte.to_N b))
  :: b2a (s2 (Byte.to_N b) (Byte.to_N c))
  :: b2a (s3 (Byte.to_N c)) :: b2a_base64 rest.
Proof. reflexivity. Qed.

Lemma byte_bound (b : byte) : (Byte.to_N b < 256)%N.
Proof. pose proof (Byte.to_N_bounded b). lia. Qed.

Lemma scan_quad (l : N) (p : nat) (a b c : byte) (rest : bytes) :
  a2b_scan 0 l p (b2a_base64 (a :: b :: c :: rest)) =
  out <- a2b_scan 0 0 0 (b2a_base64 rest) ;; Ok (a :: b :: c :: out).
Proof.
  pose proof (byte_bound a) as Ha. pose proof (byte_bound b) as Hb.
  pose proof (byte_bound c) as Hc.
  rewrite b2a_base64_cons3.
  rewrite !scan_alpha
    by auto using s0_bound, s1_bound, s2_bound, s3_bound.
  rewrite out0, out1, out2 by assumption.
  rewrite !byte_of_N_to_N.
  destruct (a2b_scan 0 0 0 (b2a_base64 rest)); reflexivity.
Qed.

Lemma scan_pad_2 (l : N) : a2b_scan 2 l 0 [BASE64_PAD; BASE64_PAD] = Ok [].
Proof. reflexivity. Qed.

Lemma scan_pad_3 (l : N) : a2b_scan 3 l 0 [BASE64_PAD] = Ok [].
Proof. reflexivity. Qed.

(** Decoding what the encoder produced gives the bytes back. *)
Lemma a2b_b2a (bin : bytes) : a2b_base64 (b2a_base64 bin) = Ok bin.
Proof.
  unfold a2b_base64.
  induction bin as [|a|a b|a b c rest IH] using list_ind3.
  - reflexivity.
  - pose proof (byte_bound a) as Ha.
    cbn [b2a_base64]. fold (s0 (Byte.to_N a)) (s1' (Byte.to_N a)).
    rewrite !scan_alpha by auto using s0_bound, s1'_bound.
    rewrite scan_pad_2. cbn [bind].
    now rewrite out0', byte_of_N_to_N.
  - pose proof (byte_bound a) as Ha. pose proof (byte_bound b) as Hb.
    cbn [b2a_base64].
    fold (s0 (Byte.to_N a)) (s1 (Byte.to_N a) (Byte.to_N b)) (s2' (Byte.to_N b)).
    rewrite !scan_alpha by auto using s0_bound, s1_bound, s2'_bound.
    rewrite scan_pad_3. cbn [bind].
    rewrite out0, out1' by assumption.
    now rewrite !byte_of_N_to_N.
  - rewrite scan_quad, IH. reflexivity.
Qed.

(** The encoder commutes with concatenation after whole groups. *)
Lemma b2a_base64_app (a b : bytes) :
  (List.length a mod 3 = 0)%nat ->
  b2a_base64 (a ++ b) = b2a_base64 a ++ b2a_base64 b.
Proof.
  induction a as [|x|x y|x y z rest IH] using list_ind3; intros H.
  - reflexivity.
  - discriminate H.
  - discriminate H.
  - change ((x :: y :: z :: rest) ++ b) with (x :: y :: z :: (rest ++ b)).
    rewrite !b2a_base64_cons3, IH; [reflexivity|].
    change (List.length (x :: y :: z :: rest))
      with (3 + List.length rest)%nat in H.
    replace (3 + List.length rest)%nat
      with (List.length rest + 1 * 3)%nat in H by lia.
    now rewrite Nat.Div0.mod_add in H.
Qed.

Lemma b2a_base64_length (bin : bytes) :
  List.length (b2a_base64 bin) = (4 * ((List.length bin + 2) / 3))%nat.
Proof.
  induction bin as [|x|x y|x y z rest IH] using list_ind3; try reflexivity.
  rewrite b2a_base64_cons3. cbn [List.length]. rewrite IH.
  replace (S (S (S (List.length rest))) + 2)%nat with (List.length rest + 2 + 1 * 3)%nat by lia.
  rewrite Nat.div_add by lia. lia.
Qed.

Lemma b2a_base64_firstn (k : nat) (bin : bytes) :
  firstn (4 * k) (b2a_base64 bin) = b2a_base64 (firstn (3 * k) bin).
Proof.
  revert bin. induction k as [|k IH]; intros bin.
  - reflexivity.
  - replace (4 * S k)%nat with (4 + 4 * k)%nat by lia.
    replace (3 * S k)%nat with (3 + 3 * k)%nat by lia.
    destruct bin as [|x [|y [|z rest]]].
    + reflexivity.
    + cbn [b2a_base64 Nat.add firstn]. now rewrite !firstn_nil.
    + cbn [b2a_base64 Nat.add firstn]. now rewrite !firstn_nil.
    + rewrite b2a_base64_cons3. cbn [firstn Nat.add].
      rewrite b2a_base64_cons3, IH. reflexivity.
Qed.

Lemma b2a_base64_skipn (k : nat) (bin : bytes) :
  skipn (4 * k) (b2a_base64 bin) = b2a_base64 (skipn (3 * k) bin).
Proof.
  revert bin. induction k as [|k IH]; intros bin.
  - reflexivity.
  - replace (4 * S k)%nat with (4 + 4 * k)%nat by lia.
    replace (3 * S k)%nat with (3 + 3 * k)%nat by lia.
    destruct bin as [|x [|y [|z rest]]].
    + cbn [b2a_base64]. now rewrite !skipn_nil.
    + cbn [b2a_base64 Nat.add skipn]. now rewrite !skipn_nil.
    + cbn [b2a_base64 Nat.add skipn]. now rewrite !skipn_nil.
    + rewrite b2a_base64_cons3. cbn [skipn Nat.add]. apply IH.
Qed.


End Base64Facts.

(** ** The text of an envelope *)
Module PyStrFacts.
Import PyStr.

Definition no_space (s : string) : bool :=
  all_chars (fun c => negb (isspace c)) s.

Lemma lstrip_no_space (s : string) : no_space s = true -> lstrip s = s.
Proof.
  destruct s as [|c s]; [reflexivity|].
  unfold no_space. cbn [all_chars lstrip].
  intros H. apply andb_prop in H as [H _].
  apply negb_true_iff in H. now rewrite H.
Qed.

Lemma rstrip_no_space (s : string) : no_space s = true -> rstrip s = s.
Proof.
  unfold no_space.
  induction s as [|c s IH]; [reflexivity|].
  cbn [all_chars rstrip]. intros H. apply andb_prop in H as [Hc Hs].
  rewrite (IH Hs). apply negb_true_iff in Hc. rewrite Hc.
  now destruct s.
Qed.

Lemma strip_no_space (s : string) : no_space s = true -> strip s = s.
Proof.
  intros H. unfold strip. rewrite (lstrip_no_space _ H).
  now apply rstrip_no_space.
Qed.
End PyStrFacts.

Module Base64Text.
Import Base64 Base64Facts PyStr PyStrFacts.

(** A byte that is an ASCII character and not white space. *)
Definition text_byte (b : byte) : bool :=
  is_ascii (ascii_of_byte b) && negb (isspace (ascii_of_byte b)).

Lemma text_byte_b2a (n : N) : (n < 64)%N -> text_byte (b2a n) = true.
Proof.
  intros H. apply sextets_complete in H. revert n H.
  apply Forall_forall. unfold sextets.
  repeat (apply Forall_cons; [vm_compute; reflexivity|]).
  apply Forall_nil.
Qed.

Lemma text_byte_b2a_base64 (bin : bytes) :
  forallb text_byte (b2a_base64 bin) = true.
Proof.
  induction bin as [|a|a b|a b c rest IH] using list_ind3.
  - reflexivity.
  - pose proof (byte_bound a).
    cbn [b2a_base64 forallb]. fold (s0 (Byte.to_N a)) (s1' (Byte.to_N a)).
    now rewrite !text_byte_b2a by auto using s0_bound, s1'_bound.
  - pose proof (byte_bound a). pose proof (byte_bound b).
    cbn [b2a_base64 forallb].
    fold (s0 (Byte.to_N a)) (s1 (Byte.to_N a) (Byte.to_N b)) (s2' (Byte.to_N b)).
    now rewrite !text_byte_b2a by auto using s0_bound, s1_bound, s2'_bound.
  - pose proof (byte_bound a). pose proof (byte_bound b).
    pose proof (byte_bound c).
    rewrite b2a_base64_cons3. cbn [forallb].
    now rewrite !text_byte_b2a, IH
      by auto using s0_bound, s1_bound, s2_bound, s3_bound.
Qed.

Lemma decode_ascii_cons (x : byte) (b : bytes) :
  decode_ascii (x :: b) = String (ascii_of_byte x) (decode_ascii b).
Proof. reflexivity. Qed.

Lemma text_bytes_ascii (b : bytes) :
  forallb text_byte b = true -> all_chars is_ascii (decode_ascii b) = true.
Proof.
  induction b as [|x b IH]; [reflexivity|].
  cbn [forallb]. intros H. apply andb_prop in H as [Hx Hb].
  apply andb_prop in Hx as [Hx _].
  rewrite decode_ascii_cons. cbn [all_chars]. now rewrite Hx, IH.
Qed.

Lemma text_bytes_no_space (b : bytes) :
  forallb text_byte b = true -> no_space (decode_ascii b) = true.
Proof.
  unfold no_space.
  induction b as [|x b IH]; [reflexivity|].
  cbn [forallb]. intros H. apply andb_prop in H as [Hx Hb].
  apply andb_prop in Hx as [_ Hx].
  rewrite decode_ascii_cons. cbn [all_chars]. now rewrite Hx, IH.
Qed.

Lemma encode_decode_ascii (b : bytes) :
  forallb text_byte b = true -> encode_ascii (decode_ascii b) = Ok b.
Proof.
  intros H. unfold encode_ascii. rewrite (text_bytes_ascii _ H).
  unfold decode_ascii. now rewrite list_byte_of_string_of_list_byte.
Qed.

End Base64Text.


(** ** The lenient decoder *)
Module LenientFacts.
Import Base64.

Lemma a2b_scan_discards (data : bytes) :
  forall (q : nat) (l : N) (p : nat),
    a2b_scan q l p data = a2b_scan q l p (filter significant data).
Proof.
  induction data as [|c data IH]; intros q l p; [reflexivity|].
  cbn [filter]. unfold significant, in_alphabet.
  destruct (Byte.eqb c BASE64_PAD) eqn:Ec.
  - cbn [orb a2b_scan]. rewrite Ec.
    destruct (2 <=? q)%nat; [destruct (4 <=? q + S p)%nat|]; auto.
  - cbn [orb]. destruct (table_a2b_base64 c) as [v|] eqn:Et.
    + cbn [a2b_scan]. rewrite Ec, Et.
      destruct q as [|[|[|q]]]; now rewrite IH.
    + cbn [a2b_scan]. rewrite Ec, Et. apply IH.
Qed.

Lemma pad_not_in_alphabet : in_alphabet BASE64_PAD = false.
Proof. reflexivity. Qed.

Lemma bind_raise (A B : Type) (r : result A) (f : A -> B) (e : exn) :
  (x <- r ;; Ok (f x)) = Raise e <-> r = Raise e.
Proof. destruct r; cbn; split; congruence. Qed.

(** On data characters alone the scan fails exactly when they do not
    fill whole quads. *)
Lemma a2b_scan_alphabet (data : bytes) :
  forallb in_alphabet data = true ->
  forall (q : nat) (l : N) (p : nat),
    (q < 4)%nat ->
    a2b_scan q l p data = Raise binascii_Error <->
    ((q + length data) mod 4 <> 0)%nat.
Proof.
  induction data as [|c data IH]; intros Hall q l p Hq.
  - cbn [a2b_scan length]. rewrite Nat.add_0_r, Nat.mod_small by assumption.
    destruct q; split; congruence || lia.
  - cbn [forallb] in Hall. apply andb_prop in Hall as [Hc Hall].
    specialize (IH Hall).
    assert (Ec : Byte.eqb c BASE64_PAD = false).
    { destruct (Byte.eqb c BASE64_PAD) eqn:E; [|reflexivity].
      apply Byte.byte_dec_bl in E. subst c. discriminate Hc. }
    unfold in_alphabet in Hc.
    cbn [a2b_scan length]. rewrite Ec.
    destruct (table_a2b_base64 c) as [v|]; [|discriminate].
    destruct q as [|[|[|[|q]]]]; try lia.
    + rewrite IH by lia. now replace (0 + S (length data))%nat
        with (1 + length data)%nat by lia.
    + rewrite bind_raise, IH by lia.
      now replace (1 + S (length data))%nat with (2 + length data)%nat by lia.
    + rewrite bind_raise, IH by lia.
      now replace (2 + S (length data))%nat with (3 + length data)%nat by lia.
    + rewrite bind_raise, IH by lia.
      replace (3 + S (length data))%nat with (0 + length data + 1 * 4)%nat by lia.
      now rewrite Nat.Div0.mod_add.
Qed.

Lemma a2b_scan_raises (data : bytes) :
  forall (q : nat) (l : N) (p : nat) (e : exn),
    a2b_scan q l p data = Raise e -> e = binascii_Error.
Proof.
  induction data as [|c data IH]; intros q l p e.
  - cbn. destruct q; congruence.
  - cbn [a2b_scan].
    destruct (Byte.eqb c BASE64_PAD).
    + destruct (2 <=? q)%nat; [destruct (4 <=? q + S p)%nat|]; eauto.
      discriminate.
    + destruct (table_a2b_base64 c) as [v|]; eauto.
      destruct q as [|[|[|q]]]; eauto;
        match goal with
        | |- context [a2b_scan ?a ?b ?c data] =>
            specialize (IH a b c);
            destruct (a2b_scan a b c data); cbn; [discriminate|]
        end; intros [= <-]; now apply IH.
Qed.

Lemma filter_all (A : Type) (f : A -> bool) (l : list A) :
  forallb f (filter f l) = true.
Proof.
  induction l as [|x l IH]; [reflexivity|].
  cbn [filter]. destruct (f x) eqn:E; [|assumption].
  cbn [forallb]. now rewrite E.
Qed.

Section Stage.
Variable zl : zlib.

Lemma decode_base64_stage (data : bytes) :
  decode_base64_gzip zl (Bytes data) = Raise (ValueError base64_decode_failed)
  <-> a2b_base64 data = Raise binascii_Error.
Proof.
  unfold decode_base64_gzip, b64decode. cbn [bind].
  destruct (a2b_base64 data) as [decoded|e] eqn:E.
  - cbn [reraise bind].
    destruct (GzipFile_read zl decoded); cbn; split; discriminate.
  - apply a2b_scan_raises in E. subst e. cbn. tauto.
Qed.

End Stage.

End LenientFacts.

(** ** Streaming *)
Lemma is_empty_true (A : Type) (l : list A) : is_empty l = true -> l = [].
Proof. now destruct l. Qed.

Lemma if_empty_app (A : Type) (l t : list A) :
  (if is_empty t then l else l ++ t) = l ++ t.
Proof. destruct t; [now rewrite app_nil_r|reflexivity]. Qed.

Lemma decode_ascii_app (a b : bytes) :
  decode_ascii (a ++ b) = (decode_ascii a ++ decode_ascii b)%string.
Proof.
  induction a as [|x a IH]; [reflexivity|].
  cbn [app]. rewrite !Base64Text.decode_ascii_cons, IH. reflexivity.
Qed.

Lemma string_app_assoc (a b c : string) :
  ((a ++ b) ++ c = a ++ (b ++ c))%string.
Proof. induction a as [|x a IH]; [reflexivity|]. cbn. now rewrite IH. Qed.

Lemma string_app_empty_r (a : string) : (a ++ EmptyString)%string = a.
Proof. induction a as [|x a IH]; [reflexivity|]. cbn. now rewrite IH. Qed.

Lemma read_bytes_shorter (b : bytes) (c : Z) :
  is_empty (fst (read_bytes b c)) = false ->
  (List.length (snd (read_bytes b c)) < List.length b)%nat.
Proof.
  unfold read_bytes. destruct (c <? 0)%Z eqn:E; cbn [fst snd].
  - destruct b; [discriminate|]. cbn. lia.
  - destruct (Z.to_nat c) as [|n]; [discriminate|].
    destruct b as [|x b]; [discriminate|].
    intros _. cbn [skipn List.length]. rewrite length_skipn. lia.
Qed.

Lemma aligned_length (n k : nat) : (k <> 0 -> (n / k * k) mod k = 0)%nat.
Proof. intros. now apply Nat.Div0.mod_mul. Qed.

Section StreamEncode.
Import Base64 Base64Facts.
Variable zl : zlib.

Lemma stream_gzip_loop_spec (fuel : nat) :
  forall (infile : bytes) (read_size : Z) (comp : compressobj zl)
         (buf : bytes) (outfile : string),
    (List.length infile < fuel)%nat ->
    stream_gzip_loop zl fuel infile read_size comp buf outfile =
    Some (outfile ++
          decode_ascii
            (b64encode (buf ++ compressed_stream zl fuel infile read_size comp)%list))%string.
Proof.
  unfold b64encode.
  induction fuel as [|fuel IH]; intros infile c comp buf outfile Hlt; [lia|].
  cbn [stream_gzip_loop compressed_stream].
  pose proof (read_bytes_shorter infile c) as Hshort.
  destruct (read_bytes infile c) as [chunk rest]. cbn [fst snd] in Hshort.
  destruct (is_empty chunk) eqn:Echunk.
  - cbv zeta. rewrite if_empty_app.
    destruct (is_empty (buf ++ compress_flush zl comp)) eqn:E; [|reflexivity].
    apply is_empty_true in E. rewrite E. cbn.
    now rewrite string_app_empty_r.
  - specialize (Hshort eq_refl).
    destruct (compress zl comp chunk) as [comp' compressed].
    destruct (is_empty compressed) eqn:Ecomp.
    + apply is_empty_true in Ecomp. subst compressed. cbn [app].
      apply IH. lia.
    + cbv zeta. set (buf' := buf ++ compressed).
      destruct (Nat.eqb_spec (List.length buf' / 3 * 3) 0) as [E0|E0].
      * rewrite IH by lia. unfold buf'. now rewrite <- app_assoc.
      * rewrite IH by lia. rewrite string_app_assoc, <- decode_ascii_app.
        rewrite <- b2a_base64_app.
        -- rewrite app_assoc, firstn_skipn. unfold buf'.
           now rewrite <- app_assoc.
        -- rewrite length_firstn, Nat.min_l
             by (apply Nat.Div0.mul_div_le || (rewrite Nat.mul_comm; apply Nat.Div0.mul_div_le)).
           apply Nat.Div0.mod_mul.
Qed.

End StreamEncode.

Module ReadFacts.
Import PyStr.

Lemma list_byte_of_string_cons (c : ascii) (s : string) :
  list_byte_of_string (String c s) = byte_of_ascii c :: list_byte_of_string s.
Proof. reflexivity. Qed.

Lemma take_bytes (n : nat) (s : string) :
  list_byte_of_string (take n s) = firstn n (list_byte_of_string s).
Proof.
  revert s. induction n as [|n IH]; intros [|c s]; try reflexivity.
  cbn [take]. rewrite !list_byte_of_string_cons. cbn [firstn]. now rewrite IH.
Qed.

Lemma drop_bytes (n : nat) (s : string) :
  list_byte_of_string (drop n s) = skipn n (list_byte_of_string s).
Proof.
  revert s. induction n as [|n IH]; intros [|c s]; try reflexivity.
  cbn [drop]. rewrite !list_byte_of_string_cons. cbn [skipn]. now rewrite IH.
Qed.

Lemma take_ascii (n : nat) (s : string) :
  all_chars is_ascii s = true -> all_chars is_ascii (take n s) = true.
Proof.
  revert s. induction n as [|n IH]; intros [|c s]; try reflexivity.
  cbn [take all_chars]. intros H. apply andb_prop in H as [-> H].
  now rewrite IH.
Qed.

Lemma drop_ascii (n : nat) (s : string) :
  all_chars is_ascii s = true -> all_chars is_ascii (drop n s) = true.
Proof.
  revert s. induction n as [|n IH]; intros [|c s]; try reflexivity; auto.
  cbn [drop all_chars]. intros H. apply andb_prop in H as [_ H]. auto.
Qed.

Lemma list_byte_of_string_length (s : string) :
  List.length (list_byte_of_string s) = String.length s.
Proof.
  induction s as [|c s IH]; [reflexivity|].
  rewrite list_byte_of_string_cons. cbn. now rewrite IH.
Qed.

(** What one [read] returns, on the encoded side. *)
Lemma read_spec (f : infile) (c : Z) :
  ascii_file f = true ->
  exists chunk, 
    as_bytes (fst (read f c)) = Ok chunk /\
    is_falsy (fst (read f c)) = is_empty chunk /\
    (chunk, file_bytes (snd (read f c))) = read_bytes (file_bytes f) c /\
    ascii_file (snd (read f c)) = true /\
    remaining (snd (read f c)) = List.length (file_bytes (snd (read f c))).
Proof.
  destruct f as [s|b]; cbn [ascii_file file_bytes read]; intros Ha.
  - unfold read_bytes. destruct (c <? 0)%Z.
    + exists (list_byte_of_string s). cbn [fst snd as_bytes remaining].
      unfold encode_ascii. rewrite Ha.
      split; [reflexivity|]. split; [now destruct s|]. auto.
    + exists (list_byte_of_string (take (Z.to_nat c) s)).
      cbn [fst snd as_bytes remaining ascii_file file_bytes].
      unfold encode_ascii. rewrite take_ascii by assumption.
      rewrite take_bytes, drop_bytes, drop_ascii by assumption.
      rewrite <- drop_bytes, list_byte_of_string_length.
      split; [reflexivity|]. split; [|auto].
      rewrite <- take_bytes. now destruct (take (Z.to_nat c) s).
  - destruct (read_bytes b c) as [chunk rest].
    exists chunk. cbn. split; [reflexivity|]. split; [now destruct chunk|]. auto.
Qed.
End ReadFacts.

Section StreamDecode.
Import Base64 Base64Facts Base64Text ReadFacts.
Variable zl : zlib.

Lemma b2a_base64_short (g : bytes) :
  (List.length (b2a_base64 g) < 4)%nat -> g = [].
Proof.
  rewrite b2a_base64_length. intros H.
  destruct g as [|x g]; [reflexivity|]. exfalso.
  cbn [List.length] in H.
  assert (1 <= (S (List.length g) + 2) / 3)%nat; [|lia].
  apply Nat.div_le_lower_bound; lia.
Qed.

Lemma stream_decode_loop_spec (fuel : nat) :
  forall (f : infile) (c : Z) (pending g : bytes),
    c <> 0%Z ->
    ascii_file f = true ->
    remaining f = List.length (file_bytes f) ->
    (remaining f < fuel)%nat ->
    (List.length pending < 4)%nat ->
    pending ++ file_bytes f = b2a_base64 g ->
    exists pieces : list bytes,
      concat pieces = g /\
      forall (d d' : decompressobj zl) (outfile out : bytes),
        feed zl d pieces = Ok (d', out) ->
        stream_decode_loop zl fuel f c d pending outfile =
        Some {| written := outfile ++ out ++ decompress_flush zl d';
                ended := Ok tt |}.
Proof.
  induction fuel as [|fuel IH]; intros f c pending g Hc Ha Hrem Hlt Hp Hg; [lia|].
  cbn [stream_decode_loop].
  destruct (read_spec f c Ha) as (chunk & Hchunk & Hfalsy & Hread & Ha' & Hrem').
  destruct (read f c) as [ch f']. cbn [fst snd] in *.
  rewrite Hfalsy, Hchunk.
  pose proof (read_bytes_shorter (file_bytes f) c) as Hshort.
  rewrite <- Hread in Hshort. cbn [fst snd] in Hshort.
  destruct (is_empty chunk) eqn:Echunk.
  - (* end of input: nothing is pending *)
    apply is_empty_true in Echunk. subst chunk.
    assert (Hnil : file_bytes f = []).
    { unfold read_bytes in Hread.
      destruct (Z.ltb_spec c 0); [congruence|].
      destruct (Z.to_nat c) eqn:En; [lia|].
      destruct (file_bytes f); [reflexivity|discriminate]. }
    rewrite Hnil, app_nil_r in Hg. subst pending.
    apply b2a_base64_short in Hp. subst g.
    exists []. split; [reflexivity|].
    intros d d' outfile out [= <- <-]. reflexivity.
  - specialize (Hshort eq_refl).
    assert (Hsplit : file_bytes f = chunk ++ file_bytes f').
    { unfold read_bytes in Hread.
      destruct (c <? 0)%Z.
      - injection Hread as -> ->. now rewrite app_nil_r.
      - injection Hread as -> ->. now rewrite firstn_skipn. }
    set (pending' := pending ++ chunk).
    assert (Hg' : pending' ++ file_bytes f' = b2a_base64 g).
    { unfold pending'. now rewrite <- app_assoc, <- Hsplit. }
    destruct (Nat.eqb_spec (List.length pending' / 4 * 4) 0) as [E0|E0].
    + (* fewer than four characters pending *)
      apply (IH f' c pending' g); try assumption; try lia.
      assert (List.length pending' / 4 = 0)%nat by lia.
      apply Nat.div_small_iff in H; lia.
    + set (k := (List.length pending' / 4)%nat) in *.
      assert (Hk : (k * 4 <= List.length pending')%nat)
        by (unfold k; rewrite Nat.mul_comm; apply Nat.Div0.mul_div_le).
      assert (Hfirst : firstn (k * 4) pending' = b2a_base64 (firstn (3 * k) g)).
      { rewrite <- b2a_base64_firstn, <- Hg', firstn_app.
        replace (4 * k - List.length pending')%nat with 0%nat by lia.
        rewrite firstn_O, app_nil_r. f_equal. lia. }
      assert (Hskip : skipn (k * 4) pending' ++ file_bytes f' =
                      b2a_base64 (skipn (3 * k) g)).
      { rewrite <- b2a_base64_skipn, <- Hg', skipn_app.
        replace (4 * k - List.length pending')%nat with 0%nat by lia.
        rewrite skipn_O. do 2 f_equal. lia. }
      destruct (IH f' c (skipn (k * 4) pending') (skipn (3 * k) g))
        as (pieces & Hcat & Hrun); try assumption; try lia.
      { rewrite length_skipn. unfold k.
        pose proof (Nat.div_mod_eq (List.length pending') 4).
        pose proof (Nat.mod_upper_bound (List.length pending') 4). lia. }
      exists (firstn (3 * k) g :: pieces). split.
      * cbn [concat]. rewrite Hcat. apply firstn_skipn.
      * intros d d' outfile out Hfeed. cbn [feed] in Hfeed.
        rewrite Hfirst, a2b_b2a. cbn [reraise].
        destruct (decompress zl d (firstn (3 * k) g)) as [[d1 o1]|e];
          [|discriminate]. cbn [bind fst snd] in Hfeed.
        destruct (feed zl d1 pieces) as [[d2 o2]|e] eqn:Efeed;
          [|discriminate]. cbn [bind fst snd] in Hfeed.
        injection Hfeed as <- <-.
        rewrite if_empty_app.
        rewrite (Hrun d1 d2 (outfile ++ o1) o2 Efeed).
        now rewrite <- !app_assoc.
Qed.

End StreamDecode.

(** ** Whole-buffer decoding of an envelope *)
Section Envelope.
Import Base64 Base64Facts Base64Text PyStrFacts.
Variable zl : zlib.

(** Decoding the text of an envelope comes down to reading the gzip
    member it wraps. *)
Lemma decode_envelope (g : bytes) :
  decode_base64_gzip zl (Str (decode_ascii (b64encode g))) =
  reraise gzip_decompress_failed (GzipFile_read zl g).
Proof.
  unfold decode_base64_gzip, b64encode, b64decode.
  pose proof (text_byte_b2a_base64 g) as Ht.
  rewrite strip_no_space by now apply text_bytes_no_space.
  rewrite encode_decode_ascii by assumption. cbn [bind].
  rewrite a2b_b2a. reflexivity.
Qed.
End Envelope.

(** ** The reference implementation satisfies the library contract *)
Module StoredGzipFacts.
Import StoredGzip.
#[local] Open Scope N_scope.

Lemma shiftr_8 (x : N) : N.shiftr x 8 = x / 256.
Proof. now rewrite N.shiftr_div_pow2. Qed.

Lemma le16_decode (n : N) :
  n <= 65535 ->
  exists b0 b1, le16 n = [b0; b1] /\ Byte.to_N b0 + 256 * Byte.to_N b1 = n.
Proof.
  intros H. unfold le16. do 2 eexists. split; [reflexivity|].
  rewrite !to_N_byte_of_N, shiftr_8. euclid.
Qed.

Lemma bytes_eqb_refl (a : bytes) : bytes_eqb a a = true.
Proof. unfold bytes_eqb. now destruct (list_eq_dec Byte.byte_eq_dec a a). Qed.

Lemma inflate_stored_blocks (fuel : nat) :
  forall (fuel' : nat) (data rest : bytes),
    (length data < fuel)%nat -> (length data < fuel')%nat ->
    inflate fuel' (stored_blocks fuel data ++ rest) = Ok (data, rest).
Proof.
  induction fuel as [|fuel IH]; intros fuel' data rest Hf Hf'; [lia|].
  destruct fuel' as [|fuel']; [lia|].
  cbn [stored_blocks].
  destruct (N.leb_spec (N.of_nat (length data)) max_stored) as [Hle|Hgt].
  - destruct (le16_decode Hle) as (l0 & l1 & -> & Hlen).
    destruct (@le16_decode (max_stored - N.of_nat (length data)))
      as (n0 & n1 & -> & Hnlen); [unfold max_stored; lia|].
    cbn [app inflate]. rewrite Hlen, Hnlen.
    change (N.land (N.shiftr (Byte.to_N x01) 1) 3 =? 0) with true.
    change (N.testbit (Byte.to_N x01) 0) with true.
    cbn [negb]. unfold max_stored in *.
    replace (N.of_nat (length data) + (65535 - N.of_nat (length data)) =? 65535)
      with true by (symmetry; apply N.eqb_eq; lia).
    cbn [negb]. rewrite length_app.
    replace (N.of_nat (length data + length rest) <? N.of_nat (length data))
      with false by (symmetry; apply N.ltb_ge; lia).
    rewrite Nat2N.id, firstn_app, skipn_app, Nat.sub_diag, firstn_all,
      skipn_all. cbn [firstn skipn]. now rewrite app_nil_r.
  - destruct (@le16_decode max_stored) as (l0 & l1 & -> & Hlen);
      [unfold max_stored; lia|].
    destruct (@le16_decode 0) as (n0 & n1 & -> & Hnlen); [lia|].
    cbn [app inflate]. rewrite Hlen, Hnlen.
    change (N.land (N.shiftr (Byte.to_N x00) 1) 3 =? 0) with true.
    change (N.testbit (Byte.to_N x00) 0) with false.
    change (max_stored + 0 =? 65535) with true.
    cbn [negb].
    set (k := N.to_nat max_stored) in *.
    assert (Hk : (k < length data)%nat) by (unfold k, max_stored in *; lia).
    assert (HkN : N.of_nat k = max_stored) by (unfold k; apply N2Nat.id).
    assert (Hk0 : (0 < k)%nat) by (unfold k, max_stored; lia).
    clearbody k.
    rewrite <- app_assoc, !length_app, length_firstn, Nat.min_l by lia.
    rewrite Nat2N.inj_add, HkN.
    match goal with
    | |- context [(?a <? max_stored)] =>
        destruct (N.ltb_spec a max_stored) as [Hlt|_]; [lia|]
    end.
    assert (Hlenk : length (firstn k data) = k)
      by (rewrite length_firstn; lia).
    rewrite firstn_app, skipn_app, Hlenk, Nat.sub_diag.
    rewrite (@firstn_all2 _ k (firstn k data)) by lia.
    rewrite (@skipn_all2 _ k (firstn k data)) by lia.
    cbn [firstn skipn app]. rewrite app_nil_r.
    rewrite IH.
    + cbn [bind fst snd]. now rewrite firstn_skipn.
    + rewrite length_skipn. lia.
    + rewrite length_skipn. lia.
Qed.

Lemma stored_blocks_bound (fuel : nat) (data : bytes) :
  (length data < fuel)%nat -> (length data < length (stored_blocks fuel data))%nat.
Proof.
  revert data. induction fuel as [|fuel IH]; intros data H; [lia|].
  cbn [stored_blocks].
  destruct (N.leb_spec (N.of_nat (length data)) max_stored) as [Hle|Hgt].
  - cbn [length]. rewrite !length_app. lia.
  - set (k := N.to_nat max_stored) in *.
    assert (Hk : (k < length data)%nat) by (unfold k, max_stored in *; lia).
    assert (Hk0 : (0 < k)%nat) by (unfold k, max_stored; lia).
    clearbody k.
    cbn [length]. rewrite !length_app, length_firstn, Nat.min_l by lia.
    assert (length (skipn k data) < fuel)%nat by (rewrite length_skipn; lia).
    specialize (IH _ H0). rewrite length_skipn in IH. lia.
Qed.

Lemma header_shape (mtime xfl os : N) :
  exists m0 m1 m2 m3 x o,
    header mtime xfl os = [x1f; x8b; x08; x00; m0; m1; m2; m3; x; o].
Proof. unfold header, le32. cbn [app]. repeat eexists. Qed.

Lemma header_xfl (mtime xfl os : N) :
  exists m0 m1 m2 m3 o,
    header mtime xfl os =
    [x1f; x8b; x08; x00; m0; m1; m2; m3; byte_of_N xfl; o].
Proof. unfold header, le32. cbn [app]. repeat eexists. Qed.

Lemma gunzip_member (mtime xfl os : N) (data : bytes) :
  gunzip (member mtime xfl os data) = Ok data.
Proof.
  unfold member.
  destruct (header_shape mtime xfl os) as (m0 & m1 & m2 & m3 & x & o & ->).
  cbn [app gunzip]. rewrite bytes_eqb_refl. cbn [negb].
  unfold deflate. rewrite inflate_stored_blocks.
  - cbn [bind fst snd]. now rewrite bytes_eqb_refl.
  - lia.
  - rewrite length_app.
    pose proof (@stored_blocks_bound (S (length data)) data). lia.
Qed.

Lemma GzipFile_read_write (now : Z) (x : bytes) :
  GzipFile_read zl (GzipFile_write zl now x) = Ok x.
Proof. apply gunzip_member. Qed.

Lemma feed_buffers (pieces : list bytes) (d : bytes) :
  feed zl d pieces = Ok (d ++ concat pieces, []).
Proof.
  revert d. induction pieces as [|p ps IH]; intros d; cbn [feed concat].
  - now rewrite app_nil_r.
  - cbn [decompress zl bind fst snd]. rewrite IH. cbn [bind fst snd app].
    now rewrite app_assoc.
Qed.

Lemma decompressobj_spec (now : Z) (x : bytes) (pieces : list bytes) :
  concat pieces = GzipFile_write zl now x ->
  exists d out,
    feed zl (decompressobj_new zl) pieces = Ok (d, out) /\
    out ++ decompress_flush zl d = x.
Proof.
  intros H. exists (concat pieces), []. split.
  - apply (feed_buffers pieces []).
  - cbn [app decompress_flush zl]. rewrite H.
    change (gunzip (GzipFile_write zl now x))
      with (GzipFile_read zl (GzipFile_write zl now x)).
    now rewrite GzipFile_read_write.
Qed.

(** The stream of the compression object starts with zlib's header. *)
Lemma compressed_stream_header (fuel : nat) (infile : bytes) (c : Z)
    (acc : bytes) :
  exists rest,
    compressed_stream zl (S fuel) infile c (false, acc) =
    header 0 0 OS_CODE ++ rest.
Proof.
  cbn [compressed_stream].
  destruct (read_bytes infile c) as [chunk rest].
  destruct (is_empty chunk).
  - cbn [compress_flush zl fst snd]. eexists. reflexivity.
  - cbn [compress zl fst snd]. eexists. reflexivity.
Qed.

(** The text of the streaming encoder is never the whole-buffer text. *)
Lemma stream_text_differs (now : Z) (x : bytes) (c : Z) :
  stream_gzip_base64 zl x c = Some (encode_base64_gzip zl now x) -> False.
Proof.
  unfold stream_gzip_base64, encode_base64_gzip, Base64.b64encode.
  rewrite stream_gzip_loop_spec by lia. cbn [app].
  unfold Base64.b64encode.
  change (compressobj_new zl) with (false, @nil byte).
  destruct (compressed_stream_header (length x) x c []) as (rest & ->).
  destruct (header_xfl (Z.to_N (now mod 2 ^ 32)) 2 255)
    as (m0 & m1 & m2 & m3 & o & E).
  cbn [GzipFile_write zl]. unfold member. rewrite E.
  unfold header. cbn [app le32].
  rewrite !Base64Facts.b2a_base64_cons3, !Base64Text.decode_ascii_cons.
  cbn [String.append].
  intros H.
  apply (f_equal (fun o => match o with
                           | Some s => String.get 11 s
                           | None => None
                           end)) in H.
  vm_compute in H. discriminate H.
Qed.

End StoredGzipFacts.

(** ** More on whole-buffer decoding *)
Module StripFacts.
Import PyStr Base64 ReadFacts.

Lemma space_not_significant (c : ascii) :
  isspace c = true -> significant (byte_of_ascii c) = false.
Proof.
  intros H.
  destruct c as [[] [] [] [] [] [] [] []];
    first [reflexivity | vm_compute in H; discriminate H].
Qed.

Lemma filter_significant_lstrip (s : string) :
  filter significant (list_byte_of_string (lstrip s)) =
  filter significant (list_byte_of_string s).
Proof.
  induction s as [|c s IH]; [reflexivity|].
  cbn [lstrip]. destruct (isspace c) eqn:E; [|reflexivity].
  rewrite list_byte_of_string_cons. cbn [filter].
  now rewrite (space_not_significant _ E).
Qed.

Lemma filter_significant_rstrip (s : string) :
  filter significant (list_byte_of_string (rstrip s)) =
  filter significant (list_byte_of_string s).
Proof.
  induction s as [|c s IH]; [reflexivity|].
  cbn [rstrip]. rewrite (list_byte_of_string_cons c s). cbn [filter].
  rewrite <- IH.
  destruct (rstrip s) as [|a r].
  - destruct (isspace c) eqn:E.
    + now rewrite (space_not_significant _ E).
    + reflexivity.
  - reflexivity.
Qed.

Lemma lstrip_ascii (s : string) :
  all_chars is_ascii s = true -> all_chars is_ascii (lstrip s) = true.
Proof.
  induction s as [|c s IH]; [reflexivity|].
  cbn [lstrip]. destruct (isspace c); [|auto].
  cbn [all_chars]. intros H. apply andb_prop in H as [_ H]. auto.
Qed.

Lemma rstrip_ascii (s : string) :
  all_chars is_ascii s = true -> all_chars is_ascii (rstrip s) = true.
Proof.
  induction s as [|c s IH]; [reflexivity|].
  cbn [all_chars rstrip]. intros H. apply andb_prop in H as [Hc H].
  specialize (IH H). destruct (rstrip s) as [|a r].
  - destruct (isspace c); [reflexivity|]. cbn. now rewrite Hc.
  - cbn [all_chars] in *. now rewrite Hc, IH.
Qed.

Lemma strip_ascii (s : string) :
  all_chars is_ascii s = true -> all_chars is_ascii (strip s) = true.
Proof. intros H. unfold strip. now apply rstrip_ascii, lstrip_ascii. Qed.

Lemma filter_significant_strip (s : string) :
  filter significant (list_byte_of_string (strip s)) =
  filter significant (list_byte_of_string s).
Proof.
  unfold strip. now rewrite filter_significant_rstrip, filter_significant_lstrip.
Qed.

End StripFacts.

(** ** More on the streaming decoder *)
Module StreamFacts.
Import PyStr Base64 ReadFacts.

Lemma take_empty (n : nat) (s : string) :
  take n s = EmptyString -> n = 0%nat \/ s = EmptyString.
Proof. destruct n, s; auto. discriminate. Qed.

Lemma drop_length (n : nat) (s : string) :
  String.length (drop n s) = (String.length s - n)%nat.
Proof.
  revert s. induction n as [|n IH]; intros [|c s]; cbn [drop String.length];
    auto with arith.
Qed.

(** A read that returns something leaves less to read. *)
Lemma read_shorter (f : infile) (c : Z) :
  is_falsy (fst (read f c)) = false ->
  (remaining (snd (read f c)) < remaining f)%nat.
Proof.
  destruct f as [s|b]; cbn [read].
  - destruct (c <? 0)%Z; cbn [fst snd remaining is_falsy].
    + destruct s; [discriminate|]. cbn. lia.
    + destruct (take (Z.to_nat c) s) eqn:E; [discriminate|]. intros _.
      rewrite drop_length.
      destruct (Z.to_nat c); [destruct s; discriminate|].
      destruct s; [discriminate|]. cbn. lia.
  - pose proof (read_bytes_shorter b c) as H.
    destruct (read_bytes b c) as [chunk rest]. cbn [fst snd remaining is_falsy] in *.
    destruct chunk; [discriminate|]. intros _. now apply H.
Qed.

Lemma all_chars_take_drop (p : ascii -> bool) (n : nat) (s : string) :
  all_chars p s = all_chars p (take n s) && all_chars p (drop n s).
Proof.
  revert s. induction n as [|n IH]; intros [|c s]; try reflexivity.
  cbn [take drop all_chars]. now rewrite IH, andb_assoc.
Qed.

(** Fewer than four characters never complete a quad. *)
Lemma a2b_scan_short (data : bytes) :
  forall (q : nat) (l : N) (pads : nat),
    (q + pads + length data < 4)%nat ->
    q <> 0%nat \/ existsb in_alphabet data = true ->
    a2b_scan q l pads data = Raise binascii_Error.
Proof.
  induction data as [|c data IH]; intros q l pads Hlen Hq.
  - cbn [a2b_scan]. destruct q; [|reflexivity].
    destruct Hq as [Hq|Hq]; [congruence|discriminate].
  - cbn [a2b_scan length existsb] in *. unfold in_alphabet in Hq.
    destruct (Byte.eqb c BASE64_PAD) eqn:Ec.
    + assert (Hpad : table_a2b_base64 c = None).
      { apply Byte.byte_dec_bl in Ec. now subst c. }
      rewrite Hpad in Hq. cbn [orb] in Hq.
      destruct (2 <=? q)%nat.
      * destruct (Nat.leb_spec 4 (q + S pads)); [lia|].
        apply IH; [lia|exact Hq].
      * apply IH; [lia|exact Hq].
    + destruct (table_a2b_base64 c) as [v|].
      * destruct q as [|[|[|q]]]; try lia.
        -- apply IH; [lia|now left].
        -- rewrite IH; [reflexivity|lia|now left].
        -- rewrite IH; [reflexivity|lia|now left].
      * cbn [orb] in Hq. apply IH; [lia|exact Hq].
Qed.

Lemma a2b_base64_short (data : bytes) :
  (length data < 4)%nat -> existsb in_alphabet data = true ->
  a2b_base64 data = Raise binascii_Error.
Proof. intros H1 H2. apply a2b_scan_short; [cbn; lia|now right]. Qed.

Lemma aligned_sub (L k : nat) :
  (k * 4 <= L -> (L - k * 4) / 4 * 4 = L / 4 * 4 - k * 4)%nat.
Proof.
  intros H.
  replace L with ((L - k * 4) + k * 4)%nat at 2 by lia.
  rewrite Nat.div_add by lia. lia.
Qed.

Section Loop.
Variable zl : zlib.

(** The loop ends, whatever the read size. *)
Lemma stream_decode_loop_ends (fuel : nat) :
  forall (f : infile) (c : Z) (d : decompressobj zl) (pending out : bytes),
    (remaining f < fuel)%nat ->
    exists o, stream_decode_loop zl fuel f c d pending out = Some o.
Proof.
  induction fuel as [|fuel IH]; intros f c d pending out Hlt; [lia|].
  cbn [stream_decode_loop].
  pose proof (read_shorter f c) as Hshort.
  destruct (read f c) as [chunk f']. cbn [fst snd] in Hshort.
  destruct (is_falsy chunk).
  - destruct (if is_empty pending then Ok (d, out)
              else reraise final_base64_decode_failed
                     (decoded <- a2b_base64 pending ;;
                      r <- decompress zl d decoded ;;
                      Ok (fst r, out ++ snd r))) as [[d' out']|e]; eauto.
  - specialize (Hshort eq_refl).
    destruct (as_bytes chunk) as [chunk'|e]; [|eauto].
    cbv zeta.
    destruct (length (pending ++ chunk') / 4 * 4 =? 0)%nat.
    + apply IH. lia.
    + destruct (reraise base64_decoding_failed_during_stream
                  (a2b_base64 (firstn (length (pending ++ chunk') / 4 * 4)
                                 (pending ++ chunk')))) as [decoded|e];
        [|eauto].
      destruct (decompress zl d decoded) as [[d' o]|e]; [|eauto].
      apply IH. lia.
Qed.

(** A text with a character that is not ASCII makes the loop end with an
    exception. *)
Lemma stream_decode_loop_non_ascii (fuel : nat) :
  forall (s : string) (c : Z) (d : decompressobj zl) (pending out : bytes),
    (String.length s < fuel)%nat ->
    c <> 0%Z ->
    all_chars is_ascii s = false ->
    exists w e,
      stream_decode_loop zl fuel (Str s) c d pending out =
      Some {| written := w; ended := Raise e |}.
Proof.
  induction fuel as [|fuel IH]; intros s c d pending out Hlt Hc Hs; [lia|].
  cbn [stream_decode_loop].
  pose proof (read_shorter (Str s) c) as Hshort.
  assert (Hchunk : exists t s',
             read (Str s) c = (Str t, Str s')
             /\ t <> EmptyString
             /\ (all_chars is_ascii t = true -> all_chars is_ascii s' = false)).
  { cbn [read]. destruct (Z.ltb_spec c 0).
    - exists s, EmptyString. split; [reflexivity|]. split.
      + intros ->. discriminate.
      + congruence.
    - exists (take (Z.to_nat c) s), (drop (Z.to_nat c) s).
      split; [reflexivity|]. split.
      + intros E. apply take_empty in E as [E| ->]; [lia|discriminate].
      + intros Ht. rewrite (all_chars_take_drop _ (Z.to_nat c) s), Ht in Hs.
        exact Hs. }
  destruct Hchunk as (t & s' & Hread & Ht & Hrest).
  rewrite Hread in *. cbn [fst snd remaining] in Hshort.
  assert (Hf : is_falsy (Str t) = false) by (destruct t; [now contradiction Ht|reflexivity]).
  rewrite Hf. specialize (Hshort Hf).
  cbn [as_bytes]. unfold encode_ascii.
  destruct (all_chars is_ascii t); [|eauto].
  specialize (Hrest eq_refl). cbv zeta.
  destruct (length (pending ++ list_byte_of_string t) / 4 * 4 =? 0)%nat.
  - apply IH; [lia|assumption|assumption].
  - match goal with
    | |- context [reraise ?m ?r] => destruct (reraise m r) as [decoded|e]
    end; [|eauto].
    destruct (decompress zl d decoded) as [[d' o]|e]; [|eauto].
    apply IH; [lia|assumption|assumption].
Qed.

(** A last group of one to three characters that holds a character of
    the alphabet makes the loop end with an exception. *)
Lemma stream_decode_loop_tail (fuel : nat) :
  forall (f : infile) (c : Z) (d : decompressobj zl) (pending out : bytes),
    c <> 0%Z ->
    ascii_file f = true ->
    remaining f = length (file_bytes f) ->
    (remaining f < fuel)%nat ->
    (length pending < 4)%nat ->
    existsb in_alphabet
      (skipn (length (pending ++ file_bytes f) / 4 * 4)
         (pending ++ file_bytes f)) = true ->
    exists w e,
      stream_decode_loop zl fuel f c d pending out =
      Some {| written := w; ended := Raise e |}.
Proof.
  induction fuel as [|fuel IH]; intros f c d pending out Hc Ha Hrem Hlt Hp Hex;
    [lia|].
  cbn [stream_decode_loop].
  destruct (read_spec f c Ha) as (chunk & Hchunk & Hfalsy & Hread & Ha' & Hrem').
  destruct (read f c) as [ch f']. cbn [fst snd] in *.
  rewrite Hfalsy, Hchunk.
  pose proof (read_bytes_shorter (file_bytes f) c) as Hshort.
  rewrite <- Hread in Hshort. cbn [fst snd] in Hshort.
  destruct (is_empty chunk) eqn:Echunk.
  - apply is_empty_true in Echunk. subst chunk.
    assert (Hnil : file_bytes f = []).
    { unfold read_bytes in Hread.
      destruct (Z.ltb_spec c 0); [congruence|].
      destruct (Z.to_nat c) eqn:En; [lia|].
      destruct (file_bytes f); [reflexivity|discriminate]. }
    rewrite Hnil, app_nil_r in Hex.
    replace (length pending / 4 * 4)%nat with 0%nat in Hex
      by (rewrite Nat.div_small by assumption; reflexivity).
    cbn [skipn] in Hex.
    destruct pending as [|p0 pending]; [discriminate|]. cbn [is_empty].
    rewrite a2b_base64_short by assumption. cbn [bind reraise]. eauto.
  - specialize (Hshort eq_refl).
    assert (Hsplit : file_bytes f = chunk ++ file_bytes f').
    { unfold read_bytes in Hread.
      destruct (c <? 0)%Z.
      - injection Hread as -> ->. now rewrite app_nil_r.
      - injection Hread as -> ->. now rewrite firstn_skipn. }
    rewrite Hsplit, app_assoc in Hex.
    cbv zeta. set (pending' := pending ++ chunk) in *.
    destruct (Nat.eqb_spec (length pending' / 4 * 4) 0) as [E0|E0].
    + apply IH; try assumption; try lia.
      assert (length pending' / 4 = 0)%nat by lia.
      apply Nat.div_small_iff in H; lia.
    + match goal with
      | |- context [reraise ?m ?r] => destruct (reraise m r) as [decoded|e]
      end; [|eauto].
      destruct (decompress zl d decoded) as [[d' o]|e]; [|eauto].
      set (k := (length pending' / 4)%nat) in *.
      assert (Hk : (k * 4 <= length pending')%nat)
        by (unfold k; rewrite Nat.mul_comm; apply Nat.Div0.mul_div_le).
      apply IH; try assumption; try lia.
      * rewrite length_skipn. unfold k.
        pose proof (Nat.div_mod_eq (length pending') 4).
        pose proof (Nat.mod_upper_bound (length pending') 4). lia.
      * assert (Hskip : skipn (k * 4) pending' ++ file_bytes f' =
                        skipn (k * 4) (pending' ++ file_bytes f')).
        { rewrite skipn_app.
          replace (k * 4 - length pending')%nat with 0%nat by lia.
          reflexivity. }
        rewrite Hskip, skipn_skipn, length_skipn.
        rewrite aligned_sub by (rewrite length_app; lia).
        replace (length (pending' ++ file_bytes f') / 4 * 4 - k * 4 + k * 4)%nat
          with (length (pending' ++ file_bytes f') / 4 * 4)%nat; [exact Hex|].
        assert (k <= length (pending' ++ file_bytes f') / 4)%nat; [|lia].
        unfold k. apply Nat.Div0.div_le_mono. rewrite length_app. lia.
Qed.

End Loop.

(** The reads of a loop return the whole file, in order. *)
Lemma reads_concat (fuel : nat) :
  forall (x : bytes) (c : Z),
    c <> 0%Z -> (length x < fuel)%nat -> concat (reads fuel x c) = x.
Proof.
  induction fuel as [|fuel IH]; intros x c Hc Hlt; [lia|].
  cbn [reads].
  pose proof (read_bytes_shorter x c) as Hshort.
  assert (Hsplit : x = fst (read_bytes x c) ++ snd (read_bytes x c)).
  { unfold read_bytes. destruct (c <? 0)%Z; cbn [fst snd].
    - now rewrite app_nil_r.
    - now rewrite firstn_skipn. }
  assert (Hend : is_empty (fst (read_bytes x c)) = true -> x = []).
  { unfold read_bytes. destruct (Z.ltb_spec c 0); cbn [fst].
    - apply is_empty_true.
    - destruct (Z.to_nat c) eqn:En; [lia|]. destruct x; [reflexivity|discriminate]. }
  destruct (read_bytes x c) as [chunk rest]. cbn [fst snd] in *.
  destruct (is_empty chunk) eqn:E.
  - now rewrite Hend.
  - cbn [concat]. rewrite IH by (assumption || (specialize (Hshort eq_refl); lia)).
    now symmetry.
Qed.

Section Compressed.
Variable zl : zlib.

Lemma compressed_stream_chunks (fuel : nat) :
  forall (x : bytes) (c : Z) (comp : compressobj zl),
    (length x < fuel)%nat ->
    compressed_stream zl fuel x c comp =
    compress_chunks zl comp (reads fuel x c).
Proof.
  induction fuel as [|fuel IH]; intros x c comp Hlt; [lia|].
  cbn [compressed_stream reads].
  pose proof (read_bytes_shorter x c) as Hshort.
  destruct (read_bytes x c) as [chunk rest]. cbn [fst snd] in *.
  destruct (is_empty chunk) eqn:E; [reflexivity|].
  cbn [compress_chunks].
  destruct (compress zl comp chunk) as [comp' compressed].
  rewrite IH by (specialize (Hshort eq_refl); lia). reflexivity.
Qed.

End Compressed.

End StreamFacts.

Module StoredGzipChunks.
Import StoredGzip StoredGzipFacts.

Lemma compress_chunks_member (chunks : list bytes) :
  forall (started : bool) (acc : bytes),
    compress_chunks zl (started, acc) chunks =
    (if started then [] else header 0 0 OS_CODE)
    ++ deflate (acc ++ concat chunks) ++ trailer (acc ++ concat chunks).
Proof.
  induction chunks as [|ch chunks IH]; intros started acc.
  - cbn [compress_chunks concat compress_flush zl fst snd].
    now rewrite app_nil_r.
  - cbn [compress_chunks concat compress zl fst snd].
    rewrite IH. cbn [app]. rewrite <- app_assoc.
    destruct started; reflexivity.
Qed.

Lemma compressobj_GzipFile_read (chunks : list bytes) :
  GzipFile_read zl (compress_chunks zl (compressobj_new zl) chunks) =
  Ok (concat chunks).
Proof.
  change (compressobj_new zl) with (false, @nil byte).
  rewrite compress_chunks_member. cbn [app].
  apply (gunzip_member 0 0 OS_CODE).
Qed.

Lemma decompressobj_compressobj (chunks pieces : list bytes) :
  concat pieces = compress_chunks zl (compressobj_new zl) chunks ->
  exists d out,
    feed zl (decompressobj_new zl) pieces = Ok (d, out) /\
    out ++ decompress_flush zl d = concat chunks.
Proof.
  intros H. exists (concat pieces), []. split.
  - apply (feed_buffers pieces []).
  - cbn [app decompress_flush zl]. rewrite H.
    change (gunzip (compress_chunks zl (compressobj_new zl) chunks))
      with (GzipFile_read zl (compress_chunks zl (compressobj_new zl) chunks)).
    now rewrite compressobj_GzipFile_read.
Qed.

End StoredGzipChunks.

(** ** The padding rule of the lenient decoder *)
Module PaddingFacts.
Import Base64 PaddingRule LenientFacts.

Lemma data_count_snoc (pre : bytes) (c : byte) :
  data_count (pre ++ [c]) =
  (data_count pre + if in_alphabet c then 1 else 0)%nat.
Proof.
  unfold data_count. rewrite filter_app, length_app. cbn [filter].
  now destruct (in_alphabet c).
Qed.

Lemma ends_with_pad_snoc (pre : bytes) (c : byte) :
  ends_with_pad (pre ++ [c]) =
  if significant c then Byte.eqb c BASE64_PAD else ends_with_pad pre.
Proof.
  unfold ends_with_pad. rewrite filter_app. cbn [filter].
  destruct (significant c).
  - now rewrite rev_app_distr.
  - now rewrite app_nil_r.
Qed.

Lemma cons_snoc (A : Type) (pre : list A) (c : A) (rest : list A) :
  pre ++ c :: rest = (pre ++ [c]) ++ rest.
Proof. now rewrite <- app_assoc. Qed.

(** A completing padding of [c :: rest] is [c] itself or lies in
    [rest]. *)
Lemma completing_cons (pre : bytes) (c : byte) (rest : bytes) :
  (exists a b, c :: rest = a ++ BASE64_PAD :: b
               /\ completing (pre ++ a) = true)
  <-> (c = BASE64_PAD /\ completing pre = true)
      \/ (exists a b, rest = a ++ BASE64_PAD :: b
                      /\ completing ((pre ++ [c]) ++ a) = true).
Proof.
  split.
  - intros (a & b & E & H). destruct a as [|x a].
    + cbn [app] in E. injection E as -> _. rewrite app_nil_r in H. now left.
    + cbn [app] in E. injection E as <- ->. right. exists a, b.
      split; [reflexivity|]. now rewrite <- cons_snoc.
  - intros [[-> H]|(a & b & -> & H)].
    + exists [], rest. split; [reflexivity|]. now rewrite app_nil_r.
    + exists (c :: a), b. split; [reflexivity|]. now rewrite cons_snoc.
Qed.

Lemma succ_mod_4 (n q : nat) :
  q = (n mod 4)%nat -> ((n + 1) mod 4 = (q + 1) mod 4)%nat.
Proof.
  intros ->. rewrite (Nat.Div0.add_mod n 1 4).
  reflexivity.
Qed.

(** The scan, from the state it has reached after [pre]. *)
Lemma a2b_scan_padding (rest : bytes) :
  forall (pre : bytes) (q : nat) (l : N) (p : nat),
    q = (data_count pre mod 4)%nat ->
    (q = 2%nat -> (p = 0%nat <-> ends_with_pad pre = false)) ->
    a2b_scan q l p rest = Raise binascii_Error
    <-> ~ (exists a b, rest = a ++ BASE64_PAD :: b
                       /\ completing (pre ++ a) = true)
        /\ (data_count (pre ++ rest) mod 4 <> 0)%nat.
Proof.
  induction rest as [|c rest IH]; intros pre q l p Hq Hp.
  - rewrite app_nil_r, <- Hq. cbn [a2b_scan].
    assert (Hno : ~ (exists a b : bytes,
                        [] = a ++ BASE64_PAD :: b
                        /\ completing (pre ++ a) = true)).
    { intros (a & b & E & _). now destruct a. }
    destruct q as [|q].
    + split; [discriminate|]. intros [_ H]. now contradiction H.
    + split; [|reflexivity]. intros _. split; [exact Hno|discriminate].
  - assert (Hq4 : (q < 4)%nat) by (subst q; apply Nat.mod_upper_bound; lia).
    rewrite completing_cons, (cons_snoc pre c rest).
    cbn [a2b_scan].
    destruct (Byte.eqb c BASE64_PAD) eqn:Ec.
    + (* a padding character *)
      apply Byte.byte_dec_bl in Ec. subst c.
      assert (Hq' : q = (data_count (pre ++ [BASE64_PAD]) mod 4)%nat).
      { rewrite data_count_snoc, pad_not_in_alphabet. now rewrite Nat.add_0_r. }
      assert (Hend : ends_with_pad (pre ++ [BASE64_PAD]) = true).
      { rewrite ends_with_pad_snoc. reflexivity. }
      assert (Hlow : (q < 2)%nat ->
                     a2b_scan q l p rest = Raise binascii_Error <->
                     ~ (BASE64_PAD = BASE64_PAD /\ completing pre = true
                        \/ (exists a b : bytes,
                               rest = a ++ BASE64_PAD :: b
                               /\ completing ((pre ++ [BASE64_PAD]) ++ a)
                                  = true))
                     /\ (data_count ((pre ++ [BASE64_PAD]) ++ rest) mod 4
                         <> 0)%nat).
      { intros Hlt.
        assert (Hc : completing pre = false).
        { unfold completing. rewrite <- Hq.
          assert (q = 0 \/ q = 1)%nat as [->| ->] by lia; reflexivity. }
        rewrite (@IH (pre ++ [BASE64_PAD]) q l p Hq').
        - rewrite Hc. intuition congruence.
        - intros ->. lia. }
      destruct q as [|[|[|[|q]]]]; try lia.
      * cbn [Nat.leb]. apply Hlow. lia.
      * cbn [Nat.leb]. apply Hlow. lia.
      * cbn [Nat.leb Nat.add]. destruct p as [|p]; cbn [Nat.leb].
        -- assert (Hc : completing pre = false).
           { unfold completing. rewrite <- Hq.
             cbn [Nat.eqb orb andb]. now apply Hp. }
           rewrite (@IH (pre ++ [BASE64_PAD]) 2%nat l 1%nat Hq').
           ++ rewrite Hc. intuition congruence.
           ++ intros _. rewrite Hend. split; discriminate.
        -- split; [discriminate|]. intros [Hno _]. exfalso. apply Hno. left.
           split; [reflexivity|]. unfold completing. rewrite <- Hq.
           cbn [Nat.eqb orb andb].
           destruct (ends_with_pad pre) eqn:E; [reflexivity|].
           assert (S p = 0%nat) by (now apply Hp). discriminate.
      * cbn [Nat.leb Nat.add].
        split; [discriminate|]. intros [Hno _]. exfalso. apply Hno. left.
        split; [reflexivity|]. unfold completing. now rewrite <- Hq.
    + destruct (table_a2b_base64 c) as [v|] eqn:Et.
      * (* a data character *)
        assert (Ha : in_alphabet c = true) by (unfold in_alphabet; now rewrite Et).
        assert (Hnp : c <> BASE64_PAD).
        { intros ->. now rewrite (Byte.byte_dec_lb eq_refl) in Ec. }
        assert (Hcount : (data_count (pre ++ [c]) mod 4 = (q + 1) mod 4)%nat).
        { rewrite data_count_snoc, Ha. now apply succ_mod_4. }
        assert (Hend : ends_with_pad (pre ++ [c]) = false).
        { rewrite ends_with_pad_snoc. unfold significant. rewrite Ha, Ec.
          reflexivity. }
        assert (Hnext : forall q' l',
                   q' = ((q + 1) mod 4)%nat ->
                   a2b_scan q' l' 0 rest = Raise binascii_Error
                   <-> ~ (c = BASE64_PAD /\ completing pre = true
                          \/ (exists a b : bytes,
                                 rest = a ++ BASE64_PAD :: b
                                 /\ completing ((pre ++ [c]) ++ a) = true))
                       /\ (data_count ((pre ++ [c]) ++ rest) mod 4 <> 0)%nat).
        { intros q' l' Hq'.
          rewrite (IH (pre ++ [c]) q' l' 0%nat).
          - intuition congruence.
          - now rewrite Hcount.
          - intros _. rewrite Hend. tauto. }
        destruct q as [|[|[|[|q]]]]; try lia.
        -- now apply Hnext.
        -- rewrite bind_raise. now apply Hnext.
        -- rewrite bind_raise. now apply Hnext.
        -- rewrite bind_raise. now apply Hnext.
      * (* a discarded character *)
        assert (Ha : in_alphabet c = false) by (unfold in_alphabet; now rewrite Et).
        assert (Hnp : c <> BASE64_PAD).
        { intros ->. now rewrite (Byte.byte_dec_lb eq_refl) in Ec. }
        rewrite (IH (pre ++ [c]) q l p).
        -- intuition congruence.
        -- rewrite data_count_snoc, Ha. now rewrite Nat.add_0_r.
        -- rewrite ends_with_pad_snoc. unfold significant. rewrite Ha, Ec.
           exact Hp.
Qed.

(** The lenient decoder fails exactly when no padding completes the data
    and the data characters do not fill whole quads. *)
Lemma a2b_base64_fails (data : bytes) :
  a2b_base64 data = Raise binascii_Error
  <-> ~ padded data /\ (data_count data mod 4 <> 0)%nat.
Proof.
  unfold a2b_base64, padded.
  rewrite (@a2b_scan_padding data [] 0%nat 0%N 0%nat eq_refl);
    [reflexivity|discriminate].
Qed.

End PaddingFacts.

(** ** Type inference: the code and the rule *)
Module InferenceFacts.
Import PyStr PyNum Editor DecimalText.

Lemma all_chars_app (p : ascii -> bool) (a b : string) :
  all_chars p (a ++ b) = all_chars p a && all_chars p b.
Proof.
  induction a as [|c a IH]; [reflexivity|].
  cbn [String.append all_chars]. now rewrite IH, andb_assoc.
Qed.

Lemma is_decimal_isdigit (c : ascii) :
  is_decimal c = true -> isdigit_char c = true.
Proof. unfold is_decimal, isdigit_char. intros ->. reflexivity. Qed.

Lemma all_decimal_isdigit (s : string) :
  all_chars is_decimal s = true -> all_chars isdigit_char s = true.
Proof.
  induction s as [|c s IH]; [reflexivity|].
  cbn [all_chars]. intros H. apply andb_prop in H as [Hc Hs].
  now rewrite (is_decimal_isdigit _ Hc), IH.
Qed.

(** A character the decimal reader accepts is a decimal digit. *)
Lemma uint_of_char_decimal (c : ascii) (d : option Decimal.uint) :
  uint_of_char c d <> None -> is_decimal c = true.
Proof.
  destruct d as [d|]; [|now cbn].
  destruct c as [[|] [|] [|] [|] [|] [|] [|] [|]]; cbn; congruence.
Qed.

Lemma decimal_uint_of_char (c : ascii) (d : Decimal.uint) :
  is_decimal c = true -> uint_of_char c (Some d) <> None.
Proof.
  destruct c as [[|] [|] [|] [|] [|] [|] [|] [|]]; cbn; congruence.
Qed.

(** The decimal reader accepts exactly the texts of decimal digits. *)
Lemma digits_value_decimal (s : string) :
  digits_value s <> None <-> all_chars is_decimal s = true.
Proof.
  unfold digits_value. induction s as [|c s IH]; cbn [NilEmpty.uint_of_string all_chars].
  - cbn. split; congruence.
  - split.
    + intros H.
      assert (Hc : uint_of_char c (NilEmpty.uint_of_string s) <> None)
        by (intros E; apply H; now rewrite E).
      rewrite (uint_of_char_decimal _ _ Hc). apply IH.
      destruct (NilEmpty.uint_of_string s); [cbn; congruence|].
      now destruct c as [[|] [|] [|] [|] [|] [|] [|] [|]].
    + intros H. apply andb_prop in H as [Hc Hs].
      apply IH in Hs.
      destruct (NilEmpty.uint_of_string s) as [d|]; [|now cbn in Hs].
      pose proof (decimal_uint_of_char _ d Hc).
      destruct (uint_of_char c (Some d)); cbn; congruence.
Qed.

Lemma digits_value_number (s : string) :
  all_chars is_decimal s = true -> digits_value s = Some (number s).
Proof.
  intros H. apply digits_value_decimal in H. unfold number.
  now destruct (digits_value s).
Qed.

Lemma digits_value_none (s : string) :
  all_chars is_decimal s = false -> digits_value s = None.
Proof.
  intros H. destruct (digits_value s) eqn:E; [|reflexivity].
  assert (digits_value s <> None) by congruence.
  apply digits_value_decimal in H0. congruence.
Qed.

(** *** The decimal point *)

Lemma point_not_decimal : is_decimal "."%char = false.
Proof. reflexivity. Qed.

Lemma minus_not_decimal : is_decimal "-"%char = false.
Proof. reflexivity. Qed.

Lemma decimal_not_point (c : ascii) :
  is_decimal c = true -> Ascii.eqb c "."%char = false.
Proof.
  intros H. destruct (Ascii.eqb_spec c "."%char) as [->|]; [discriminate|reflexivity].
Qed.

Lemma decimal_not_minus (c : ascii) :
  is_decimal c = true -> Ascii.eqb c "-"%char = false.
Proof.
  intros H. destruct (Ascii.eqb_spec c "-"%char) as [->|]; [discriminate|reflexivity].
Qed.

Lemma contains_decimal (c : ascii) (s : string) :
  is_decimal c = false -> contains c s = true ->
  all_chars is_decimal s = false.
Proof.
  intros Hc. induction s as [|a s IH]; [discriminate|].
  cbn [contains all_chars]. intros H. apply orb_prop in H as [H|H].
  - apply Ascii.eqb_eq in H. subst a. now rewrite Hc.
  - rewrite (IH H). apply andb_false_r.
Qed.

Lemma remove_decimal (c : ascii) (s : string) :
  is_decimal c = false -> all_chars is_decimal s = true -> remove c s = s.
Proof.
  intros Hc. induction s as [|a s IH]; [reflexivity|].
  cbn [all_chars remove]. intros H. apply andb_prop in H as [Ha Hs].
  destruct (Ascii.eqb_spec a c) as [->|]; [congruence|].
  now rewrite IH.
Qed.

(** The text around the first decimal point. *)
Lemma split_point_spec (s : string) :
  match split_point s with
  | (i, Some f) =>
      contains "."%char s = true /\ s = (i ++ String "."%char f)%string /\
      strip_point s = (i ++ f)%string /\ contains "."%char i = false
  | (i, None) => contains "."%char s = false /\ i = s
  end.
Proof.
  induction s as [|c s IH]; [now cbn|].
  cbn [split_point contains strip_point].
  destruct (Ascii.eqb_spec c "."%char) as [->|Hc].
  - cbn. auto.
  - destruct (split_point s) as [i [f|]].
    + destruct IH as (H1 & H2 & H3 & H4).
      apply Ascii.eqb_neq in Hc.
      cbn [String.append contains]. rewrite H1, H3, H4, Hc, <- H2.
      cbn [orb]. auto.
    + destruct IH as (H1 & H2). rewrite H1. subst i. auto.
Qed.

Lemma remove_app (c : ascii) (a b : string) :
  remove c (a ++ b) = (remove c a ++ remove c b)%string.
Proof.
  induction a as [|x a IH]; [reflexivity|].
  cbn [String.append remove]. destruct (Ascii.eqb x c); [assumption|].
  cbn. now rewrite IH.
Qed.

Lemma app_empty (a b : string) :
  (a ++ b)%string = EmptyString -> a = EmptyString /\ b = EmptyString.
Proof. destruct a; cbn; [auto|discriminate]. Qed.

Lemma all_digits_spec (s : string) :
  all_digits s = true <-> s <> EmptyString /\ all_chars is_decimal s = true.
Proof.
  destruct s; cbn [all_digits]; split.
  - discriminate.
  - now intros [H _].
  - intros H. split; [discriminate|assumption].
  - now intros [_ H].
Qed.

Lemma isdigit_spec (s : string) :
  isdigit s = true <-> s <> EmptyString /\ all_chars isdigit_char s = true.
Proof.
  destruct s; cbn [isdigit]; split.
  - discriminate.
  - now intros [H _].
  - intros H. split; [discriminate|assumption].
  - now intros [_ H].
Qed.

Lemma all_digits_isdigit (s : string) : all_digits s = true -> isdigit s = true.
Proof.
  rewrite all_digits_spec, isdigit_spec. intros [H1 H2].
  split; [assumption|now apply all_decimal_isdigit].
Qed.

(** *** [float] accepts exactly the texts of rule (1) *)

Lemma strip_minus_spec (s : string) :
  s = (if has_minus s then String "-"%char (strip_minus s) else strip_minus s).
Proof.
  destruct s as [|c s]; [reflexivity|].
  unfold has_minus, strip_minus.
  destruct c as [[|] [|] [|] [|] [|] [|] [|] [|]]; reflexivity.
Qed.

Lemma py_float_unfold (s : string) :
  py_float s =
  let (int_part, frac) := split_point (strip_minus s) in
  let frac_part := match frac with Some f => f | None => EmptyString end in
  match (int_part ++ frac_part)%string with
  | EmptyString => Raise (ValueError invalid_literal)
  | all_digits =>
      match digits_value all_digits with
      | Some m =>
          Ok (float_of_decimal (has_minus s) m
                (- Z.of_nat (String.length frac_part)))
      | None => Raise (ValueError invalid_literal)
      end
  end.
Proof.
  destruct s as [|c s]; [reflexivity|].
  unfold py_float, has_minus, strip_minus.
  destruct c as [[|] [|] [|] [|] [|] [|] [|] [|]]; reflexivity.
Qed.

Lemma contains_strip_minus (s : string) :
  contains "."%char (strip_minus s) = contains "."%char s.
Proof.
  rewrite (strip_minus_spec s) at 2. now destruct (has_minus s).
Qed.

Lemma py_float_rule (s : string) :
  contains "."%char s = true ->
  py_float s =
  if all_digits (strip_point (strip_minus s)) then Ok (float_value s)
  else Raise (ValueError invalid_literal).
Proof.
  intros Hp. rewrite py_float_unfold. unfold float_value.
  rewrite <- contains_strip_minus in Hp.
  pose proof (split_point_spec (strip_minus s)) as Hs.
  destruct (split_point (strip_minus s)) as [i [f|]].
  - destruct Hs as (_ & _ & -> & _). cbv zeta.
    destruct (i ++ f)%string as [|c r] eqn:E; [reflexivity|].
    cbn [all_digits].
    destruct (all_chars is_decimal (String c r)) eqn:Ed.
    + now rewrite (digits_value_number _ Ed).
    + now rewrite (digits_value_none _ Ed).
  - destruct Hs as [Hs _]. congruence.
Qed.

(** The guard of the first branch covers rule (1). *)
Lemma rule_1_guard (s : string) :
  all_digits (strip_point (strip_minus s)) = true ->
  contains "."%char s = true ->
  isdigit (remove "-"%char (remove "."%char s)) = true.
Proof.
  intros Hd Hp. rewrite <- contains_strip_minus in Hp.
  pose proof (split_point_spec (strip_minus s)) as Hs.
  destruct (split_point (strip_minus s)) as [i [f|]];
    [|destruct Hs; congruence].
  destruct Hs as (_ & Hbody & Hstrip & _).
  rewrite Hstrip in Hd. apply all_digits_spec in Hd as [Hne Hall].
  rewrite all_chars_app in Hall. apply andb_prop in Hall as [Hi Hf].
  assert (Hr : remove "-"%char (remove "."%char (strip_minus s))
               = (i ++ f)%string).
  { rewrite Hbody, !remove_app. cbn [remove]. rewrite Ascii.eqb_refl.
    now rewrite !(@remove_decimal "."%char), !(@remove_decimal "-"%char). }
  assert (Hs' : remove "-"%char (remove "."%char s) = (i ++ f)%string).
  { rewrite (strip_minus_spec s). destruct (has_minus s); [|assumption].
    cbn [remove]. change (Ascii.eqb "-" ".")%char with false.
    cbn [remove]. now rewrite Ascii.eqb_refl. }
  rewrite Hs'. apply all_digits_isdigit, all_digits_spec. split; [assumption|].
  rewrite all_chars_app. now rewrite Hi, Hf.
Qed.

(** *** [int] accepts exactly the texts of rule (2) *)

Lemma py_int_rule (s : string) :
  py_int s =
  if all_digits s || (has_minus s && all_digits (strip_minus s))
  then if within_limit s then Ok (integer_value s)
       else Raise (ValueError exceeds_digit_limit)
  else Raise (ValueError invalid_literal).
Proof.
  unfold py_int, integer_value, within_limit, NilZero.int_of_string.
  destruct s as [|c s]; [reflexivity|].
  destruct (Ascii.eqb_spec c "-"%char) as [->|Hc].
  - change (has_minus (String "-" s)) with true.
    change (strip_minus (String "-" s)) with s.
    change (all_digits (String "-" s)) with false.
    cbn [orb andb]. unfold NilZero.uint_of_string.
    destruct s as [|c r]; [reflexivity|]. cbn [all_digits].
    destruct (all_chars is_decimal (String c r)) eqn:Ed.
    + pose proof (digits_value_number _ Ed) as Hn. unfold digits_value in Hn.
      destruct (NilEmpty.uint_of_string (String c r)); [|discriminate].
      cbn in Hn. injection Hn as Hn. cbn [option_map Z.of_int].
      rewrite Z.ltb_antisym.
      destruct (Z.of_nat (String.length (String c r)) <=? int_max_str_digits)%Z;
        [|reflexivity].
      cbn [negb]. unfold Z.of_uint. now rewrite <- Hn.
    + pose proof (digits_value_none _ Ed) as Hn. unfold digits_value in Hn.
      now destruct (NilEmpty.uint_of_string (String c r)).
  - assert (Hm : has_minus (String c s) = false).
    { unfold has_minus.
      destruct c as [[|] [|] [|] [|] [|] [|] [|] [|]]; congruence. }
    assert (Hs : strip_minus (String c s) = String c s).
    { unfold strip_minus.
      destruct c as [[|] [|] [|] [|] [|] [|] [|] [|]]; congruence. }
    assert (Hd : match String c s with
                 | String "-"%char rest => rest
                 | _ => String c s
                 end = String c s).
    { destruct c as [[|] [|] [|] [|] [|] [|] [|] [|]]; congruence. }
    rewrite Hm, Hs, Hd. cbn [andb]. rewrite orb_false_r.
    unfold NilZero.uint_of_string. cbn [all_digits].
    destruct (all_chars is_decimal (String c s)) eqn:Ed.
    + pose proof (digits_value_number _ Ed) as Hn. unfold digits_value in Hn.
      destruct (NilEmpty.uint_of_string (String c s)); [|discriminate].
      cbn in Hn. injection Hn as Hn. cbn [option_map Z.of_int].
      rewrite Z.ltb_antisym.
      destruct (Z.of_nat (String.length (String c s)) <=? int_max_str_digits)%Z;
        [|reflexivity].
      cbn [negb]. unfold Z.of_uint. now rewrite <- Hn.
    + pose proof (digits_value_none _ Ed) as Hn. unfold digits_value in Hn.
      now destruct (NilEmpty.uint_of_string (String c s)).
Qed.

Lemma has_minus_startswith (s : string) :
  startswith "-" s = has_minus s.
Proof.
  destruct s as [|c s]; [reflexivity|].
  unfold has_minus. cbn [startswith].
  destruct c as [[|] [|] [|] [|] [|] [|] [|] [|]]; reflexivity.
Qed.

Lemma drop_1_strip_minus (s : string) :
  has_minus s = true -> drop 1 s = strip_minus s.
Proof.
  destruct s as [|c s]; [discriminate|].
  unfold has_minus, strip_minus.
  destruct c as [[|] [|] [|] [|] [|] [|] [|] [|]]; try discriminate.
  reflexivity.
Qed.

(** The code and the rule agree on every text. *)
Lemma convert_infer (s : string) : convert s = infer s.
Proof.
  unfold convert, infer.
  destruct (contains "."%char s) eqn:Hp; cbn [andb].
  - (* a decimal point *)
    rewrite (py_float_rule _ Hp).
    assert (Hint : all_digits s || has_minus s && all_digits (strip_minus s)
                   = false).
    { apply orb_false_iff. split.
      - destruct (all_digits s) eqn:E; [|reflexivity].
        apply all_digits_spec in E as [_ E].
        now rewrite (contains_decimal _ _ point_not_decimal Hp) in E.
      - destruct (has_minus s); [|reflexivity]. cbn [andb].
        destruct (all_digits (strip_minus s)) eqn:E; [|reflexivity].
        apply all_digits_spec in E as [_ E].
        rewrite <- contains_strip_minus in Hp.
        now rewrite (contains_decimal _ _ point_not_decimal Hp) in E. }
    destruct (all_digits (strip_point (strip_minus s))) eqn:Hd.
    + now rewrite (rule_1_guard _ Hd Hp).
    + rewrite Hint. cbn [andb].
      destruct (isdigit (remove "-" (remove "." s))); [reflexivity|].
      rewrite py_int_rule, Hint.
      now destruct (isdigit s || startswith "-" s && isdigit (drop 1 s)).
  - (* no decimal point *)
    rewrite py_int_rule, has_minus_startswith.
    destruct (all_digits s || has_minus s && all_digits (strip_minus s)) eqn:Hr.
    + assert (Hg : isdigit s || has_minus s && isdigit (drop 1 s) = true).
      { apply orb_prop in Hr as [Hr|Hr].
        - now rewrite (all_digits_isdigit _ Hr).
        - apply andb_prop in Hr as [Hm Hr].
          rewrite Hm, (drop_1_strip_minus _ Hm), (all_digits_isdigit _ Hr).
          apply orb_true_r. }
      rewrite Hg. cbn [andb]. now destruct (within_limit s).
    + now destruct (isdigit s || has_minus s && isdigit (drop 1 s)).
Qed.

End InferenceFacts.

(** ** Type inference on Unicode text: the code and the rule *)
Module UnicodeFacts.
Import Unicode InferenceRule InferenceFacts.
#[local] Unset Implicit Arguments.

(** *** Decimal texts of code points below 256 *)

Lemma has_minus_cons (a : ascii) (t : string) :
  DecimalText.has_minus (String a t) = Ascii.eqb a "-"%char.
Proof.
  unfold DecimalText.has_minus.
  destruct a as [[|] [|] [|] [|] [|] [|] [|] [|]]; reflexivity.
Qed.

Lemma strip_minus_cons (a : ascii) (t : string) :
  DecimalText.strip_minus (String a t) =
  if Ascii.eqb a "-"%char then t else String a t.
Proof.
  unfold DecimalText.strip_minus.
  destruct a as [[|] [|] [|] [|] [|] [|] [|] [|]]; reflexivity.
Qed.

Lemma usize_uint_of_string (s : string) (d : Decimal.uint) :
  NilEmpty.uint_of_string s = Some d ->
  DecimalPos.Unsigned.usize d = N.of_nat (String.length s).
Proof.
  revert d. induction s as [|c s IH]; intros d.
  - intros [= <-]. reflexivity.
  - cbn [NilEmpty.uint_of_string String.length].
    destruct (NilEmpty.uint_of_string s) as [d0|]; [|discriminate].
    intros H. apply uint_of_char_spec in H.
    rewrite Nat2N.inj_succ, <- (IH d0 eq_refl).
    intuition subst; reflexivity.
Qed.

(** The value of a decimal text, by position. *)
Lemma number_cons (c : ascii) (s : string) :
  DecimalText.is_decimal c = true ->
  all_chars DecimalText.is_decimal s = true ->
  DecimalText.number (String c s) =
  ((N_of_ascii c - 48) * 10 ^ N.of_nat (String.length s)
   + DecimalText.number s)%N.
Proof.
  intros Hc Hs. unfold DecimalText.number, PyNum.digits_value.
  cbn [NilEmpty.uint_of_string].
  pose proof (proj2 (digits_value_decimal s) Hs) as Hd.
  unfold PyNum.digits_value in Hd.
  destruct (NilEmpty.uint_of_string s) as [d|] eqn:E; [|now contradiction Hd].
  rewrite <- (usize_uint_of_string _ _ E). clear Hd E Hs.
  cbn [option_map].
  destruct c as [[|] [|] [|] [|] [|] [|] [|] [|]];
    try discriminate Hc;
    cbn [uint_of_char option_map N_of_ascii N_of_digits];
    unfold N.of_uint; rewrite !DecimalPos.Unsigned.of_uint_alt;
    unfold Decimal.rev at 1; cbn [Decimal.revapp];
    rewrite DecimalPos.Unsigned.of_lu_revapp;
    cbn [DecimalPos.Unsigned.of_lu]; lia.
Qed.

(** A text that [int] or [float] accepts holds decimal digits, decimal
    points and minus signs only. *)
Definition plain_char (a : ascii) : bool :=
  DecimalText.is_decimal a || Ascii.eqb a "."%char || Ascii.eqb a "-"%char.

Lemma decimal_plain (s : string) :
  all_chars DecimalText.is_decimal s = true -> all_chars plain_char s = true.
Proof.
  induction s as [|a s IH]; [reflexivity|].
  cbn [all_chars]. intros H. apply andb_prop in H as [Ha Hs].
  rewrite (IH Hs). unfold plain_char. now rewrite Ha.
Qed.

Lemma strip_minus_plain (t : string) :
  all_chars plain_char (DecimalText.strip_minus t) = true ->
  all_chars plain_char t = true.
Proof.
  destruct t as [|a t]; [reflexivity|].
  rewrite strip_minus_cons. destruct (Ascii.eqb a "-"%char) eqn:E; [|auto].
  intros H. cbn [all_chars]. unfold plain_char at 1.
  rewrite E, H. now rewrite orb_true_r.
Qed.

Lemma py_int_plain (t : string) (z : Z) :
  PyNum.py_int t = Ok z -> all_chars plain_char t = true.
Proof.
  rewrite py_int_rule.
  destruct (DecimalText.all_digits t) eqn:E1; cbn [orb].
  - intros _. apply all_digits_spec in E1 as [_ E1]. now apply decimal_plain.
  - destruct (DecimalText.has_minus t
              && DecimalText.all_digits (DecimalText.strip_minus t)) eqn:E2;
      [|discriminate].
    intros _. apply andb_prop in E2 as [_ E2].
    apply all_digits_spec in E2 as [_ E2].
    now apply strip_minus_plain, decimal_plain.
Qed.

Lemma py_float_plain (t : string) (f : PyNum.float) :
  PyNum.py_float t = Ok f -> all_chars plain_char t = true.
Proof.
  rewrite py_float_unfold. intros H. apply strip_minus_plain.
  pose proof (split_point_spec (DecimalText.strip_minus t)) as Hs.
  destruct (PyNum.split_point (DecimalText.strip_minus t)) as [i fr].
  cbv zeta in H.
  set (fp := match fr with Some f0 => f0 | None => EmptyString end) in *.
  destruct (i ++ fp)%string as [|a r] eqn:E; [discriminate|].
  destruct (PyNum.digits_value (String a r)) as [m|] eqn:Ed; [|discriminate].
  assert (Hd : all_chars DecimalText.is_decimal (i ++ fp) = true).
  { rewrite E. apply digits_value_decimal. congruence. }
  rewrite all_chars_app in Hd. apply andb_prop in Hd as [Hi Hf].
  destruct fr as [f0|].
  - destruct Hs as (_ & -> & _ & _). rewrite all_chars_app.
    rewrite (decimal_plain _ Hi). cbn [all_chars andb].
    unfold fp in Hf. now rewrite (decimal_plain _ Hf).
  - destruct Hs as [_ <-]. now apply decimal_plain.
Qed.

(** *** The characters of a text that is converted *)
Section Laws.

Variable db : database.

(** The facts of the Unicode character database the conversion relies
    on: below 128 the digits are the ten ASCII digits, with their
    values; a decimal digit is a digit, with a value below ten; and a
    digit is not a space. *)
Hypothesis ascii_digits :
  forall c : N,
    (c < 128)%N ->
    todecimal db c
    = (if (48 <=? c)%N && (c <=? 57)%N then Some (c - 48)%N else None)
    /\ todigit db c
       = (if (48 <=? c)%N && (c <=? 57)%N then Some (c - 48)%N else None).
Hypothesis decimal_digit :
  forall c d : N, todecimal db c = Some d -> todigit db c = Some d.
Hypothesis decimal_range :
  forall c d : N, todecimal db c = Some d -> (d < 10)%N.
Hypothesis digit_not_space :
  forall c d : N, todigit db c = Some d -> isspace db c = false.

(** A decimal digit, a decimal point or a minus sign. *)
Definition plain (c : N) : bool :=
  is_digit db c || (c =? POINT)%N || (c =? MINUS)%N.

(** The ASCII character [transform] writes for a plain character. *)
Definition flat (c : N) : ascii :=
  if (c <? 127)%N then ascii_of_N c else ascii_of_N (48 + digit_value db c).

Lemma is_decimal_of_N (n : N) :
  (n < 256)%N ->
  DecimalText.is_decimal (ascii_of_N n) = ((48 <=? n)%N && (n <=? 57)%N).
Proof.
  intros H. unfold DecimalText.is_decimal. now rewrite N_ascii_embedding.
Qed.

Lemma eqb_of_N (n m : N) :
  (n < 256)%N -> (m < 256)%N ->
  Ascii.eqb (ascii_of_N n) (ascii_of_N m) = (n =? m)%N.
Proof.
  intros Hn Hm. destruct (N.eqb_spec n m) as [->|Hne].
  - apply Ascii.eqb_refl.
  - apply Ascii.eqb_neq. intros E. apply Hne.
    rewrite <- (N_ascii_embedding n), <- (N_ascii_embedding m) by assumption.
    now rewrite E.
Qed.

Lemma is_digit_ascii (c : N) :
  (c < 127)%N -> is_digit db c = ((48 <=? c)%N && (c <=? 57)%N).
Proof.
  intros H. assert (H' : (c < 128)%N) by lia.
  unfold is_digit. destruct (ascii_digits _ H') as [-> _].
  now destruct ((48 <=? c)%N && (c <=? 57)%N).
Qed.

Lemma isdigit_char_ascii (c : N) :
  (c < 127)%N -> isdigit_char db c = ((48 <=? c)%N && (c <=? 57)%N).
Proof.
  intros H. assert (H' : (c < 128)%N) by lia.
  unfold isdigit_char. destruct (ascii_digits _ H') as [_ ->].
  now destruct ((48 <=? c)%N && (c <=? 57)%N).
Qed.

Lemma is_digit_isdigit_char (c : N) :
  is_digit db c = true -> isdigit_char db c = true.
Proof.
  unfold is_digit, isdigit_char.
  destruct (todecimal db c) as [d|] eqn:E; [|discriminate].
  now rewrite (decimal_digit _ _ E).
Qed.

Lemma point_not_digit : isdigit_char db POINT = false.
Proof. now rewrite isdigit_char_ascii. Qed.

Lemma minus_not_digit : isdigit_char db MINUS = false.
Proof. now rewrite isdigit_char_ascii. Qed.

(** What [transform] does at a plain character, and at another one. *)
Lemma transform_plain (c : N) (v : str) :
  plain c = true ->
  transform_loop db (c :: v) = String (flat c) (transform_loop db v).
Proof.
  unfold plain, flat. intros Hp. cbn [transform_loop].
  destruct (N.ltb_spec c 127) as [Hlt|Hge]; [reflexivity|].
  assert (Hd : is_digit db c = true).
  { apply orb_prop in Hp as [Hp|Hp]; [apply orb_prop in Hp as [Hp|Hp]|].
    - assumption.
    - apply N.eqb_eq in Hp. unfold POINT in Hp. lia.
    - apply N.eqb_eq in Hp. unfold MINUS in Hp. lia. }
  unfold is_digit in Hd. unfold digit_value.
  destruct (todecimal db c) as [d|] eqn:E; [|discriminate].
  now rewrite (digit_not_space _ _ (decimal_digit _ _ E)).
Qed.

Lemma flat_decimal (c : N) :
  plain c = true -> DecimalText.is_decimal (flat c) = is_digit db c.
Proof.
  unfold flat. intros Hp.
  destruct (N.ltb_spec c 127) as [Hlt|Hge].
  - rewrite is_decimal_of_N by lia. now rewrite is_digit_ascii.
  - assert (Hd : is_digit db c = true).
    { unfold plain in Hp.
      apply orb_prop in Hp as [Hp|Hp]; [apply orb_prop in Hp as [Hp|Hp]|].
      - assumption.
      - apply N.eqb_eq in Hp. unfold POINT in Hp. lia.
      - apply N.eqb_eq in Hp. unfold MINUS in Hp. lia. }
    rewrite Hd. unfold is_digit in Hd. unfold digit_value.
    destruct (todecimal db c) as [d|] eqn:E; [|discriminate].
    pose proof (decimal_range _ _ E).
    rewrite is_decimal_of_N by lia.
    apply andb_true_intro. split; [apply N.leb_le|apply N.leb_le]; lia.
Qed.

Lemma flat_eqb (c k : N) :
  plain c = true -> (k < 48)%N ->
  Ascii.eqb (flat c) (ascii_of_N k) = (c =? k)%N.
Proof.
  unfold flat. intros Hp Hk.
  destruct (N.ltb_spec c 127) as [Hlt|Hge].
  - apply eqb_of_N; lia.
  - unfold digit_value.
    destruct (todecimal db c) as [d|] eqn:E.
    + pose proof (decimal_range _ _ E). rewrite eqb_of_N by lia.
      destruct (N.eqb_spec c k); destruct (N.eqb_spec (48 + d) k); lia || reflexivity.
    + rewrite eqb_of_N by lia.
      destruct (N.eqb_spec c k); destruct (N.eqb_spec (48 + 0) k); lia || reflexivity.
Qed.

Lemma flat_point (c : N) :
  plain c = true -> Ascii.eqb (flat c) "."%char = (c =? POINT)%N.
Proof. intros H. now apply (flat_eqb c 46). Qed.

Lemma flat_minus (c : N) :
  plain c = true -> Ascii.eqb (flat c) "-"%char = (c =? MINUS)%N.
Proof. intros H. now apply (flat_eqb c 45). Qed.

Lemma flat_value (c : N) :
  is_digit db c = true -> (N_of_ascii (flat c) - 48 = digit_value db c)%N.
Proof.
  unfold flat, is_digit, digit_value. intros Hd.
  destruct (todecimal db c) as [d|] eqn:E; [|discriminate].
  pose proof (decimal_range _ _ E).
  destruct (N.ltb_spec c 127) as [Hlt|Hge].
  - rewrite N_ascii_embedding by lia.
    assert (Hlt' : (c < 128)%N) by lia.
    destruct (ascii_digits _ Hlt') as [E' _]. rewrite E in E'.
    destruct ((48 <=? c)%N && (c <=? 57)%N); congruence.
  - rewrite N_ascii_embedding by lia. lia.
Qed.

Lemma plain_is_plain_char (c : N) :
  plain c = true -> plain_char (flat c) = true.
Proof.
  intros H. unfold plain_char.
  rewrite (flat_decimal _ H), (flat_point _ H), (flat_minus _ H). exact H.
Qed.

(** At a character that is not plain, the transformed text holds one
    that [int] and [float] do not accept. *)
Lemma transform_not_plain (c : N) (v : str) :
  plain c = false ->
  all_chars plain_char (transform_loop db (c :: v)) = false.
Proof.
  unfold plain. intros Hp.
  apply orb_false_iff in Hp as [Hp Hm]. apply orb_false_iff in Hp as [Hd Hp].
  cbn [transform_loop].
  destruct (N.ltb_spec c 127) as [Hlt|Hge].
  - cbn [all_chars]. unfold plain_char.
    rewrite is_decimal_of_N by lia. rewrite <- is_digit_ascii by assumption.
    rewrite Hd.
    change "."%char with (ascii_of_N 46). change "-"%char with (ascii_of_N 45).
    rewrite !eqb_of_N by lia. unfold POINT, MINUS in *. now rewrite Hp, Hm.
  - destruct (isspace db c); [reflexivity|].
    unfold is_digit in Hd.
    destruct (todecimal db c); [discriminate|reflexivity].
Qed.

Lemma transform_all_plain (v : str) :
  all_chars plain_char (transform_loop db v) = forallb plain v.
Proof.
  induction v as [|c v IH]; [reflexivity|].
  cbn [forallb]. destruct (plain c) eqn:Hp.
  - rewrite (transform_plain _ _ Hp). cbn [all_chars].
    now rewrite (plain_is_plain_char _ Hp), IH.
  - now rewrite (transform_not_plain _ _ Hp).
Qed.

(** *** The transformed text of a plain text *)

Lemma is_digit_plain (c : N) : is_digit db c = true -> plain c = true.
Proof. unfold plain. now intros ->. Qed.

Lemma digits_plain (v : str) :
  forallb (is_digit db) v = true -> forallb plain v = true.
Proof.
  induction v as [|c v IH]; [reflexivity|].
  cbn [forallb]. intros H. apply andb_prop in H as [Hc Hv].
  now rewrite (is_digit_plain _ Hc), IH.
Qed.

Lemma contains_transform (v : str) :
  forallb plain v = true ->
  PyStr.contains "."%char (transform_loop db v) = contains POINT v.
Proof.
  induction v as [|c v IH]; [reflexivity|].
  cbn [forallb]. intros H. apply andb_prop in H as [Hc Hv].
  rewrite (transform_plain _ _ Hc). cbn [PyStr.contains contains existsb].
  rewrite (flat_point _ Hc), (N.eqb_sym POINT c). f_equal. now apply IH.
Qed.

Lemma has_minus_transform (v : str) :
  forallb plain v = true ->
  DecimalText.has_minus (transform_loop db v) = has_minus v.
Proof.
  destruct v as [|c v]; [reflexivity|].
  cbn [forallb]. intros H. apply andb_prop in H as [Hc Hv].
  rewrite (transform_plain _ _ Hc), has_minus_cons.
  now rewrite (flat_minus _ Hc).
Qed.

Lemma strip_minus_transform (v : str) :
  forallb plain v = true ->
  DecimalText.strip_minus (transform_loop db v) = transform_loop db (strip_minus v).
Proof.
  destruct v as [|c v]; [reflexivity|].
  cbn [forallb]. intros H. apply andb_prop in H as [Hc Hv].
  rewrite (transform_plain _ _ Hc), strip_minus_cons, (flat_minus _ Hc).
  cbn [strip_minus]. destruct (c =? MINUS)%N; [reflexivity|].
  now rewrite (transform_plain _ _ Hc).
Qed.

Lemma strip_minus_keeps_plain (v : str) :
  forallb plain v = true -> forallb plain (strip_minus v) = true.
Proof.
  destruct v as [|c v]; [reflexivity|].
  cbn [strip_minus]. destruct (c =? MINUS)%N; [|auto].
  cbn [forallb]. intros H. now apply andb_prop in H as [_ H].
Qed.

Lemma split_point_transform (v : str) :
  forallb plain v = true ->
  PyNum.split_point (transform_loop db v) =
  (transform_loop db (fst (split_point v)),
   option_map (transform_loop db) (snd (split_point v)))
  /\ forallb plain (fst (split_point v)) = true
  /\ forallb plain (match snd (split_point v) with
                    | Some f => f
                    | None => []
                    end) = true.
Proof.
  induction v as [|c v IH]; [now cbn|].
  cbn [forallb]. intros H. apply andb_prop in H as [Hc Hv].
  destruct (IH Hv) as (IH1 & IH2 & IH3).
  rewrite (transform_plain _ _ Hc). cbn [PyNum.split_point split_point].
  rewrite (flat_point _ Hc). destruct (c =? POINT)%N.
  - cbn [fst snd option_map transform_loop]. auto.
  - rewrite IH1. destruct (split_point v) as [i f].
    cbn [fst snd] in *. rewrite (transform_plain _ _ Hc).
    cbn [forallb]. now rewrite Hc, IH2.
Qed.

Lemma strip_point_transform (v : str) :
  forallb plain v = true ->
  DecimalText.strip_point (transform_loop db v) = transform_loop db (strip_point v).
Proof.
  induction v as [|c v IH]; [reflexivity|].
  cbn [forallb]. intros H. apply andb_prop in H as [Hc Hv].
  rewrite (transform_plain _ _ Hc).
  cbn [DecimalText.strip_point strip_point].
  rewrite (flat_point _ Hc). destruct (c =? POINT)%N; [reflexivity|].
  now rewrite (transform_plain _ _ Hc), IH.
Qed.

Lemma strip_point_keeps_plain (v : str) :
  forallb plain v = true -> forallb plain (strip_point v) = true.
Proof.
  induction v as [|c v IH]; [reflexivity|].
  cbn [forallb strip_point]. intros H. apply andb_prop in H as [Hc Hv].
  destruct (c =? POINT)%N; [assumption|].
  cbn [forallb]. now rewrite Hc, IH.
Qed.

(** The text without its decimal point is what lies around it. *)
Lemma strip_point_split (v : str) :
  strip_point v =
  fst (split_point v)
  ++ match snd (split_point v) with Some f => f | None => [] end.
Proof.
  induction v as [|c v IH]; [reflexivity|].
  cbn [strip_point split_point]. destruct (c =? POINT)%N; [reflexivity|].
  rewrite IH. now destruct (split_point v).
Qed.

Lemma decimal_transform (v : str) :
  forallb plain v = true ->
  all_chars DecimalText.is_decimal (transform_loop db v) = forallb (is_digit db) v.
Proof.
  induction v as [|c v IH]; [reflexivity|].
  cbn [forallb]. intros H. apply andb_prop in H as [Hc Hv].
  rewrite (transform_plain _ _ Hc). cbn [all_chars].
  now rewrite (flat_decimal _ Hc), IH.
Qed.

Lemma all_digits_transform (v : str) :
  forallb plain v = true ->
  DecimalText.all_digits (transform_loop db v) = all_digits db v.
Proof.
  intros H. pose proof (decimal_transform _ H) as Hd.
  destruct v as [|c v]; [reflexivity|].
  cbn [forallb] in H. apply andb_prop in H as [Hc Hv].
  rewrite (transform_plain _ _ Hc) in *. exact Hd.
Qed.

Lemma transform_app (a b : str) :
  forallb plain a = true ->
  transform_loop db (a ++ b) = (transform_loop db a ++ transform_loop db b)%string.
Proof.
  induction a as [|c a IH]; [reflexivity|].
  cbn [forallb app]. intros H. apply andb_prop in H as [Hc Ha].
  rewrite !(transform_plain _ _ Hc). cbn [String.append]. now rewrite IH.
Qed.

Lemma length_transform (v : str) :
  forallb plain v = true -> String.length (transform_loop db v) = length v.
Proof.
  induction v as [|c v IH]; [reflexivity|].
  cbn [forallb]. intros H. apply andb_prop in H as [Hc Hv].
  rewrite (transform_plain _ _ Hc). cbn [String.length length].
  now rewrite IH.
Qed.

Lemma number_transform (v : str) :
  forallb (is_digit db) v = true ->
  DecimalText.number (transform_loop db v) = number db v.
Proof.
  induction v as [|c v IH]; [reflexivity|].
  cbn [forallb]. intros H. apply andb_prop in H as [Hc Hv].
  pose proof (is_digit_plain _ Hc) as Hp.
  pose proof (digits_plain _ Hv) as Hpv.
  rewrite (transform_plain _ _ Hp).
  rewrite number_cons.
  - rewrite (flat_value _ Hc), (length_transform _ Hpv), (IH Hv). reflexivity.
  - now rewrite (flat_decimal _ Hp).
  - now rewrite (decimal_transform _ Hpv).
Qed.

Lemma float_value_transform (v : str) :
  forallb plain v = true ->
  all_digits db (strip_point (strip_minus v)) = true ->
  DecimalText.float_value (transform_loop db v) = float_value db v.
Proof.
  intros Hp Hd. unfold DecimalText.float_value, float_value.
  rewrite (has_minus_transform _ Hp), (strip_minus_transform _ Hp).
  pose proof (strip_minus_keeps_plain _ Hp) as Hu.
  destruct (split_point_transform _ Hu) as (-> & Hi & Hf).
  rewrite strip_point_split in Hd.
  destruct (split_point (strip_minus v)) as [i f]. cbn [fst snd] in *.
  destruct f as [f0|]; cbn [option_map] in *; cbv beta iota zeta.
  - assert (Hall : forallb (is_digit db) (i ++ f0) = true)
      by (destruct (i ++ f0); [reflexivity|exact Hd]).
    rewrite <- (transform_app _ _ Hi), (number_transform _ Hall).
    now rewrite (length_transform _ Hf).
  - assert (Hall : forallb (is_digit db) (i ++ []) = true)
      by (destruct (i ++ []); [reflexivity|exact Hd]).
    change EmptyString with (transform_loop db []).
    rewrite <- (transform_app _ _ Hi), (number_transform _ Hall).
    reflexivity.
Qed.

Lemma integer_value_transform (v : str) :
  forallb plain v = true ->
  all_digits db v || has_minus v && all_digits db (strip_minus v) = true ->
  DecimalText.integer_value (transform_loop db v) = integer_value db v.
Proof.
  intros Hp Hc. unfold DecimalText.integer_value, integer_value.
  rewrite (has_minus_transform _ Hp), (strip_minus_transform _ Hp).
  assert (Hdigits : forall w, all_digits db w = true ->
                              forallb (is_digit db) w = true).
  { intros [|c w]; [discriminate|auto]. }
  destruct (has_minus v) eqn:Hm.
  - assert (Hs : all_digits db (strip_minus v) = true).
    { apply orb_prop in Hc as [Hc|Hc]; [|exact Hc].
      destruct v as [|c v]; [discriminate|].
      cbn [has_minus] in Hm. apply N.eqb_eq in Hm. subst c.
      cbn [all_digits forallb] in Hc. apply andb_prop in Hc as [Hc _].
      rewrite is_digit_ascii in Hc by (unfold MINUS; lia). discriminate Hc. }
    now rewrite (number_transform _ (Hdigits _ Hs)).
  - cbn [andb] in Hc. rewrite orb_false_r in Hc.
    now rewrite (number_transform _ (Hdigits _ Hc)).
Qed.

Lemma within_transform (v : str) :
  forallb plain v = true ->
  DecimalText.within_limit (transform_loop db v) =
  within (Some PyNum.int_max_str_digits) v.
Proof.
  intros Hp. unfold DecimalText.within_limit, within.
  rewrite (strip_minus_transform _ Hp).
  now rewrite (length_transform _ (strip_minus_keeps_plain _ Hp)).
Qed.

(** *** An ASCII text is read as it is *)

Lemma plain_of_N (c : N) :
  (c < 128)%N -> plain_char (ascii_of_N c) = plain c.
Proof.
  intros H. unfold plain_char, plain, is_digit.
  rewrite is_decimal_of_N by lia.
  destruct (ascii_digits _ H) as [-> _].
  change "."%char with (ascii_of_N 46). change "-"%char with (ascii_of_N 45).
  rewrite !eqb_of_N by lia.
  now destruct ((48 <=? c)%N && (c <=? 57)%N).
Qed.

Lemma plain_below_127 (c : N) : plain c = true -> (c < 128)%N -> (c < 127)%N.
Proof.
  intros Hp H. destruct (N.eq_dec c 127) as [->|]; [|lia].
  exfalso. unfold plain, is_digit in Hp.
  destruct (ascii_digits 127 H) as [E _]. rewrite E in Hp. discriminate Hp.
Qed.

Lemma transform_loop_ascii (v : str) :
  forallb plain v = true ->
  forallb (fun ch => (ch <? 128)%N) v = true ->
  transform_loop db v = string_of_list_ascii (map ascii_of_N v).
Proof.
  induction v as [|c v IH]; [reflexivity|].
  cbn [forallb]. intros Hp Ha.
  apply andb_prop in Hp as [Hc Hv]. apply andb_prop in Ha as [Hc' Hv'].
  apply N.ltb_lt in Hc'. pose proof (plain_below_127 _ Hc Hc') as Hlt.
  cbn [transform_loop map string_of_list_ascii].
  apply N.ltb_lt in Hlt. rewrite Hlt. now rewrite IH.
Qed.

Lemma transform_plain_loop (v : str) :
  forallb plain v = true -> transform db v = transform_loop db v.
Proof.
  intros Hp. unfold transform.
  destruct (forallb (fun ch => (ch <? 128)%N) v) eqn:Ha; [|reflexivity].
  symmetry. now apply transform_loop_ascii.
Qed.

Lemma transform_plain_chars (v : str) :
  all_chars plain_char (transform db v) = forallb plain v.
Proof.
  unfold transform.
  destruct (forallb (fun ch => (ch <? 128)%N) v) eqn:Ha;
    [|apply transform_all_plain].
  induction v as [|c v IH]; [reflexivity|].
  cbn [forallb] in *. apply andb_prop in Ha as [Hc Hv].
  apply N.ltb_lt in Hc.
  cbn [map string_of_list_ascii all_chars].
  now rewrite (plain_of_N _ Hc), (IH Hv).
Qed.

(** *** The guards of the two branches *)

Lemma is_digit_point : is_digit db POINT = false.
Proof. now rewrite is_digit_ascii. Qed.

Lemma is_digit_minus : is_digit db MINUS = false.
Proof. now rewrite is_digit_ascii. Qed.

Lemma all_digits_forallb (w : str) :
  all_digits db w = true -> forallb (is_digit db) w = true.
Proof. destruct w; [discriminate|auto]. Qed.

Lemma digits_are_isdigit (w : str) :
  all_digits db w = true -> isdigit db w = true.
Proof.
  destruct w as [|c w]; [discriminate|].
  unfold all_digits, isdigit. generalize (c :: w). clear c w.
  intros w. induction w as [|c w IH]; [reflexivity|].
  cbn [forallb]. intros H. apply andb_prop in H as [Hc Hw].
  now rewrite (is_digit_isdigit_char _ Hc), IH.
Qed.

Lemma remove_digits (c : N) (w : str) :
  is_digit db c = false -> forallb (is_digit db) w = true -> remove c w = w.
Proof.
  intros Hc. induction w as [|a w IH]; [reflexivity|].
  cbn [forallb remove filter]. intros H. apply andb_prop in H as [Ha Hw].
  destruct (N.eqb_spec a c) as [->|]; [congruence|].
  cbn [negb]. f_equal. now apply IH.
Qed.

Lemma remove_comm (a b : N) (s : str) :
  remove a (remove b s) = remove b (remove a s).
Proof.
  unfold remove. induction s as [|c s IH]; [reflexivity|].
  cbn [filter].
  destruct (negb (c =? b)%N) eqn:Eb; destruct (negb (c =? a)%N) eqn:Ea;
    cbn [filter]; rewrite ?Ea, ?Eb; now rewrite IH.
Qed.

Lemma remove_strip_point (u : str) :
  remove POINT (strip_point u) = remove POINT u.
Proof.
  induction u as [|c u IH]; [reflexivity|].
  cbn [strip_point remove filter].
  destruct (c =? POINT)%N eqn:E; [reflexivity|].
  cbn [remove filter negb]. rewrite E. cbn [negb]. f_equal. exact IH.
Qed.

Lemma remove_strip_minus (v : str) :
  remove MINUS (strip_minus v) = remove MINUS v.
Proof.
  destruct v as [|c v]; [reflexivity|].
  cbn [strip_minus remove filter].
  destruct (c =? MINUS)%N eqn:E; [reflexivity|].
  cbn [filter]. now rewrite E.
Qed.

(** The guard of the first branch covers rule (1). *)
Lemma float_guard (v : str) :
  all_digits db (strip_point (strip_minus v)) = true ->
  isdigit db (remove MINUS (remove POINT v)) = true.
Proof.
  intros Hd.
  assert (E : remove MINUS (remove POINT v) = strip_point (strip_minus v)).
  { rewrite remove_comm, <- remove_strip_minus, remove_comm.
    rewrite <- remove_strip_point.
    pose proof (all_digits_forallb _ Hd) as Hall.
    now rewrite (remove_digits _ _ is_digit_point Hall),
      (remove_digits _ _ is_digit_minus Hall). }
  rewrite E. now apply digits_are_isdigit.
Qed.

Lemma has_minus_skipn (v : str) :
  has_minus v = true -> skipn 1 v = strip_minus v.
Proof.
  destruct v as [|c v]; [discriminate|].
  cbn [has_minus strip_minus skipn]. now intros ->.
Qed.

(** The guard of the second branch covers rule (2). *)
Lemma int_guard (v : str) :
  all_digits db v || has_minus v && all_digits db (strip_minus v) = true ->
  isdigit db v || startswith MINUS v && isdigit db (skipn 1 v) = true.
Proof.
  intros H. apply orb_prop in H as [H|H].
  - now rewrite (digits_are_isdigit _ H).
  - apply andb_prop in H as [Hm H].
    change (startswith MINUS v) with (has_minus v).
    rewrite Hm, (has_minus_skipn _ Hm), (digits_are_isdigit _ H).
    apply orb_true_r.
Qed.

(** A text with a decimal point is not a text of digits. *)
Lemma point_isdigit (w : str) :
  contains POINT w = true -> isdigit db w = false.
Proof.
  intros H. destruct w as [|c w]; [reflexivity|].
  unfold isdigit. revert H. generalize (c :: w). clear c w.
  intros w. induction w as [|c w IH]; [discriminate|].
  cbn [contains existsb forallb]. intros H. apply orb_prop in H as [H|H].
  - apply N.eqb_eq in H. subst c. now rewrite point_not_digit.
  - unfold contains in IH. rewrite (IH H). apply andb_false_r.
Qed.

Lemma point_all_digits (w : str) :
  contains POINT w = true -> all_digits db w = false.
Proof.
  intros H. destruct (all_digits db w) eqn:E; [|reflexivity].
  apply digits_are_isdigit in E. now rewrite (point_isdigit _ H) in E.
Qed.

Lemma point_after_minus (v : str) :
  contains POINT (strip_minus v) = contains POINT v.
Proof.
  destruct v as [|c v]; [reflexivity|].
  cbn [strip_minus]. destruct (N.eqb_spec c MINUS) as [->|]; reflexivity.
Qed.

(** *** A text with a character that is not plain *)

Lemma strip_minus_plain_back (v : str) :
  forallb plain (strip_minus v) = true -> forallb plain v = true.
Proof.
  destruct v as [|c v]; [reflexivity|].
  cbn [strip_minus]. destruct (N.eqb_spec c MINUS) as [->|]; [|auto].
  intros H. cbn [forallb]. rewrite H. unfold plain.
  now rewrite orb_true_r.
Qed.

Lemma strip_point_plain_back (u : str) :
  forallb plain (strip_point u) = true -> forallb plain u = true.
Proof.
  induction u as [|c u IH]; [reflexivity|].
  cbn [strip_point]. destruct (N.eqb_spec c POINT) as [->|].
  - intros H. cbn [forallb]. rewrite H. unfold plain.
    now rewrite N.eqb_refl, orb_true_r.
  - cbn [forallb]. intros H. apply andb_prop in H as [Hc Hu].
    now rewrite Hc, IH.
Qed.

Lemma not_plain_all_digits (v : str) :
  forallb plain v = false ->
  all_digits db v = false
  /\ all_digits db (strip_minus v) = false
  /\ all_digits db (strip_point (strip_minus v)) = false.
Proof.
  intros Hp.
  assert (H : forall w, (forallb plain w = true -> forallb plain v = true) ->
                        all_digits db w = false).
  { intros w Hw. destruct (all_digits db w) eqn:E; [|reflexivity].
    apply all_digits_forallb, digits_plain, Hw in E. congruence. }
  repeat split; apply H.
  - auto.
  - apply strip_minus_plain_back.
  - intros Hw. now apply strip_minus_plain_back, strip_point_plain_back.
Qed.

Lemma not_plain_py_int (v : str) :
  forallb plain v = false -> exists e, py_int db v = Raise e.
Proof.
  intros Hp. unfold py_int.
  destruct (PyNum.py_int (transform db v)) as [z|e] eqn:E; [|eauto].
  apply py_int_plain in E. rewrite transform_plain_chars in E. congruence.
Qed.

Lemma not_plain_py_float (v : str) :
  forallb plain v = false -> exists e, py_float db v = Raise e.
Proof.
  intros Hp. unfold py_float.
  destruct (PyNum.py_float (transform db v)) as [f|e] eqn:E; [|eauto].
  apply py_float_plain in E. rewrite transform_plain_chars in E. congruence.
Qed.

(** *** The code and the rule agree on every text *)
Lemma convert_rule (v : str) :
  convert db v = infer db (Some PyNum.int_max_str_digits) v.
Proof.
  unfold convert, infer.
  destruct (forallb plain v) eqn:Hp.
  - (* digits, decimal points and minus signs only *)
    destruct (contains POINT v) eqn:Hpt; cbn [andb].
    + unfold py_float. rewrite (transform_plain_loop _ Hp).
      rewrite py_float_rule by now rewrite contains_transform.
      rewrite (strip_minus_transform _ Hp).
      rewrite (strip_point_transform _ (strip_minus_keeps_plain _ Hp)).
      rewrite (all_digits_transform _
                 (strip_point_keeps_plain _ (strip_minus_keeps_plain _ Hp))).
      destruct (all_digits db (strip_point (strip_minus v))) eqn:Hd.
      * rewrite (float_guard _ Hd). cbn [bind].
        now rewrite (float_value_transform _ Hp Hd).
      * rewrite (point_all_digits _ Hpt).
        assert (Hs : all_digits db (strip_minus v) = false)
          by (apply point_all_digits; now rewrite point_after_minus).
        rewrite Hs, andb_false_r. cbn [orb andb].
        destruct (isdigit db (remove MINUS (remove POINT v)));
          [reflexivity|].
        rewrite (point_isdigit _ Hpt). cbn [orb].
        destruct (startswith MINUS v) eqn:Hm; [|reflexivity].
        cbn [andb]. change (startswith MINUS v) with (has_minus v) in Hm.
        rewrite (has_minus_skipn _ Hm), point_isdigit;
          [reflexivity|now rewrite point_after_minus].
    + unfold py_int. rewrite (transform_plain_loop _ Hp), py_int_rule.
      rewrite (all_digits_transform _ Hp), (has_minus_transform _ Hp),
        (strip_minus_transform _ Hp),
        (all_digits_transform _ (strip_minus_keeps_plain _ Hp)),
        (within_transform _ Hp).
      destruct (all_digits db v || has_minus v && all_digits db (strip_minus v))
        eqn:Hc.
      * rewrite (int_guard _ Hc). cbn [andb].
        destruct (within (Some PyNum.int_max_str_digits) v); cbn [bind];
          [|reflexivity].
        now rewrite (integer_value_transform _ Hp Hc).
      * cbn [andb bind].
        now destruct (isdigit db v || startswith MINUS v && isdigit db (skipn 1 v)).
  - (* some other character *)
    destruct (not_plain_all_digits _ Hp) as (H1 & H2 & H3).
    destruct (not_plain_py_int _ Hp) as [e1 E1].
    destruct (not_plain_py_float _ Hp) as [e2 E2].
    rewrite H1, H2, H3, E1, E2, !andb_false_r. cbn [orb andb bind].
    destruct (contains POINT v && isdigit db (remove MINUS (remove POINT v)));
      [reflexivity|].
    now destruct (isdigit db v || startswith MINUS v && isdigit db (skipn 1 v)).
Qed.

(** *** Texts of code points below 256 *)

(** Between 128 and 255 there is no decimal digit. *)
Hypothesis latin1_decimal :
  forall c : N, (128 <= c < 256)%N -> todecimal db c = None.

Lemma of_string_cons (a : ascii) (s : string) :
  of_string (String a s) = N_of_ascii a :: of_string s.
Proof. reflexivity. Qed.

Lemma plain_latin1 (a : ascii) : plain_char a = plain (N_of_ascii a).
Proof.
  pose proof (N_ascii_bounded a) as Hb.
  destruct (N.ltb_spec (N_of_ascii a) 128) as [Hlt|Hge].
  - rewrite <- (plain_of_N _ Hlt). now rewrite ascii_N_embedding.
  - assert (Hd : DecimalText.is_decimal a = false).
    { unfold DecimalText.is_decimal.
      destruct (N.leb_spec (N_of_ascii a) 57); [lia|apply andb_false_r]. }
    assert (Hpt : Ascii.eqb a "."%char = false).
    { apply Ascii.eqb_neq. intros ->. cbn in Hge. lia. }
    assert (Hmi : Ascii.eqb a "-"%char = false).
    { apply Ascii.eqb_neq. intros ->. cbn in Hge. lia. }
    unfold plain_char, plain, is_digit.
    rewrite Hd, Hpt, Hmi, (latin1_decimal (N_of_ascii a)) by lia.
    unfold POINT, MINUS.
    destruct (N.eqb_spec (N_of_ascii a) 46); [lia|].
    destruct (N.eqb_spec (N_of_ascii a) 45); [lia|reflexivity].
Qed.

Lemma plain_of_string (s : string) :
  all_chars plain_char s = forallb plain (of_string s).
Proof.
  induction s as [|a s IH]; [reflexivity|].
  rewrite of_string_cons. cbn [all_chars forallb].
  now rewrite plain_latin1, IH.
Qed.

Lemma plain_latin1_ascii (s : string) :
  forallb plain (of_string s) = true ->
  forallb (fun ch => (ch <? 128)%N) (of_string s) = true.
Proof.
  induction s as [|a s IH]; [reflexivity|].
  rewrite of_string_cons. cbn [forallb]. intros H.
  apply andb_prop in H as [Ha Hs]. rewrite (IH Hs), andb_true_r.
  apply N.ltb_lt. pose proof (N_ascii_bounded a) as Hb.
  destruct (N.ltb_spec (N_of_ascii a) 128) as [Hlt|Hge]; [assumption|].
  exfalso. unfold plain, is_digit in Ha.
  rewrite (latin1_decimal (N_of_ascii a)) in Ha by lia.
  unfold POINT, MINUS in Ha. cbn [orb] in Ha.
  apply orb_prop in Ha as [Ha|Ha]; apply N.eqb_eq in Ha; lia.
Qed.

Lemma to_of_string (s : string) :
  string_of_list_ascii (map ascii_of_N (of_string s)) = s.
Proof.
  induction s as [|a s IH]; [reflexivity|].
  rewrite of_string_cons. cbn [map string_of_list_ascii].
  now rewrite ascii_N_embedding, IH.
Qed.

(** A plain text of code points below 256 is transformed into itself. *)
Lemma transform_loop_of_string (s : string) :
  forallb plain (of_string s) = true ->
  transform_loop db (of_string s) = s.
Proof.
  intros Hp.
  rewrite (transform_loop_ascii _ Hp (plain_latin1_ascii _ Hp)).
  apply to_of_string.
Qed.

(** On the texts of code points below 256 the rule is the rule of the
    decimal texts. *)
Lemma infer_of_string (s : string) :
  infer db (Some PyNum.int_max_str_digits) (of_string s)
  = unicode_cell (DecimalText.infer s).
Proof.
  set (v := of_string s).
  destruct (forallb plain v) eqn:Hp.
  - pose proof (transform_loop_of_string _ Hp) as Ht. fold v in Ht.
    pose proof (strip_minus_keeps_plain _ Hp) as Hm.
    pose proof (strip_point_keeps_plain _ Hm) as Hpm.
    pose proof (contains_transform _ Hp) as H1.
    pose proof (all_digits_transform _ Hp) as H2.
    pose proof (has_minus_transform _ Hp) as H3.
    pose proof (strip_minus_transform _ Hp) as H4.
    pose proof (all_digits_transform _ Hm) as H5.
    pose proof (strip_point_transform _ Hm) as H6.
    pose proof (all_digits_transform _ Hpm) as H7.
    pose proof (within_transform _ Hp) as H8.
    pose proof (float_value_transform _ Hp) as H9.
    pose proof (integer_value_transform _ Hp) as H10.
    rewrite Ht in *. rewrite <- H4 in H5, H6. rewrite <- H6 in H7.
    unfold infer, DecimalText.infer.
    rewrite H1, H2, H3, H5, H7, H8.
    destruct (contains POINT v && all_digits db (strip_point (strip_minus v)))
      eqn:Ef.
    + apply andb_prop in Ef as [_ Ef]. cbn [unicode_cell].
      now rewrite (H9 Ef).
    + destruct ((all_digits db v || has_minus v && all_digits db (strip_minus v))
                && within (Some PyNum.int_max_str_digits) v) eqn:Ei;
        [|reflexivity].
      apply andb_prop in Ei as [Ei _]. cbn [unicode_cell].
      now rewrite (H10 Ei).
  - destruct (not_plain_all_digits _ Hp) as (H1 & H2 & H3).
    unfold infer. rewrite H1, H2, H3, !andb_false_r. cbn [orb andb].
    rewrite <- convert_infer. unfold Editor.convert.
    assert (Hs : all_chars plain_char s = false)
      by (now rewrite plain_of_string).
    assert (Hi : exists e, PyNum.py_int s = Raise e).
    { destruct (PyNum.py_int s) as [z|e] eqn:E; [|eauto].
      apply py_int_plain in E. congruence. }
    assert (Hf : exists e, PyNum.py_float s = Raise e).
    { destruct (PyNum.py_float s) as [f|e] eqn:E; [|eauto].
      apply py_float_plain in E. congruence. }
    destruct Hi as [e1 ->]. destruct Hf as [e2 ->]. cbn [bind].
    destruct (PyStr.contains "." s
              && PyStr.isdigit (PyStr.remove "-" (PyStr.remove "." s)));
      [reflexivity|].
    now destruct (PyStr.isdigit s
                  || PyStr.startswith "-" s && PyStr.isdigit (PyStr.drop 1 s)).
Qed.

(** The conversion of the table model is the conversion on [str], on
    the texts of code points below 256. *)
Lemma convert_of_string (s : string) :
  convert db (of_string s) = unicode_cell (Editor.convert s).
Proof. now rewrite convert_rule, infer_of_string, convert_infer. Qed.

End Laws.

(** *** The rule looks the characters of the text up, and no others *)
Section Extensional.

Variables db db' : database.

Lemma in_strip_minus (c : N) (v : str) : In c (strip_minus v) -> In c v.
Proof.
  destruct v as [|a v]; [auto|].
  cbn [strip_minus]. destruct (a =? MINUS)%N; [now right|auto].
Qed.

Lemma in_strip_point (c : N) (u : str) : In c (strip_point u) -> In c u.
Proof.
  induction u as [|a u IH]; [auto|].
  cbn [strip_point]. destruct (a =? POINT)%N; [now right|].
  intros [H|H]; [now left|right; auto].
Qed.

Lemma all_digits_ext (w : str) :
  (forall c, In c w -> todecimal db c = todecimal db' c) ->
  all_digits db w = all_digits db' w.
Proof.
  intros H. destruct w as [|a w]; [reflexivity|].
  unfold all_digits. revert H. generalize (a :: w). clear a w.
  intros w. induction w as [|a w IH]; [reflexivity|].
  intros H. cbn [forallb]. unfold is_digit at 1 3.
  rewrite (H a) by now left.
  f_equal. apply IH. intros c Hc. apply H. now right.
Qed.

Lemma number_ext (w : str) :
  (forall c, In c w -> todecimal db c = todecimal db' c) ->
  number db w = number db' w.
Proof.
  induction w as [|a w IH]; [reflexivity|].
  intros H. cbn [number]. unfold digit_value.
  rewrite (H a) by now left.
  rewrite IH; [reflexivity|]. intros c Hc. apply H. now right.
Qed.

Lemma infer_ext (limit : option Z) (v : str) :
  (forall c, In c v -> todecimal db c = todecimal db' c) ->
  infer db limit v = infer db' limit v.
Proof.
  intros H. unfold infer, float_value, integer_value.
  assert (Hs : forall c, In c (strip_minus v) ->
                         todecimal db c = todecimal db' c)
    by (intros c Hc; now apply H, in_strip_minus).
  assert (Hp : forall c, In c (strip_point (strip_minus v)) ->
                         todecimal db c = todecimal db' c)
    by (intros c Hc; now apply Hs, in_strip_point).
  rewrite (all_digits_ext _ H), (all_digits_ext _ Hs), (all_digits_ext _ Hp).
  rewrite (number_ext _ H), (number_ext _ Hs).
  rewrite strip_point_split in Hp.
  destruct (split_point (strip_minus v)) as [i f]. cbn [fst snd] in Hp.
  destruct f as [f0|]; now rewrite (number_ext _ Hp).
Qed.

End Extensional.

(** *** The database on the Latin and Arabic blocks *)
Module LatinArabicFacts.

Ltac ranges :=
  unfold in_range;
  repeat match goal with
         | |- context [(?a <=? ?b)%N] => destruct (N.leb_spec a b)
         | |- context [(?a =? ?b)%N] => destruct (N.eqb_spec a b)
         | H : context [(?a <=? ?b)%N] |- _ => destruct (N.leb_spec a b)
         | H : context [(?a =? ?b)%N] |- _ => destruct (N.eqb_spec a b)
         end;
  cbn [andb orb] in *.

Lemma ascii_digits (c : N) :
  (c < 128)%N ->
  todecimal LatinArabic c
  = (if (48 <=? c)%N && (c <=? 57)%N then Some (c - 48)%N else None)
  /\ todigit LatinArabic c
     = (if (48 <=? c)%N && (c <=? 57)%N then Some (c - 48)%N else None).
Proof.
  intros H. cbn [todecimal todigit LatinArabic].
  split; ranges; reflexivity || lia.
Qed.

Lemma decimal_digit (c d : N) :
  todecimal LatinArabic c = Some d -> todigit LatinArabic c = Some d.
Proof.
  cbn [todecimal todigit LatinArabic].
  destruct (in_range 48 57 c); [auto|].
  destruct (in_range 1632 1641 c); [auto|].
  destruct (in_range 1776 1785 c); [auto|discriminate].
Qed.

Lemma decimal_range (c d : N) :
  todecimal LatinArabic c = Some d -> (d < 10)%N.
Proof.
  cbn [todecimal LatinArabic]. intros H. revert H.
  ranges; intros [= <-] || discriminate; lia.
Qed.

Lemma digit_not_space (c d : N) :
  todigit LatinArabic c = Some d -> isspace LatinArabic c = false.
Proof.
  intros Hd. destruct (isspace LatinArabic c) eqn:Es; [|reflexivity].
  exfalso. cbn [isspace LatinArabic] in Es. unfold in_range in Es.
  assert (Hc : (9 <= c <= 13 \/ 28 <= c <= 32 \/ c = 133 \/ c = 160)%N).
  { apply orb_prop in Es as [Es|Es];
      [apply orb_prop in Es as [Es|Es];
       [apply orb_prop in Es as [Es|Es]|]|].
    - apply andb_prop in Es as [E1 E2].
      apply N.leb_le in E1. apply N.leb_le in E2. lia.
    - apply andb_prop in Es as [E1 E2].
      apply N.leb_le in E1. apply N.leb_le in E2. lia.
    - apply N.eqb_eq in Es. lia.
    - apply N.eqb_eq in Es. lia. }
  clear Es. cbn [todigit LatinArabic] in Hd. revert Hd.
  ranges; discriminate || lia.
Qed.

Lemma latin1_decimal (c : N) :
  (128 <= c < 256)%N -> todecimal LatinArabic c = None.
Proof.
  intros H. cbn [todecimal LatinArabic]. ranges; reflexivity || lia.
Qed.

End LatinArabicFacts.

End UnicodeFacts.

(** ** The streaming decoder on the text of a stream *)
Module StreamCycleFacts.
Import Base64 Base64Facts Base64Text.

Section Cycle.

Variable zl : zlib.

Lemma stream_decode_encoded (g x : bytes) (c : Z) :
  c <> 0%Z ->
  (forall pieces : list bytes,
      concat pieces = g ->
      exists d out,
        feed zl (decompressobj_new zl) pieces = Ok (d, out) /\
        out ++ decompress_flush zl d = x) ->
  stream_decode_b64_gzip zl (Str (decode_ascii (b2a_base64 g))) c =
  Some {| written := x; ended := Ok tt |}.
Proof.
  intros Hc Hfeed. unfold stream_decode_b64_gzip.
  pose proof (text_byte_b2a_base64 g) as Ht.
  destruct (@stream_decode_loop_spec zl
              (S (remaining (Str (decode_ascii (b2a_base64 g)))))
              (Str (decode_ascii (b2a_base64 g))) c [] g)
    as (pieces & Hcat & Hrun).
  - assumption.
  - now apply text_bytes_ascii.
  - cbn [remaining file_bytes].
    now rewrite ReadFacts.list_byte_of_string_length.
  - lia.
  - cbn; lia.
  - cbn [file_bytes app]. unfold decode_ascii.
    apply list_byte_of_string_of_list_byte.
  - destruct (Hfeed pieces Hcat) as (d & out & Hf & Hout).
    rewrite (Hrun _ _ [] _ Hf). cbn [app]. now rewrite Hout.
Qed.

Lemma stream_gzip_text (x : bytes) (c : Z) :
  c <> 0%Z ->
  stream_gzip_base64 zl x c =
  Some (decode_ascii
          (b2a_base64
             (compress_chunks zl (compressobj_new zl)
                (reads (S (length x)) x c)))).
Proof.
  intros Hc. unfold stream_gzip_base64.
  rewrite stream_gzip_loop_spec by lia.
  cbn [app String.append]. unfold b64encode.
  now rewrite StreamFacts.compressed_stream_chunks by lia.
Qed.

End Cycle.

End StreamCycleFacts.

(** ** Dictionaries *)
Module DictFacts.

Lemma dict_get_set_same (V : Type) (d : dict V) (k : string) (v : V) :
  dict_get (dict_set d k v) k = Some v.
Proof.
  induction d as [|[k' v'] d IH]; cbn [dict_set dict_get].
  - now rewrite String.eqb_refl.
  - destruct (String.eqb_spec k' k) as [->|Hk]; cbn [dict_get].
    + now rewrite String.eqb_refl.
    + apply String.eqb_neq in Hk. now rewrite Hk.
Qed.

Lemma dict_get_set_other (V : Type) (d : dict V) (k k' : string) (v : V) :
  k <> k' -> dict_get (dict_set d k v) k' = dict_get d k'.
Proof.
  intros Hne.
  induction d as [|[k0 v0] d IH]; cbn [dict_set dict_get].
  - apply String.eqb_neq in Hne. now rewrite Hne.
  - destruct (String.eqb_spec k0 k) as [->|Hk]; cbn [dict_get].
    + apply String.eqb_neq in Hne. now rewrite Hne.
    + now rewrite IH.
Qed.

Lemma dict_get_set (V : Type) (d : dict V) (k k' : string) (v : V) :
  dict_get (dict_set d k v) k' =
  if String.eqb k k' then Some v else dict_get d k'.
Proof.
  destruct (String.eqb_spec k k') as [->|Hne].
  - apply dict_get_set_same.
  - now apply dict_get_set_other.
Qed.

Lemma dict_get_keys (V : Type) (d : dict V) (k : string) :
  dict_get d k = None <-> ~ In k (keys d).
Proof.
  induction d as [|[k' v'] d IH]; cbn [dict_get keys map fst In].
  - tauto.
  - destruct (String.eqb_spec k' k) as [->|Hk].
    + split; [discriminate|tauto].
    + unfold keys in IH. rewrite IH. tauto.
Qed.

(** Setting a new key appends it. *)
Lemma dict_set_new (V : Type) (d : dict V) (k : string) (v : V) :
  ~ In k (keys d) -> dict_set d k v = d ++ [(k, v)].
Proof.
  induction d as [|[k' v'] d IH]; cbn [keys map fst In dict_set app];
    [reflexivity|].
  intros H. destruct (String.eqb_spec k' k) as [->|Hk]; [tauto|].
  unfold keys in IH. rewrite IH; tauto.
Qed.

(** Setting the last key replaces its value. *)
Lemma dict_set_last (V : Type) (d : dict V) (k : string) (v v' : V) :
  ~ In k (keys d) -> dict_set (d ++ [(k, v)]) k v' = d ++ [(k, v')].
Proof.
  induction d as [|[k0 v0] d IH]; cbn [keys map fst In dict_set app].
  - now rewrite String.eqb_refl.
  - intros H. destruct (String.eqb_spec k0 k) as [->|Hk]; [tauto|].
    unfold keys in IH. rewrite IH; tauto.
Qed.

Lemma keys_app (V : Type) (a b : dict V) : keys (a ++ b) = keys a ++ keys b.
Proof. apply map_app. Qed.

End DictFacts.

(** ** Rows *)
Module RowFacts.
Import PyStr Editor DictFacts.

(** The last position of a column name in a header. *)
Fixpoint last_index (k : string) (h : list string) : option nat :=
  match h with
  | [] => None
  | x :: h' =>
      match last_index k h' with
      | Some j => Some (S j)
      | None => if String.eqb x k then Some 0%nat else None
      end
  end.

Lemma last_index_in (k : string) (h : list string) :
  In k h -> exists j, last_index k h = Some j.
Proof.
  induction h as [|x h IH]; [contradiction|].
  cbn [In last_index]. intros [->|H].
  - destruct (last_index k h); [eauto|]. rewrite String.eqb_refl. eauto.
  - destruct (IH H) as [j ->]. eauto.
Qed.

Lemma last_index_spec (k : string) (h : list string) (j : nat) :
  last_index k h = Some j ->
  nth_error h j = Some k /\
  forall j', nth_error h j' = Some k -> (j' <= j)%nat.
Proof.
  revert j. induction h as [|x h IH]; intros j; [discriminate|].
  cbn [last_index]. destruct (last_index k h) as [j0|] eqn:E.
  - intros [= <-]. destruct (IH j0 eq_refl) as [H1 H2]. split; [assumption|].
    intros [|j'] Hj; [lia|]. cbn in Hj. specialize (H2 _ Hj). lia.
  - destruct (String.eqb_spec x k) as [->|Hx]; [|discriminate].
    intros [= <-]. split; [reflexivity|].
    intros [|j'] Hj; [lia|]. cbn in Hj. exfalso.
    apply nth_error_In in Hj. apply last_index_in in Hj as [j E'].
    congruence.
Qed.

(** [fill_row] never raises, and each column holds the conversion of
    the field at the last position of its name. *)
Lemma fill_row_spec (parts : list string) (h : list string) :
  forall (i : nat) (r : row),
    exists r',
      fill_row h i parts r = Ok r' /\
      forall k,
        dict_get r' k =
        match last_index k h with
        | Some j => Some (convert (nth (i + j) parts EmptyString))
        | None => dict_get r k
        end.
Proof.
  induction h as [|x h IH]; intros i r.
  - exists r. split; [reflexivity|]. intros k. reflexivity.
  - cbn [fill_row].
    assert (Hv : (if (i <? length parts)%nat then list_index parts i
                  else Ok EmptyString) = Ok (nth i parts EmptyString)).
    { destruct (Nat.ltb_spec i (length parts)) as [Hi|Hi].
      - unfold list_index.
        destruct (nth_error parts i) as [a|] eqn:E.
        + now rewrite (nth_error_nth _ _ _ E).
        + apply nth_error_None in E. lia.
      - now rewrite nth_overflow. }
    rewrite Hv. cbn [bind].
    destruct (IH (S i) (dict_set r x (convert (nth i parts EmptyString))))
      as (r' & Hr' & Hget).
    exists r'. split; [assumption|]. intros k. rewrite Hget.
    cbn [last_index]. destruct (last_index k h) as [j|].
    + do 2 f_equal. f_equal. lia.
    + rewrite dict_get_set. destruct (String.eqb x k); [|reflexivity].
      do 2 f_equal. f_equal. lia.
Qed.

(** With distinct column names the row lists the columns in header
    order. *)
Lemma fill_row_nodup (parts : list string) (h : list string) :
  forall (i : nat) (r : row),
    NoDup h -> (forall k, In k h -> ~ In k (keys r)) ->
    fill_row h i parts r =
    Ok (r ++ combine h (map convert
                          (map (fun j => nth j parts EmptyString)
                               (seq i (length h))))).
Proof.
  induction h as [|x h IH]; intros i r Hnd Hfresh.
  - cbn. now rewrite app_nil_r.
  - cbn [fill_row].
    assert (Hv : (if (i <? length parts)%nat then list_index parts i
                  else Ok EmptyString) = Ok (nth i parts EmptyString)).
    { destruct (Nat.ltb_spec i (length parts)) as [Hi|Hi].
      - unfold list_index.
        destruct (nth_error parts i) as [a|] eqn:E.
        + now rewrite (nth_error_nth _ _ _ E).
        + apply nth_error_None in E. lia.
      - now rewrite nth_overflow. }
    rewrite Hv. cbn [bind].
    inversion Hnd as [|? ? Hx Hnd']; subst.
    rewrite dict_set_new by (apply Hfresh; now left).
    rewrite IH; [|assumption|].
    + cbn [length seq map combine]. now rewrite <- app_assoc.
    + intros k Hk. rewrite keys_app. cbn [keys map fst].
      intros Hin. apply in_app_or in Hin as [Hin|[<-|[]]].
      * apply (Hfresh k); [now right|assumption].
      * contradiction.
Qed.

End RowFacts.

(** ** The parser *)
Module ParserFacts.
Import PyStr Editor DictFacts RowFacts.

(** The table being filled is a key of [tables]. *)
Definition table_known (st : parser) : Prop :=
  forall t, current_table st = Some t -> dict_get (p_tables st) t <> None.

Lemma parse_line_total (st : parser) (line : string) :
  table_known st ->
  exists st', parse_line st line = Ok st' /\ table_known st'.
Proof.
  intros Hinv. unfold parse_line.
  destruct (strip line) as [|c l] eqn:Eline; [eauto|].
  destruct (startswith "###" (String c l)).
  - eexists. split; [reflexivity|].
    intros t [= <-]. cbn [p_tables]. now rewrite dict_get_set_same.
  - destruct (current_table st) as [t|] eqn:Et; [|eauto].
    destruct (is_empty (current_headers st)
              && (1 <? length (split TAB (String c l)))%nat).
    + eexists. split; [reflexivity|].
      intros t' [= <-]. cbn [p_tables]. now apply Hinv.
    + destruct (negb (is_empty (current_headers st))
                && (length (split TAB (String c l))
                    <=? length (current_headers st))%nat); [|eauto].
      destruct (fill_row_spec
                  (pad (split TAB (String c l)) (length (current_headers st)))
                  (current_headers st) 0 []) as (r & -> & _).
      cbn [bind]. unfold dict_lookup.
      specialize (Hinv t Et).
      destruct (dict_get (p_tables st) t) as [rows|]; [|contradiction].
      cbn [bind]. eexists. split; [reflexivity|].
      intros t' [= <-]. cbn [p_tables]. now rewrite dict_get_set_same.
Qed.

Lemma parse_lines_total (lines : list string) :
  forall st, table_known st ->
  exists st', parse_lines st lines = Ok st' /\ table_known st'.
Proof.
  induction lines as [|line lines IH]; intros st Hinv; cbn [parse_lines].
  - eauto.
  - destruct (parse_line_total line Hinv) as (st1 & -> & Hinv1).
    cbn [bind]. now apply IH.
Qed.

Lemma table_known_new : table_known parser_new.
Proof. intros t. discriminate. Qed.

(** In a state the parser reaches, a captured header belongs to a table. *)
Definition header_owned (st : parser) : Prop :=
  current_headers st <> [] -> current_table st <> None.

Lemma parse_line_header_owned (st st' : parser) (line : string) :
  header_owned st -> parse_line st line = Ok st' -> header_owned st'.
Proof.
  intros Hinv. unfold parse_line.
  destruct (strip line) as [|c l]; [now intros [= <-]|].
  destruct (startswith "###" (String c l)).
  - intros [= <-]. intros _. discriminate.
  - destruct (current_table st) as [t|] eqn:Et.
    + destruct (is_empty (current_headers st)
                && (1 <? length (split TAB (String c l)))%nat).
      * intros [= <-]. intros _. discriminate.
      * destruct (negb (is_empty (current_headers st))
                  && (length (split TAB (String c l))
                      <=? length (current_headers st))%nat).
        -- destruct (fill_row _ _ _ _); [|discriminate]. cbn [bind].
           destruct (dict_lookup _ _); [|discriminate]. cbn [bind].
           intros [= <-]. intros _. discriminate.
        -- intros [= <-]. unfold header_owned. rewrite Et. discriminate.
    + intros [= <-]. assumption.
Qed.

Lemma parse_lines_header_owned (lines : list string) :
  forall st st', header_owned st -> parse_lines st lines = Ok st' ->
  header_owned st'.
Proof.
  induction lines as [|line lines IH]; intros st st' Hinv; cbn [parse_lines].
  - now intros [= <-].
  - destruct (parse_line st line) as [st1|] eqn:E; [|discriminate].
    cbn [bind]. apply IH. now apply (parse_line_header_owned line Hinv).
Qed.

Lemma reachable_invariants (lines : list string) (st : parser) :
  parse_lines parser_new lines = Ok st -> table_known st /\ header_owned st.
Proof.
  intros H. split.
  - destruct (parse_lines_total lines table_known_new) as (st' & E & Hinv).
    rewrite H in E. now injection E as <-.
  - apply (parse_lines_header_owned lines (st := parser_new)); [|assumption].
    intros Hh. now contradiction Hh.
Qed.

(** What the parser does with a data row. *)
Lemma parse_line_data_row (st : parser) (line : string) (t : string)
    (rows : list row) :
  current_table st = Some t ->
  dict_get (p_tables st) t = Some rows ->
  current_headers st <> [] ->
  strip line <> EmptyString ->
  startswith "###" (strip line) = false ->
  (length (split TAB (strip line)) <= length (current_headers st))%nat ->
  exists r,
    fill_row (current_headers st) 0
      (pad (split TAB (strip line)) (length (current_headers st))) [] = Ok r
    /\ parse_line st line =
       Ok {| p_tables := dict_set (p_tables st) t (rows ++ [r]);
             p_table_headers := p_table_headers st;
             current_table := Some t;
             current_headers := current_headers st |}.
Proof.
  intros Et Hrows Hh Hne Hmark Hlen. unfold parse_line.
  destruct (strip line) as [|c l] eqn:Eline; [congruence|].
  rewrite Hmark, Et.
  destruct (current_headers st) as [|h0 h] eqn:Eh; [congruence|].
  cbn [is_empty andb negb].
  apply Nat.leb_le in Hlen. rewrite Hlen.
  destruct (fill_row_spec
              (pad (split TAB (String c l)) (length (h0 :: h)))
              (h0 :: h) 0 []) as (r & Hr & _).
  exists r. split; [assumption|]. rewrite Hr. cbn [bind].
  unfold dict_lookup. rewrite Hrows. reflexivity.
Qed.

(** A line with more fields than the header leaves the state as it is. *)
Lemma parse_line_long_row (st : parser) (line : string) :
  current_headers st <> [] ->
  startswith "###" (strip line) = false ->
  (length (current_headers st) < length (split TAB (strip line)))%nat ->
  parse_line st line = Ok st.
Proof.
  intros Hh Hmark Hlen. unfold parse_line.
  destruct (strip line) as [|c l]; [reflexivity|].
  rewrite Hmark. destruct (current_table st); [|reflexivity].
  destruct (current_headers st) as [|h0 h]; [congruence|].
  cbn [is_empty andb negb].
  apply Nat.leb_gt in Hlen. now rewrite Hlen.
Qed.

End ParserFacts.

(** ** The text of a table *)
Module FormatFacts.
Import PyStr Editor DictFacts TableText.

Lemma map_nth_seq_from (A : Type) (d : A) (l a : list A) :
  map (fun j => nth j (a ++ l) d) (seq (length a) (length l)) = l.
Proof.
  revert a. induction l as [|x l IH]; intros a; [reflexivity|].
  cbn [length seq map]. f_equal.
  - now rewrite nth_middle.
  - specialize (IH (a ++ [x])). rewrite <- app_assoc in IH. cbn [app] in IH.
    rewrite length_app in IH. cbn [length] in IH.
    now rewrite Nat.add_1_r in IH.
Qed.

Lemma map_nth_seq (A : Type) (d : A) (l : list A) :
  map (fun j => nth j l d) (seq 0 (length l)) = l.
Proof. apply (map_nth_seq_from d l []). Qed.

Lemma pad_length (parts : list string) (n : nat) :
  (length parts <= n)%nat -> length (pad parts n) = n.
Proof. intros H. unfold pad. rewrite length_app, repeat_length. lia. Qed.

Lemma pad_past (parts : list string) (n j : nat) :
  (length parts <= j)%nat -> nth j (pad parts n) EmptyString = EmptyString.
Proof.
  intros H. unfold pad. rewrite app_nth2 by assumption.
  destruct (Nat.lt_ge_cases (j - length parts) (n - length parts)).
  - now rewrite nth_repeat_lt.
  - apply nth_overflow. now rewrite repeat_length.
Qed.

Lemma concat_cons (x : string) (l : list string) :
  String.concat EmptyString (x :: l) = (x ++ String.concat EmptyString l)%string.
Proof.
  destruct l as [|y l]; cbn [String.concat].
  - now rewrite string_app_empty_r.
  - reflexivity.
Qed.

Lemma unlines_cons (x : string) (l : list string) :
  unlines (x :: l) = (x ++ String LF EmptyString ++ unlines l)%string.
Proof.
  unfold unlines. cbn [map]. rewrite concat_cons.
  now rewrite string_app_assoc.
Qed.

Lemma unlines_app (a b : list string) :
  unlines (a ++ b) = (unlines a ++ unlines b)%string.
Proof.
  induction a as [|x a IH]; [reflexivity|].
  cbn [app]. rewrite !unlines_cons, IH. now rewrite !string_app_assoc.
Qed.

Lemma row_text_field (h : list string) (r : row) :
  row_text h r =
  (join (String TAB EmptyString) (map (field r) h) ++ String LF EmptyString)%string.
Proof.
  unfold row_text. do 2 f_equal. apply map_ext. intros col.
  unfold field. now destruct (dict_get r col).
Qed.

Lemma concat_row_text (h : list string) (rows : list row) :
  String.concat EmptyString (map (row_text h) rows) =
  unlines (map (fun r => join (String TAB EmptyString) (map (field r) h)) rows).
Proof.
  unfold unlines. rewrite map_map. f_equal. apply map_ext.
  intros r. apply row_text_field.
Qed.

Lemma table_text_lines (ths : table_headers) (name : string)
    (rows : list row) (h : list string) :
  dict_get ths name = Some h ->
  table_text ths name rows =
  unlines (("###" ++ name)%string :: body_lines h rows ++ [EmptyString]).
Proof.
  intros Hh. unfold table_text. rewrite Hh.
  rewrite unlines_cons, unlines_app.
  rewrite !string_app_assoc. do 2 f_equal.
  destruct rows as [|r rows].
  - reflexivity.
  - cbv zeta. rewrite concat_row_text. unfold body_lines.
    rewrite unlines_cons, !string_app_assoc. reflexivity.
Qed.



End FormatFacts.

(** ** Lines: splitting, joining and stripping *)
Module LineFacts.
Import PyStr TableSet.

Abbreviation T := (String TAB EmptyString).

Lemma contains_app (c : ascii) (a b : string) :
  contains c (a ++ b) = contains c a || contains c b.
Proof.
  induction a as [|x a IH]; [reflexivity|].
  cbn [String.append contains]. now rewrite IH, orb_assoc.
Qed.

Lemma split_no_sep (sep : ascii) (s : string) :
  contains sep s = false -> split sep s = [s].
Proof.
  induction s as [|c s IH]; [reflexivity|].
  cbn [contains split]. intros H. apply orb_false_iff in H as [Hc Hs].
  now rewrite Hc, (IH Hs).
Qed.

Lemma split_app_sep (sep : ascii) (a b : string) :
  contains sep a = false ->
  split sep (a ++ String sep b) = a :: split sep b.
Proof.
  induction a as [|c a IH]; cbn [String.append contains split].
  - intros _. now rewrite Ascii.eqb_refl.
  - intros H. apply orb_false_iff in H as [Hc Ha].
    now rewrite Hc, (IH Ha).
Qed.

Lemma join_cons (sep x : string) (l : list string) :
  l <> [] -> join sep (x :: l) = (x ++ sep ++ join sep l)%string.
Proof. destruct l; [congruence|reflexivity]. Qed.

Lemma split_join (sep : ascii) (vs : list string) :
  vs <> [] ->
  forallb (fun v => negb (contains sep v)) vs = true ->
  split sep (join (String sep EmptyString) vs) = vs.
Proof.
  induction vs as [|x vs IH]; [congruence|]. intros _.
  cbn [forallb]. intros H. apply andb_prop in H as [Hx Hvs].
  apply negb_true_iff in Hx.
  destruct vs as [|y vs].
  - cbn [join]. now apply split_no_sep.
  - rewrite join_cons by discriminate. cbn [String.append].
    rewrite split_app_sep by assumption. f_equal.
    apply IH; [discriminate|assumption].
Qed.

(** *** Stripping *)

Lemma lstrip_clean (s : string) : clean_start s = true -> lstrip s = s.
Proof.
  destruct s as [|c s]; [discriminate|].
  cbn [clean_start lstrip]. intros H. apply negb_true_iff in H.
  now rewrite H.
Qed.

Lemma rstrip_clean (s : string) : clean_end s = true -> rstrip s = s.
Proof.
  induction s as [|c s IH]; [discriminate|].
  destruct s as [|d s].
  - cbn. intros H. apply negb_true_iff in H. now rewrite H.
  - intros H. change (clean_end (String c (String d s)))
      with (clean_end (String d s)) in H.
    cbn [rstrip] in *. now rewrite (IH H).
Qed.

Lemma rstrip_blank (b : string) :
  all_chars isspace b = true -> rstrip b = EmptyString.
Proof.
  induction b as [|c b IH]; [reflexivity|].
  cbn [all_chars rstrip]. intros H. apply andb_prop in H as [Hc Hb].
  now rewrite (IH Hb), Hc.
Qed.

Lemma rstrip_app_blank (a b : string) :
  all_chars isspace b = true -> rstrip (a ++ b) = rstrip a.
Proof.
  intros Hb. induction a as [|c a IH].
  - cbn [String.append]. now apply rstrip_blank.
  - cbn [String.append rstrip]. now rewrite IH.
Qed.

Lemma clean_end_app (a b : string) :
  clean_end b = true -> clean_end (a ++ b) = true.
Proof.
  intros Hb. induction a as [|c a IH]; [assumption|].
  cbn [String.append].
  destruct (a ++ b)%string as [|d r] eqn:E; [discriminate IH|].
  exact IH.
Qed.

Lemma clean_start_app (a b : string) :
  clean_start a = true -> clean_start (a ++ b) = true.
Proof. destruct a; [discriminate|]. now cbn. Qed.

Lemma startswith_app_char (p x r : string) (c : ascii) :
  contains c p = false -> startswith p x = false ->
  startswith p (x ++ String c r) = false.
Proof.
  revert x. induction p as [|a p IH]; intros x Hc Hs; [discriminate|].
  cbn [contains] in Hc. apply orb_false_iff in Hc as [Hac Hp].
  destruct x as [|b x]; cbn [String.append startswith] in *.
  - now rewrite Hac.
  - destruct (Ascii.eqb a b); [|reflexivity]. cbn [andb] in *.
    now apply IH.
Qed.

(** *** Fields without the empty ones at the end *)

Fixpoint tabs (k : nat) : string :=
  match k with
  | O => EmptyString
  | S k' => String TAB (tabs k')
  end.

Lemma tabs_blank (k : nat) : all_chars isspace (tabs k) = true.
Proof. induction k as [|k IH]; [reflexivity|]. cbn [tabs all_chars]. now rewrite IH. Qed.

Lemma trim_nil (l : list string) :
  trim l = [] -> l = repeat EmptyString (length l).
Proof.
  induction l as [|x l IH]; [reflexivity|].
  cbn [trim length repeat].
  destruct (trim l) as [|y t]; [|discriminate].
  destruct x; [|discriminate]. intros _. f_equal. now apply IH.
Qed.

Lemma join_blanks (x : string) (n : nat) :
  join T (x :: repeat EmptyString n) = (x ++ tabs n)%string.
Proof.
  revert x. induction n as [|n IH]; intros x.
  - cbn. now rewrite string_app_empty_r.
  - cbn [repeat]. rewrite join_cons by discriminate.
    rewrite IH. reflexivity.
Qed.

Lemma trim_length (l : list string) : (length (trim l) <= length l)%nat.
Proof.
  induction l as [|x l IH]; [reflexivity|].
  cbn [trim length]. destruct (trim l) as [|y t].
  - destruct x; cbn; lia.
  - cbn [length] in *. lia.
Qed.

Lemma join_trim (l : list string) :
  trim l <> [] ->
  join T l = (join T (trim l) ++ tabs (length l - length (trim l)))%string.
Proof.
  induction l as [|x l IH]; [now cbn|].
  cbn [trim]. destruct (trim l) as [|y t] eqn:Et.
  - destruct x as [|c x]; [congruence|]. intros _.
    rewrite (trim_nil _ Et), join_blanks.
    cbn [length join]. rewrite repeat_length.
    now replace (S (length l) - 1)%nat with (length l) by lia.
  - intros _.
    assert (Hl : l <> []) by (intros ->; discriminate).
    rewrite join_cons by assumption.
    rewrite IH by discriminate.
    rewrite (@join_cons T x (y :: t)) by discriminate.
    cbn [length]. now rewrite !string_app_assoc.
Qed.

Lemma trim_pad (l : list string) :
  Editor.pad (trim l) (length l) = l.
Proof.
  unfold Editor.pad. induction l as [|x l IH]; [reflexivity|].
  cbn [trim]. destruct (trim l) as [|y t] eqn:Et.
  - pose proof (trim_nil _ Et) as Hl.
    destruct x; cbn [length app Nat.sub repeat].
    + f_equal. now symmetry.
    + rewrite Nat.sub_0_r. f_equal. now symmetry.
  - cbn [length app Nat.sub] in *. now rewrite IH.
Qed.

Lemma trim_hd (l : list string) :
  clean_start (hd EmptyString l) = true ->
  hd EmptyString (trim l) = hd EmptyString l.
Proof.
  destruct l as [|x l]; [reflexivity|].
  cbn [hd trim]. destruct x; [discriminate|].
  now destruct (trim l).
Qed.

Lemma trim_id (l : list string) :
  clean_end (last l EmptyString) = true -> trim l = l.
Proof.
  induction l as [|x l IH]; [reflexivity|].
  destruct l as [|y l].
  - cbn. destruct x; [discriminate|reflexivity].
  - intros H. change (last (x :: y :: l) EmptyString)
      with (last (y :: l) EmptyString) in H.
    cbn [trim] in *. rewrite (IH H). reflexivity.
Qed.

Lemma clean_end_join (t : list string) :
  clean_end (last t EmptyString) = true -> clean_end (join T t) = true.
Proof.
  induction t as [|x t IH]; [discriminate|].
  destruct t as [|y t]; [now cbn|].
  intros H. change (last (x :: y :: t) EmptyString)
    with (last (y :: t) EmptyString) in H.
  rewrite join_cons by discriminate.
  apply clean_end_app, clean_end_app. now apply IH.
Qed.

Lemma clean_start_join (l : list string) :
  clean_start (hd EmptyString l) = true -> clean_start (join T l) = true.
Proof.
  destruct l as [|x l]; [discriminate|]. cbn [hd]. intros H.
  destruct l as [|y l]; [assumption|].
  rewrite join_cons by discriminate. now apply clean_start_app.
Qed.

Lemma startswith_join (l : list string) :
  startswith "###" (hd EmptyString l) = false ->
  startswith "###" (join T l) = false.
Proof.
  destruct l as [|x l]; [reflexivity|]. cbn [hd]. intros H.
  destruct l as [|y l]; [assumption|].
  rewrite join_cons by discriminate. cbn [String.append].
  now apply startswith_app_char.
Qed.

Lemma one_field_tab (l : list string) :
  forallb one_field l = true ->
  forallb (fun v => negb (contains TAB v)) l = true.
Proof.
  induction l as [|x l IH]; [reflexivity|].
  cbn [forallb]. intros H. apply andb_prop in H as [Hx Hl].
  unfold one_field in Hx. apply andb_prop in Hx as [Hx _].
  now rewrite Hx, IH.
Qed.

Lemma join_no_newline (l : list string) :
  forallb one_field l = true -> contains LF (join T l) = false.
Proof.
  induction l as [|x l IH]; [reflexivity|].
  cbn [forallb]. intros H. apply andb_prop in H as [Hx Hl].
  unfold one_field in Hx. apply andb_prop in Hx as [_ Hx].
  apply negb_true_iff in Hx.
  destruct l as [|y l]; [assumption|].
  rewrite join_cons by discriminate.
  rewrite !contains_app, Hx, (IH Hl). reflexivity.
Qed.

Lemma trim_one_field (l : list string) :
  forallb one_field l = true -> forallb one_field (trim l) = true.
Proof.
  induction l as [|x l IH]; [reflexivity|].
  cbn [forallb trim]. intros H. apply andb_prop in H as [Hx Hl].
  specialize (IH Hl). destruct (trim l) as [|y t].
  - destruct x; [reflexivity|]. cbn [forallb]. now rewrite Hx.
  - cbn [forallb] in *. now rewrite Hx, IH.
Qed.

(** How a line made of stable fields is read back. *)
Lemma stable_line_read (fields : list string) :
  stable_line fields = true ->
  strip (join T fields) = join T (trim fields)
  /\ strip (join T fields) <> EmptyString
  /\ startswith "###" (strip (join T fields)) = false
  /\ split TAB (strip (join T fields)) = trim fields
  /\ contains LF (join T fields) = false.
Proof.
  unfold stable_line. intros H.
  apply andb_prop in H as [H Hend]. apply andb_prop in H as [H Hmark].
  apply andb_prop in H as [Hfields Hstart].
  apply negb_true_iff in Hmark.
  assert (Hne : trim fields <> [])
    by (intros E; rewrite E in Hend; discriminate).
  assert (Hstrip : strip (join T fields) = join T (trim fields)).
  { unfold strip. rewrite lstrip_clean by now apply clean_start_join.
    rewrite join_trim by assumption.
    rewrite rstrip_app_blank by apply tabs_blank.
    now apply rstrip_clean, clean_end_join. }
  rewrite Hstrip. repeat split.
  - intros E. pose proof (clean_end_join _ Hend) as Hc.
    rewrite E in Hc. discriminate.
  - apply startswith_join. now rewrite trim_hd.
  - apply split_join; [assumption|].
    now apply one_field_tab, trim_one_field.
  - now apply join_no_newline.
Qed.

(** How a marker line is read back. *)
Lemma marker_line_read (name : string) :
  stable_name name = true ->
  strip ("###" ++ name) = ("###" ++ name)%string
  /\ contains LF ("###" ++ name) = false.
Proof.
  unfold stable_name. intros H. apply andb_prop in H as [Hlf Hend].
  apply negb_true_iff in Hlf. split.
  - unfold strip. rewrite lstrip_clean by reflexivity.
    destruct name as [|c name]; [reflexivity|].
    now apply rstrip_clean, clean_end_app.
  - cbn [String.append contains]. now rewrite Hlf.
Qed.

(** *** Lines of a text *)

Lemma split_unlines (ls : list string) :
  forallb (fun l => negb (contains LF l)) ls = true ->
  split LF (TableText.unlines ls) = ls ++ [EmptyString].
Proof.
  induction ls as [|l ls IH]; [reflexivity|].
  cbn [forallb]. intros H. apply andb_prop in H as [Hl Hls].
  apply negb_true_iff in Hl.
  rewrite FormatFacts.unlines_cons. cbn [String.append].
  rewrite split_app_sep by assumption. cbn [app]. f_equal. now apply IH.
Qed.

End LineFacts.

(** ** Parsing the text of a table set *)
Module RoundTripFacts.
Import PyStr Editor TableSet TableText DictFacts RowFacts ParserFacts
  FormatFacts LineFacts.

(** *** The boolean conditions, as propositions *)

Lemma distinct_NoDup (l : list string) : distinct l = true -> NoDup l.
Proof.
  induction l as [|x l IH]; [constructor|].
  cbn [distinct]. intros H. apply andb_prop in H as [Hx Hl].
  constructor; [|now apply IH].
  intros Hin. apply negb_true_iff in Hx.
  assert (existsb (String.eqb x) l = true); [|congruence].
  apply existsb_exists. exists x. split; [assumption|apply String.eqb_refl].
Qed.

Lemma strings_eqb_eq (a b : list string) : strings_eqb a b = true -> a = b.
Proof.
  revert b. induction a as [|x a IH]; intros [|y b]; try discriminate;
    [reflexivity|].
  cbn [strings_eqb]. intros H. apply andb_prop in H as [Hx Ha].
  apply String.eqb_eq in Hx. subst y. f_equal. now apply IH.
Qed.

Lemma float_eqb_eq (a b : PyNum.float) : PyNum.float_eqb a b = true -> a = b.
Proof.
  destruct a as [s|s| |s m e], b as [s'|s'| |s' m' e']; cbn; try discriminate;
    try reflexivity.
  - intros H. apply Bool.eqb_prop in H. now subst.
  - intros H. apply Bool.eqb_prop in H. now subst.
  - intros H. apply andb_prop in H as [H He]. apply andb_prop in H as [Hs Hm].
    apply Bool.eqb_prop in Hs. apply Pos.eqb_eq in Hm. apply Z.eqb_eq in He.
    now subst.
Qed.

Lemma cell_eqb_eq (a b : cell) : cell_eqb a b = true -> a = b.
Proof.
  destruct a, b; cbn; try discriminate.
  - intros H. apply Z.eqb_eq in H. now subst.
  - intros H. apply float_eqb_eq in H. now subst.
  - intros H. apply String.eqb_eq in H. now subst.
Qed.

Lemma stable_cells_convert (cells : list cell) :
  forallb stable_cell cells = true ->
  map convert (map py_str cells) = cells.
Proof.
  induction cells as [|c cells IH]; [reflexivity|].
  cbn [forallb map]. intros H. apply andb_prop in H as [Hc Hcells].
  unfold stable_cell in Hc. apply andb_prop in Hc as [_ Hc].
  apply cell_eqb_eq in Hc. now rewrite Hc, IH.
Qed.

Lemma stable_cells_fields (cells : list cell) :
  forallb stable_cell cells = true ->
  forallb one_field (map py_str cells) = true.
Proof.
  induction cells as [|c cells IH]; [reflexivity|].
  cbn [forallb map]. intros H. apply andb_prop in H as [Hc Hcells].
  unfold stable_cell in Hc. apply andb_prop in Hc as [Hc _].
  now rewrite Hc, IH.
Qed.

(** *** Rows *)

Lemma field_keys (r : row) :
  NoDup (keys r) -> map (field r) (keys r) = map py_str (map snd r).
Proof.
  induction r as [|[k v] r IH]; [reflexivity|].
  cbn [keys map fst snd]. intros Hnd. inversion Hnd as [|? ? Hk Hnd']; subst.
  f_equal.
  - unfold field. cbn [dict_get]. now rewrite String.eqb_refl.
  - rewrite <- (IH Hnd'). apply map_ext_in. intros col Hcol.
    unfold field. cbn [dict_get].
    destruct (String.eqb_spec k col) as [->|]; [contradiction|reflexivity].
Qed.

Lemma combine_fst_snd (A B : Type) (l : list (A * B)) :
  combine (map fst l) (map snd l) = l.
Proof.
  induction l as [|[a b] l IH]; [reflexivity|]. cbn. now rewrite IH.
Qed.

Lemma dict_get_app_last (V : Type) (d : dict V) (k : string) (v : V) :
  ~ In k (keys d) -> dict_get (d ++ [(k, v)]) k = Some v.
Proof.
  induction d as [|[k' v'] d IH]; cbn [keys map fst In app dict_get].
  - now rewrite String.eqb_refl.
  - intros H. destruct (String.eqb_spec k' k) as [->|]; [tauto|].
    apply IH. tauto.
Qed.

Section OneTable.
Variable name : string.
Variable h : list string.
Hypothesis h_distinct : distinct h = true.
Hypothesis h_long : (2 <= length h)%nat.

Lemma h_nonempty : h <> [].
Proof. intros E. rewrite E in h_long. cbn in h_long. lia. Qed.

(** The line [save_as_yls] writes for a stable row is read back as the
    row. *)
Lemma parse_row_line (T0 : tables) (H0 : table_headers)
    (done : list row) (r : row) :
  ~ In name (keys T0) ->
  stable_row h r = true ->
  parse_line
    {| p_tables := T0 ++ [(name, done)]; p_table_headers := H0;
       current_table := Some name; current_headers := h |}
    (join T (map (field r) h))
  = Ok {| p_tables := T0 ++ [(name, done ++ [r])]; p_table_headers := H0;
          current_table := Some name; current_headers := h |}.
Proof.
  intros Hfresh Hrow. unfold stable_row in Hrow.
  apply andb_prop in Hrow as [Hrow Hline].
  apply andb_prop in Hrow as [Hkeys Hcells].
  apply strings_eqb_eq in Hkeys.
  pose proof (distinct_NoDup _ h_distinct) as Hnd.
  assert (Hfields : map (field r) h = map py_str (map snd r)).
  { rewrite <- Hkeys. apply field_keys. now rewrite Hkeys. }
  rewrite Hfields.
  set (fields := map py_str (map snd r)) in *.
  assert (Hlen : length fields = length h).
  { unfold fields. rewrite !length_map, <- Hkeys. unfold keys.
    now rewrite length_map. }
  destruct (stable_line_read _ Hline)
    as (Hstrip & Hne & Hmark & Hsplit & _).
  set (st := {| p_tables := T0 ++ [(name, done)]; p_table_headers := H0;
                current_table := Some name; current_headers := h |}).
  destruct (@parse_line_data_row st (join T fields) name done)
    as (r' & Hfill & Hparse); try assumption; try reflexivity.
  - cbn [p_tables st]. now apply dict_get_app_last.
  - apply h_nonempty.
  - cbn [current_headers st]. rewrite Hsplit, <- Hlen. apply trim_length.
  - rewrite Hparse. cbn [p_tables p_table_headers current_headers st].
    rewrite dict_set_last by assumption.
    cbn [current_headers st] in Hfill.
    rewrite Hsplit, <- Hlen, trim_pad in Hfill.
    rewrite fill_row_nodup in Hfill by (assumption || now cbn).
    injection Hfill as <-. cbn [app]. rewrite <- Hlen, map_nth_seq.
    unfold fields. rewrite (stable_cells_convert _ Hcells), <- Hkeys.
    unfold keys. now rewrite combine_fst_snd.
Qed.

Lemma parse_lines_app (a b : list string) (st : parser) :
  parse_lines st (a ++ b) = (st' <- parse_lines st a ;; parse_lines st' b).
Proof.
  revert st. induction a as [|l a IH]; intros st; [reflexivity|].
  cbn [app parse_lines]. destruct (parse_line st l); [|reflexivity].
  cbn [bind]. apply IH.
Qed.

Lemma parse_row_lines (T0 : tables) (H0 : table_headers) (rows : list row) :
  forall done : list row,
    ~ In name (keys T0) ->
    forallb (stable_row h) rows = true ->
    parse_lines
      {| p_tables := T0 ++ [(name, done)]; p_table_headers := H0;
         current_table := Some name; current_headers := h |}
      (map (fun r => join T (map (field r) h)) rows)
    = Ok {| p_tables := T0 ++ [(name, done ++ rows)]; p_table_headers := H0;
            current_table := Some name; current_headers := h |}.
Proof.
  induction rows as [|r rows IH]; intros done Hfresh Hrows.
  - cbn. now rewrite app_nil_r.
  - cbn [forallb] in Hrows. apply andb_prop in Hrows as [Hr Hrows].
    cbn [map parse_lines]. rewrite parse_row_line by assumption.
    cbn [bind]. rewrite IH by assumption. now rewrite <- app_assoc.
Qed.

End OneTable.

(** The lines [save_as_yls] writes for a section. *)
Definition section_lines (s : section) : list string :=
  ("###" ++ sec_name s)%string
  :: body_lines (sec_headers s) (sec_rows s) ++ [EmptyString].

(** Reading back the lines of one stable section adds its table, and
    its header order when it has rows. *)
Lemma parse_section (s : section) (T0 : tables) (H0 : table_headers)
    (ct : option string) (ch : list string) :
  stable_section s = true ->
  ~ In (sec_name s) (keys T0) -> ~ In (sec_name s) (keys H0) ->
  exists ct' ch',
    parse_lines
      {| p_tables := T0; p_table_headers := H0;
         current_table := ct; current_headers := ch |}
      (section_lines s)
    = Ok {| p_tables := T0 ++ [(sec_name s, sec_rows s)];
            p_table_headers :=
              H0 ++ (if has_rows s then [(sec_name s, sec_headers s)]
                     else []);
            current_table := ct'; current_headers := ch' |}.
Proof.
  intros Hs HT HH. unfold stable_section in Hs.
  apply andb_prop in Hs as [Hs Hrows]. apply andb_prop in Hs as [Hs Hlast].
  apply andb_prop in Hs as [Hs Hline]. apply andb_prop in Hs as [Hs Hdist].
  apply andb_prop in Hs as [Hname Hlong]. apply Nat.leb_le in Hlong.
  destruct (marker_line_read _ Hname) as [Hmstrip _].
  unfold section_lines. cbn [parse_lines].
  (* the marker line *)
  assert (Hmarker : forall st,
    parse_line st ("###" ++ sec_name s) =
    Ok {| p_tables := dict_set (p_tables st) (sec_name s) [];
          p_table_headers := p_table_headers st;
          current_table := Some (sec_name s); current_headers := [] |}).
  { intros st. unfold parse_line. rewrite Hmstrip. reflexivity. }
  rewrite Hmarker. cbn [bind p_tables p_table_headers].
  rewrite dict_set_new by assumption.
  rewrite parse_lines_app.
  unfold has_rows. destruct (sec_rows s) as [|r rows] eqn:Erows.
  - (* no rows: no header line *)
    cbn [body_lines parse_lines bind is_empty negb].
    rewrite app_nil_r. unfold parse_line. cbn [strip lstrip rstrip bind].
    eauto.
  - (* the header line, then the rows *)
    cbn [body_lines parse_lines is_empty negb].
    destruct (stable_line_read _ Hline)
      as (Hstrip & Hne & Hmark & Hsplit & _).
    rewrite (trim_id _ Hlast) in Hsplit.
    assert (Hheader : forall T1,
      parse_line
        {| p_tables := T1; p_table_headers := H0;
           current_table := Some (sec_name s); current_headers := [] |}
        (join T (sec_headers s))
      = Ok {| p_tables := T1;
              p_table_headers := dict_set H0 (sec_name s) (sec_headers s);
              current_table := Some (sec_name s);
              current_headers := sec_headers s |}).
    { intros T1. unfold parse_line.
      destruct (strip (join T (sec_headers s))) as [|c l] eqn:E;
        [congruence|].
      rewrite Hmark, Hsplit.
      cbn [current_table current_headers is_empty andb p_tables
           p_table_headers].
      assert (Hl : (1 <? length (sec_headers s))%nat = true)
        by (apply Nat.ltb_lt; lia).
      now rewrite Hl. }
    rewrite Hheader. cbn [bind].
    rewrite dict_set_new by assumption.
    rewrite (@parse_row_lines (sec_name s) (sec_headers s) Hdist Hlong
               _ _ _ []) by assumption.
    cbn [bind app parse_lines]. unfold parse_line at 1.
    cbn [strip lstrip rstrip bind]. eauto.
Qed.

Lemma parse_sections (secs : list section) :
  forall (T0 : tables) (H0 : table_headers) (ct : option string)
         (ch : list string),
    NoDup (map sec_name secs) ->
    forallb stable_section secs = true ->
    (forall s, In s secs -> ~ In (sec_name s) (keys T0)) ->
    (forall s, In s secs -> ~ In (sec_name s) (keys H0)) ->
    exists ct' ch',
      parse_lines
        {| p_tables := T0; p_table_headers := H0;
           current_table := ct; current_headers := ch |}
        (concat (map section_lines secs))
      = Ok {| p_tables := T0 ++ tables_of secs;
              p_table_headers := H0 ++ headers_of (filter has_rows secs);
              current_table := ct'; current_headers := ch' |}.
Proof.
  induction secs as [|s secs IH]; intros T0 H0 ct ch Hnd Hst HT HH.
  - cbn. rewrite !app_nil_r. eauto.
  - cbn [map concat]. rewrite parse_lines_app.
    cbn [forallb] in Hst. apply andb_prop in Hst as [Hs Hsecs].
    cbn [map] in Hnd. inversion Hnd as [|? ? Hfresh Hnd']; subst.
    destruct (@parse_section s T0 H0 ct ch Hs) as (ct1 & ch1 & ->).
    { apply HT. now left. }
    { apply HH. now left. }
    cbn [bind].
    destruct (IH (T0 ++ [(sec_name s, sec_rows s)])
                 (H0 ++ (if has_rows s then [(sec_name s, sec_headers s)]
                         else []))
                 ct1 ch1 Hnd' Hsecs) as (ct2 & ch2 & ->).
    + intros s' Hs'. rewrite keys_app. intros Hin.
      apply in_app_or in Hin as [Hin|Hin].
      * apply (HT s'); [now right|assumption].
      * cbn in Hin. destruct Hin as [Hin|[]]. apply Hfresh.
        rewrite Hin. now apply in_map.
    + intros s' Hs'. rewrite keys_app. intros Hin.
      apply in_app_or in Hin as [Hin|Hin].
      * apply (HH s'); [now right|assumption].
      * destruct (has_rows s); [|contradiction].
        cbn in Hin. destruct Hin as [Hin|[]]. apply Hfresh.
        rewrite Hin. now apply in_map.
    + exists ct2, ch2. f_equal. cbn [tables_of headers_of map filter].
      destruct (has_rows s); cbn [map app];
        now rewrite <- !app_assoc.
Qed.

(** *** The text of a table set *)

Lemma headers_of_get (secs : list section) (s : section) :
  NoDup (map sec_name secs) -> In s secs ->
  dict_get (headers_of secs) (sec_name s) = Some (sec_headers s).
Proof.
  induction secs as [|s0 secs IH]; [contradiction|].
  cbn [map headers_of dict_get In]. intros Hnd Hin.
  inversion Hnd as [|? ? Hfresh Hnd']; subst.
  destruct Hin as [->|Hin].
  - now rewrite String.eqb_refl.
  - destruct (String.eqb_spec (sec_name s0) (sec_name s)) as [E|_].
    + exfalso. apply Hfresh. rewrite E. now apply in_map.
    + now apply IH.
Qed.

Lemma concat_unlines (ls : list (list string)) :
  String.concat EmptyString (map unlines ls) = unlines (concat ls).
Proof.
  induction ls as [|l ls IH]; [reflexivity|].
  cbn [map concat]. now rewrite concat_cons, unlines_app, IH.
Qed.

Lemma text_data_lines (secs : list section) :
  NoDup (map sec_name secs) ->
  text_data (tables_of secs) (headers_of secs) =
  unlines (concat (map section_lines secs)).
Proof.
  intros Hnd. unfold text_data, tables_of. rewrite map_map.
  rewrite <- concat_unlines, map_map. f_equal.
  apply map_ext_in. intros s Hs. cbn [fst snd].
  apply table_text_lines. now apply headers_of_get.
Qed.

Lemma section_lines_no_newline (s : section) :
  stable_section s = true ->
  forallb (fun l => negb (contains LF l)) (section_lines s) = true.
Proof.
  intros Hs. unfold stable_section in Hs.
  apply andb_prop in Hs as [Hs Hrows]. apply andb_prop in Hs as [Hs _].
  apply andb_prop in Hs as [Hs Hline]. apply andb_prop in Hs as [Hs Hd].
  apply andb_prop in Hs as [Hname _].
  destruct (marker_line_read _ Hname) as [_ Hm].
  unfold section_lines. cbn [forallb]. rewrite Hm. cbn [negb andb].
  rewrite forallb_app. cbn [forallb contains negb andb].
  rewrite andb_true_r.
  unfold body_lines. destruct (sec_rows s) as [|r0 rows0] eqn:E;
    [reflexivity|]. rewrite <- E in *. clear E.
  cbn [forallb].
  destruct (stable_line_read _ Hline) as (_ & _ & _ & _ & ->).
  cbn [negb andb]. apply forallb_forall. intros l Hin.
  apply in_map_iff in Hin as (r & <- & Hr).
  rewrite forallb_forall in Hrows. specialize (Hrows r Hr).
  unfold stable_row in Hrows.
  apply andb_prop in Hrows as [Hrows Hl].
  apply andb_prop in Hrows as [Hk _]. apply strings_eqb_eq in Hk.
  (* the fields of the row are the texts of its cells *)
  unfold stable_line in Hl.
  apply andb_prop in Hl as [Hl _]. apply andb_prop in Hl as [Hl _].
  apply andb_prop in Hl as [Hl _].
  rewrite <- Hk, field_keys
    by (rewrite Hk; now apply distinct_NoDup).
  now rewrite (join_no_newline _ Hl).
Qed.

Lemma lines_no_newline (secs : list section) :
  forallb stable_section secs = true ->
  forallb (fun l => negb (contains LF l)) (concat (map section_lines secs))
  = true.
Proof.
  induction secs as [|s secs IH]; [reflexivity|].
  cbn [forallb map concat]. intros H. apply andb_prop in H as [Hs Hsecs].
  rewrite forallb_app, (section_lines_no_newline _ Hs). now apply IH.
Qed.

(** Reading back the text written for a stable table set. *)
Lemma parse_text_data (secs : list section) :
  stable secs = true ->
  parse_save_data (text_data (tables_of secs) (headers_of secs)) =
  Ok (tables_of secs, headers_of (filter has_rows secs)).
Proof.
  unfold stable. intros H. apply andb_prop in H as [Hd Hst].
  apply distinct_NoDup in Hd.
  unfold parse_save_data. rewrite text_data_lines by assumption.
  rewrite split_unlines by now apply lines_no_newline.
  rewrite parse_lines_app.
  destruct (@parse_sections secs [] [] None [] Hd Hst)
    as (ct & ch & E); [now cbn|now cbn|].
  fold parser_new in E. rewrite E. reflexivity.
Qed.

End RoundTripFacts.

(** ** The text file, the validation and the UTF-8 codec *)
Module FileFacts.
Import PyStr Editor EditorFiles TableSet DictFacts RoundTripFacts.

Lemma strings_eqb_refl (a : list string) : strings_eqb a a = true.
Proof.
  induction a as [|x a IH]; [reflexivity|].
  cbn [strings_eqb]. now rewrite String.eqb_refl.
Qed.

Lemma save_as_text_agree (ts : tables) (ths : table_headers) :
  headers_agree ts ths = true -> save_as_text ts = text_data ts ths.
Proof.
  unfold headers_agree, save_as_text, text_data. intros H.
  rewrite forallb_forall in H. f_equal. apply map_ext_in.
  intros [name rows] Hin. specialize (H _ Hin). cbn [fst snd] in *.
  unfold table_text. destruct rows as [|first rest]; [reflexivity|].
  destruct (dict_get ths name) as [h|]; [|reflexivity].
  apply strings_eqb_eq in H. now rewrite H.
Qed.

Lemma stable_headers_agree (secs : list section) :
  stable secs = true ->
  headers_agree (tables_of secs) (headers_of secs) = true.
Proof.
  unfold stable. intros H. apply andb_prop in H as [Hd Hst].
  apply distinct_NoDup in Hd. rewrite forallb_forall in Hst.
  unfold headers_agree. apply forallb_forall. intros [name rows] Hin.
  unfold tables_of in Hin. apply in_map_iff in Hin as (s & E & Hs).
  injection E as <- <-. cbn [fst snd].
  rewrite (@headers_of_get secs s Hd Hs).
  destruct (sec_rows s) as [|first rest] eqn:Erows; [reflexivity|].
  specialize (Hst s Hs). unfold stable_section in Hst.
  apply andb_prop in Hst as [_ Hrows]. rewrite Erows in Hrows.
  cbn [forallb] in Hrows. apply andb_prop in Hrows as [Hrow _].
  unfold stable_row in Hrow.
  apply andb_prop in Hrow as [Hrow _]. apply andb_prop in Hrow as [Hk _].
  apply strings_eqb_eq in Hk. rewrite Hk. apply strings_eqb_refl.
Qed.


End FileFacts.

Module Utf8Facts.
Import Editor Utf8.

Lemma decode_utf8_char (c : ascii) (s : string) :
  decode_utf8 (encode_utf8 (String c s)) =
  push (N_of_ascii c) (decode_utf8 (encode_utf8 s)).
Proof.
  destruct c as [[] [] [] [] [] [] [] []]; reflexivity.
Qed.

Lemma decode_encode_utf8 (s : string) :
  decode_utf8 (encode_utf8 s) = Some (Unicode.of_string s).
Proof.
  induction s as [|c s IH]; [reflexivity|].
  rewrite decode_utf8_char, IH. reflexivity.
Qed.

End Utf8Facts.

(** * The claims about the envelope codec *)

Section Codec.
Import Base64 Base64Facts Base64Text.

Variable zl : zlib.

(** The contract of [gzip.GzipFile]: reading back a member that was
    written yields the data that was written. *)
Hypothesis GzipFile_read_write :
  forall (now : Z) (x : bytes),
    GzipFile_read zl (GzipFile_write zl now x) = Ok x.

(** The contract of [zlib.decompressobj], as far as the streaming decoder
    relies on it: a decompression object fed a [GzipFile] member, cut
    into pieces at any places, returns the member's data, the last of it
    at [flush] at the latest. *)
Hypothesis decompressobj_spec :
  forall (now : Z) (x : bytes) (pieces : list bytes),
    concat pieces = GzipFile_write zl now x ->
    exists d out,
      feed zl (decompressobj_new zl) pieces = Ok (d, out) /\
      out ++ decompress_flush zl d = x.

(** The contract of [zlib.compressobj] with the gzip wrapper: what the
    object emits for a sequence of [compress] calls followed by [flush]
    is a gzip member that holds the concatenation of the chunks. *)
Hypothesis compressobj_spec :
  forall chunks : list bytes,
    GzipFile_read zl (compress_chunks zl (compressobj_new zl) chunks) =
    Ok (concat chunks).

(** C1: for every byte sequence [x], the empty one included, whole-buffer
    decode applied to whole-buffer encode of [x] returns exactly [x]:
    compressing [x] into a single gzip member, base64-encoding it, and
    passing the text to [decode_base64_gzip] yields [x]. *)
Theorem C1_decode_encode (now : Z) (x : bytes) :
  decode_base64_gzip zl (Str (encode_base64_gzip zl now x)) = Ok x.
Proof.
  unfold encode_base64_gzip. rewrite decode_envelope.
  now rewrite GzipFile_read_write.
Qed.

(** C3: for every byte sequence [x] and every chunk size [c >= 1], the
    streaming decoder driven with reads of size [c] over the text that
    encode produced for [x] ends normally and has written exactly the
    bytes that whole-buffer decode returns for that text. *)
Theorem C3_stream_decode_whole (now : Z) (x : bytes) (c : Z) :
  (1 <= c)%Z ->
  exists out,
    decode_base64_gzip zl (Str (encode_base64_gzip zl now x)) = Ok out /\
    stream_decode_b64_gzip zl (Str (encode_base64_gzip zl now x)) c =
    Some {| written := out; ended := Ok tt |}.
Proof.
  intros Hc. exists x. split.
  - unfold encode_base64_gzip. rewrite decode_envelope.
    now rewrite GzipFile_read_write.
  - unfold stream_decode_b64_gzip, encode_base64_gzip, b64encode.
    set (g := GzipFile_write zl now x).
    pose proof (text_byte_b2a_base64 g) as Ht.
    destruct (@stream_decode_loop_spec zl
                (S (remaining (Str (decode_ascii (b2a_base64 g)))))
                (Str (decode_ascii (b2a_base64 g))) c [] g)
      as (pieces & Hcat & Hrun).
    + lia.
    + now apply text_bytes_ascii.
    + cbn [remaining file_bytes].
      now rewrite ReadFacts.list_byte_of_string_length.
    + lia.
    + cbn; lia.
    + cbn [file_bytes app]. unfold decode_ascii.
      apply list_byte_of_string_of_list_byte.
    + destruct (decompressobj_spec now x pieces Hcat)
        as (d & out & Hfeed & Hout).
      rewrite (Hrun _ _ [] _ Hfeed). cbn [app]. now rewrite Hout.
Qed.

(** C4, as amended: for every input, the empty one included, and every
    chunk size [c >= 1], the streaming encoder ends; the reads of its
    loop return the whole input; the text it has written is the padded
    base64 encoding of the complete stream the incremental compressor
    emitted for those reads, with no padding before the end; and
    whole-buffer decode returns the input for that text, as it does for
    the text of whole-buffer encode.  (The two texts are not the same
    text: the compressor's stream is a gzip member of its own making,
    whose header differs from the one [gzip.GzipFile] writes.) *)
Theorem C4_stream_encode_text (now : Z) (x : bytes) (c : Z) :
  (1 <= c)%Z ->
  exists text : string,
    stream_gzip_base64 zl x c = Some text
    /\ concat (reads (S (length x)) x c) = x
    /\ text =
       decode_ascii
         (b64encode
            (compress_chunks zl (compressobj_new zl)
               (reads (S (length x)) x c)))
    /\ decode_base64_gzip zl (Str text) = Ok x
    /\ decode_base64_gzip zl (Str (encode_base64_gzip zl now x)) = Ok x.
Proof.
  intros Hc. eexists. split; [|split; [|split; [reflexivity|split]]].
  - unfold stream_gzip_base64. rewrite stream_gzip_loop_spec by lia.
    cbn [app String.append].
    now rewrite StreamFacts.compressed_stream_chunks by lia.
  - apply StreamFacts.reads_concat; lia.
  - rewrite decode_envelope, compressobj_spec.
    cbn [reraise]. f_equal. apply StreamFacts.reads_concat; lia.
  - unfold encode_base64_gzip. rewrite decode_envelope.
    now rewrite GzipFile_read_write.
Qed.

(** C6, as amended: whole-buffer decode does not reject the characters
    outside the base64 alphabet: it discards every character that is
    neither of the alphabet nor the padding character, passes over a
    padding character that does not complete the data, and does not
    look at what follows a completing padding.  It fails with the
    base64-stage error exactly when no padding completes the data and
    the number of data characters is not a multiple of four.  A text
    input is stripped and encoded as ASCII first: when the stripped
    text is ASCII, decode does what it does on its bytes, which is also
    what it does on the bytes of the text as given; otherwise it raises
    [UnicodeEncodeError] before the base64 stage.  The text
    "not-valid-base64!!" holds fourteen data characters and no padding,
    and raises the base64-stage error. *)
Theorem C6_base64_stage_error (data : bytes) :
  decode_base64_gzip zl (Bytes data) =
  decode_base64_gzip zl (Bytes (filter significant data))
  /\ (decode_base64_gzip zl (Bytes data) =
      Raise (ValueError base64_decode_failed)
      <-> ~ PaddingRule.padded data
          /\ (PaddingRule.data_count data mod 4 <> 0)%nat)
  /\ (forall s : string,
         if all_chars is_ascii (PyStr.strip s)
         then decode_base64_gzip zl (Str s) =
              decode_base64_gzip zl
                (Bytes (list_byte_of_string (PyStr.strip s)))
         else decode_base64_gzip zl (Str s) = Raise UnicodeEncodeError)
  /\ (forall s : string,
         all_chars is_ascii s = true ->
         decode_base64_gzip zl (Str s) =
         decode_base64_gzip zl (Bytes (list_byte_of_string s)))
  /\ decode_base64_gzip zl (Str "not-valid-base64!!") =
     Raise (ValueError base64_decode_failed).
Proof.
  split; [|split; [|split; [|split]]].
  - unfold decode_base64_gzip, b64decode, a2b_base64. cbn [bind].
    now rewrite LenientFacts.a2b_scan_discards.
  - rewrite LenientFacts.decode_base64_stage.
    apply PaddingFacts.a2b_base64_fails.
  - intros s. unfold decode_base64_gzip at 1 3, encode_ascii.
    destruct (all_chars is_ascii (PyStr.strip s)); reflexivity.
  - intros s Hs. unfold decode_base64_gzip, encode_ascii.
    rewrite (StripFacts.strip_ascii _ Hs). cbn [bind].
    unfold b64decode, a2b_base64.
    rewrite (LenientFacts.a2b_scan_discards (list_byte_of_string (PyStr.strip s))).
    rewrite (LenientFacts.a2b_scan_discards (list_byte_of_string s)).
    now rewrite StripFacts.filter_significant_strip.
  - reflexivity.
Qed.

End Codec.

(** The claims at concrete inputs, on the reference implementation. *)

Definition hello : bytes := list_byte_of_string "Hello from test".

Lemma C1_decode_encode_witness :
  decode_base64_gzip StoredGzip.zl
    (Str (encode_base64_gzip StoredGzip.zl 1700000000 hello)) = Ok hello.
Proof.
  apply (@C1_decode_encode StoredGzip.zl
           StoredGzipFacts.GzipFile_read_write).
Defined.

Lemma C3_stream_decode_whole_witness :
  exists out,
    decode_base64_gzip StoredGzip.zl
      (Str (encode_base64_gzip StoredGzip.zl 1700000000 hello)) = Ok out /\
    stream_decode_b64_gzip StoredGzip.zl
      (Str (encode_base64_gzip StoredGzip.zl 1700000000 hello)) 5 =
    Some {| written := out; ended := Ok tt |}.
Proof.
  apply (@C3_stream_decode_whole StoredGzip.zl
           StoredGzipFacts.GzipFile_read_write
           StoredGzipFacts.decompressobj_spec 1700000000 hello 5).
  lia.
Defined.

Lemma C4_stream_encode_text_witness :
  exists text : string,
    stream_gzip_base64 StoredGzip.zl hello 5 = Some text
    /\ concat (reads (S (length hello)) hello 5) = hello
    /\ text =
       decode_ascii
         (Base64.b64encode
            (compress_chunks StoredGzip.zl (compressobj_new StoredGzip.zl)
               (reads (S (length hello)) hello 5)))
    /\ decode_base64_gzip StoredGzip.zl (Str text) = Ok hello
    /\ decode_base64_gzip StoredGzip.zl
         (Str (encode_base64_gzip StoredGzip.zl 1700000000 hello)) = Ok hello.
Proof.
  apply (@C4_stream_encode_text StoredGzip.zl
           StoredGzipFacts.GzipFile_read_write
           StoredGzipChunks.compressobj_GzipFile_read 1700000000 hello 5).
  lia.
Defined.

(** C4 as stated fails: on the empty input, read one byte at a time, the
    streamed text differs from the whole-buffer text whatever the time
    of writing (0 here); and no input, chunk size and time make the two
    texts equal. *)
Lemma C4_counterexample :
  stream_gzip_base64 StoredGzip.zl [] 1 <>
  Some (encode_base64_gzip StoredGzip.zl 0 [])
  /\ ~ (exists (now : Z) (x : bytes) (c : Z),
          stream_gzip_base64 StoredGzip.zl x c =
          Some (encode_base64_gzip StoredGzip.zl now x)).
Proof.
  split.
  - vm_compute. discriminate.
  - intros (now & x & c & H).
    exact (@StoredGzipFacts.stream_text_differs now x c H).
Qed.

(** C6 as stated fails: a text with a character outside the alphabet
    passes the base64 stage (here the failure is the gzip stage's), and
    so do a text with a padding character too many and a text with a
    padding character in the middle of a quad; an envelope with a blank
    inside decodes; and a text with a character that is not ASCII fails
    before the base64 stage. *)
Lemma C6_counterexample :
  existsb (fun c => negb (Base64.significant c))
    (list_byte_of_string "AAAA!") = true
  /\ decode_base64_gzip StoredGzip.zl (Str "AAAA!") <>
     Raise (ValueError base64_decode_failed)
  /\ decode_base64_gzip StoredGzip.zl (Str "AAAA=") <>
     Raise (ValueError base64_decode_failed)
  /\ decode_base64_gzip StoredGzip.zl (Str "A=AAA") <>
     Raise (ValueError base64_decode_failed)
  /\ decode_base64_gzip StoredGzip.zl
       (Str "H4sIAAAAAAAC/wEA AP//AAAAAAAAAAA=") = Ok []
  /\ decode_base64_gzip StoredGzip.zl
       (Str (String (ascii_of_nat 233) EmptyString)) =
     Raise UnicodeEncodeError.
Proof.
  repeat split; try (vm_compute; reflexivity); vm_compute; discriminate.
Qed.

(** * The claims about the table serializer *)

Section Serializer.
Import PyStr PyNum Editor DictFacts RowFacts ParserFacts TableText
  FormatFacts.

(** C7: a data row with fewer fields than the captured header has
    columns is not rejected: the parser appends one record to the
    current table, every column of the header is a key of the record,
    and the columns past the last field hold the empty text; with
    distinct column names the record lists the header's columns in
    order, each with the conversion of its field or of the empty text.
    In particular, under the header A, B, C the row "1<TAB>2" becomes
    A: 1, B: 2, C: "". *)
Theorem C7_short_row_padded :
  (forall (lines : list string) (st : parser) (line : string),
      parse_lines parser_new lines = Ok st ->
      current_headers st <> [] ->
      strip line <> EmptyString ->
      startswith "###" (strip line) = false ->
      (length (split TAB (strip line)) < length (current_headers st))%nat ->
      exists (t : string) (rows : list row) (r : row),
        current_table st = Some t
        /\ dict_get (p_tables st) t = Some rows
        /\ parse_line st line =
           Ok {| p_tables := dict_set (p_tables st) t (rows ++ [r]);
                 p_table_headers := p_table_headers st;
                 current_table := Some t;
                 current_headers := current_headers st |}
        /\ (forall col, In col (current_headers st) -> dict_get r col <> None)
        /\ (forall i,
              (length (split TAB (strip line)) <= i
               < length (current_headers st))%nat ->
              dict_get r (nth i (current_headers st) EmptyString)
              = Some (Text EmptyString))
        /\ (NoDup (current_headers st) ->
            r = combine (current_headers st)
                  (map convert
                     (pad (split TAB (strip line))
                        (length (current_headers st))))))
  /\ parse_save_data
       ("###T" ++ String LF ("A" ++ String TAB ("B" ++ String TAB ("C"
        ++ String LF ("1" ++ String TAB "2")))))
     = Ok ([("T"%string,
             [[("A"%string, Integer 1); ("B"%string, Integer 2);
               ("C"%string, Text "")]])],
           [("T"%string, ["A"%string; "B"%string; "C"%string])]).
Proof.
  split; [|vm_compute; reflexivity].
  intros lines st line Hreach Hh Hne Hmark Hlen.
  destruct (reachable_invariants lines Hreach) as [Hknown Howned].
  destruct (current_table st) as [t|] eqn:Et; [|now contradiction Howned].
  specialize (Hknown t Et).
  destruct (dict_get (p_tables st) t) as [rows|] eqn:Erows; [|contradiction].
  destruct (@parse_line_data_row st line t rows Et Erows Hh Hne Hmark)
    as (r & Hfill & Hparse); [lia|].
  exists t, rows, r. repeat split; try assumption.
  - (* every column is a key *)
    intros col Hcol.
    destruct (fill_row_spec
                (pad (split TAB (strip line)) (length (current_headers st)))
                (current_headers st) 0 []) as (r' & Hr' & Hget).
    rewrite Hfill in Hr'. injection Hr' as <-.
    rewrite Hget. destruct (last_index_in _ _ Hcol) as [j ->]. discriminate.
  - (* the columns past the last field *)
    intros i Hi.
    destruct (fill_row_spec
                (pad (split TAB (strip line)) (length (current_headers st)))
                (current_headers st) 0 []) as (r' & Hr' & Hget).
    rewrite Hfill in Hr'. injection Hr' as <-.
    rewrite Hget.
    assert (Hnth : nth_error (current_headers st) i
                   = Some (nth i (current_headers st) EmptyString))
      by (apply nth_error_nth'; lia).
    destruct (last_index_in (nth i (current_headers st) EmptyString)
                (current_headers st)) as [j Hj];
      [now apply nth_error_In in Hnth|].
    rewrite Hj. destruct (last_index_spec _ _ Hj) as [_ Hlast].
    specialize (Hlast i Hnth). cbn [Nat.add].
    rewrite pad_past by lia. reflexivity.
  - (* distinct column names *)
    intros Hnd. rewrite fill_row_nodup in Hfill by (assumption || now cbn).
    injection Hfill as <-. cbn [app]. f_equal. f_equal.
    set (P := pad (split TAB (strip line)) (length (current_headers st))).
    assert (HP : length P = length (current_headers st))
      by (apply pad_length; lia).
    rewrite <- HP. apply map_nth_seq.
Qed.

(** C8, as amended: the parser strips a line of leading and trailing
    white space before it splits it at tabs.  A line of a table section
    that, once stripped, has more tab-separated fields than the captured
    header has columns is skipped: the parser's variables are left as
    they were, so no record is appended, and the lines after it are
    parsed as if it had not been there.  (A line that starts with the
    marker starts a section and is not a line of one.) *)
Theorem C8_long_row_skipped (st : parser) (line : string)
    (rest : list string) :
  current_headers st <> [] ->
  startswith "###" (strip line) = false ->
  (length (current_headers st) < length (split TAB (strip line)))%nat ->
  parse_line st line = Ok st
  /\ parse_lines st (line :: rest) = parse_lines st rest.
Proof.
  intros Hh Hmark Hlen.
  pose proof (parse_line_long_row st line Hh Hmark Hlen) as H.
  split; [assumption|]. cbn [parse_lines]. now rewrite H.
Qed.


(** C10: on every text [parse_save_data] returns tables and a header
    order and raises nothing; and a field is kept as Text unless a
    numeric conversion accepted it. *)
Theorem C10_parse_total :
  (forall data : string,
      exists (ts : tables) (ths : table_headers),
        parse_save_data data = Ok (ts, ths))
  /\ (forall value : string,
         convert value = Text value
         \/ (exists z, py_int value = Ok z /\ convert value = Integer z)
         \/ (exists f, py_float value = Ok f /\ convert value = Float f)).
Proof.
  split.
  - intros data. unfold parse_save_data.
    destruct (parse_lines_total (split LF data) table_known_new)
      as (st & -> & _).
    cbn [bind]. eauto.
  - intros value. unfold convert.
    destruct (contains "."%char value
              && isdigit (remove "-"%char (remove "."%char value))).
    + destruct (py_float value) as [f|e]; cbn [bind]; eauto.
    + destruct (isdigit value
                || startswith "-" value && isdigit (drop 1 value)).
      * destruct (py_int value) as [z|e]; cbn [bind]; eauto.
      * now left.
Qed.

End Serializer.

(** The claims at concrete inputs. *)

Definition tabbed (fields : list string) : string :=
  PyStr.join (String PyStr.TAB EmptyString) fields.

(** The parser after the lines "###T" and "A<TAB>B<TAB>C". *)
Definition after_header_ABC : Editor.parser :=
  {| Editor.p_tables := [("T"%string, [])];
     Editor.p_table_headers :=
       [("T"%string, ["A"%string; "B"%string; "C"%string])];
     Editor.current_table := Some "T"%string;
     Editor.current_headers := ["A"%string; "B"%string; "C"%string] |}.

Lemma C7_short_row_padded_witness :
  exists (t : string) (rows : list row) (r : row),
    Editor.current_table after_header_ABC = Some t
    /\ dict_get (Editor.p_tables after_header_ABC) t = Some rows
    /\ Editor.parse_line after_header_ABC (tabbed ["1"; "2"]%string) =
       Ok {| Editor.p_tables :=
               dict_set (Editor.p_tables after_header_ABC) t (rows ++ [r]);
             Editor.p_table_headers :=
               Editor.p_table_headers after_header_ABC;
             Editor.current_table := Some t;
             Editor.current_headers :=
               Editor.current_headers after_header_ABC |}
    /\ (forall col,
          In col (Editor.current_headers after_header_ABC) ->
          dict_get r col <> None)
    /\ (forall i,
          (length (PyStr.split PyStr.TAB
                     (PyStr.strip (tabbed ["1"; "2"]%string))) <= i
           < length (Editor.current_headers after_header_ABC))%nat ->
          dict_get r (nth i (Editor.current_headers after_header_ABC)
                        EmptyString)
          = Some (Text EmptyString))
    /\ (NoDup (Editor.current_headers after_header_ABC) ->
        r = combine (Editor.current_headers after_header_ABC)
              (map Editor.convert
                 (Editor.pad
                    (PyStr.split PyStr.TAB
                       (PyStr.strip (tabbed ["1"; "2"]%string)))
                    (length (Editor.current_headers after_header_ABC))))).
Proof.
  apply (proj1 C7_short_row_padded
           ["###T"%string; tabbed ["A"; "B"; "C"]%string]).
  - vm_compute. reflexivity.
  - discriminate.
  - vm_compute. discriminate.
  - vm_compute. reflexivity.
  - vm_compute. lia.
Defined.

Lemma C8_long_row_skipped_witness :
  Editor.parse_line after_header_ABC (tabbed ["1"; "2"; "3"; "4"]%string)
  = Ok after_header_ABC
  /\ Editor.parse_lines after_header_ABC
       [tabbed ["1"; "2"; "3"; "4"]%string; tabbed ["5"; "6"]%string]
     = Editor.parse_lines after_header_ABC [tabbed ["5"; "6"]%string].
Proof.
  apply C8_long_row_skipped.
  - discriminate.
  - vm_compute. reflexivity.
  - vm_compute. lia.
Defined.

(** C8 as stated fails: under the header A, B, C the line
    "1<TAB>2<TAB>3<TAB>" splits at tabs into four fields, one more than
    the header has columns, and yet it is read as a data row and a
    record is appended for it, because the line is stripped before it
    is split. *)
Lemma C8_counterexample :
  (length (Editor.current_headers after_header_ABC)
   < length (PyStr.split PyStr.TAB (tabbed ["1"; "2"; "3"; ""]%string)))%nat
  /\ Editor.parse_line after_header_ABC (tabbed ["1"; "2"; "3"; ""]%string)
     = Ok {| Editor.p_tables :=
               [("T"%string,
                 [[("A"%string, Integer 1); ("B"%string, Integer 2);
                   ("C"%string, Integer 3)]])];
             Editor.p_table_headers :=
               [("T"%string, ["A"%string; "B"%string; "C"%string])];
             Editor.current_table := Some "T"%string;
             Editor.current_headers := ["A"%string; "B"%string; "C"%string] |}
  /\ Editor.parse_save_data
       ("###T" ++ String PyStr.LF
          (tabbed ["A"; "B"; "C"]%string ++ String PyStr.LF
             (tabbed ["1"; "2"; "3"; ""]%string
              ++ String PyStr.LF EmptyString)))%string
     = Ok ([("T"%string,
             [[("A"%string, Integer 1); ("B"%string, Integer 2);
               ("C"%string, Integer 3)]])],
           [("T"%string, ["A"%string; "B"%string; "C"%string])]).
Proof.
  split; [vm_compute; lia|]. split; vm_compute; reflexivity.
Qed.



(** * The claim about type inference *)

Section Inference.
Import Unicode InferenceRule.

Variable db : database.

(** The facts of the Unicode character database the conversion relies
    on: below 128 the digits are the ten ASCII digits, with their
    values; a decimal digit is a digit, with a value below ten; and a
    digit is not a space. *)
Hypothesis ascii_digits :
  forall c : N,
    (c < 128)%N ->
    todecimal db c
    = (if (48 <=? c)%N && (c <=? 57)%N then Some (c - 48)%N else None)
    /\ todigit db c
       = (if (48 <=? c)%N && (c <=? 57)%N then Some (c - 48)%N else None).
Hypothesis decimal_digit :
  forall c d : N, todecimal db c = Some d -> todigit db c = Some d.
Hypothesis decimal_range :
  forall c d : N, todecimal db c = Some d -> (d < 10)%N.
Hypothesis digit_not_space :
  forall c d : N, todigit db c = Some d -> isspace db c = false.

(** C5, as amended: on every text, the conversion of a field follows
    the rule of the specification in its priority order, with a limit
    on the digits of an Integer: Float for a text with a decimal point
    that consists of digits once at most one leading minus sign and the
    decimal point are stripped; else Integer for a text of digits with
    at most one leading minus sign, when the digits are not more than
    [int] accepts (4300); else Text, the empty text included.  A digit
    is a character with a decimal digit value, of any script.  The seven
    texts of the specification are converted as it says. *)
Theorem C5_type_inference :
  (forall value : str,
      convert db value = infer db (Some PyNum.int_max_str_digits) value)
  /\ convert db (of_string "123") = Integer 123
  /\ convert db (of_string "-45") = Integer (-45)
  /\ convert db (of_string "3.14")
     = Float (S754_finite false 7070651414971679 (-51))
  /\ convert db (of_string "-0.5")
     = Float (S754_finite true 4503599627370496 (-53))
  /\ convert db (of_string "abc") = Text (of_string "abc")
  /\ convert db (of_string "") = Text (of_string "")
  /\ convert db (of_string "12.3.4") = Text (of_string "12.3.4").
Proof.
  pose proof (UnicodeFacts.convert_rule db ascii_digits decimal_digit
                decimal_range digit_not_space) as Hrule.
  split; [exact Hrule|].
  assert (Hascii : forall c : N,
             (c < 128)%N -> todecimal db c = todecimal LatinArabic c).
  { intros c Hc. destruct (ascii_digits Hc) as [-> _].
    now destruct (UnicodeFacts.LatinArabicFacts.ascii_digits c Hc) as [-> _]. }
  assert (Hex : forall s : string,
             forallb (fun c => (c <? 128)%N) (of_string s) = true ->
             convert db (of_string s)
             = infer LatinArabic (Some PyNum.int_max_str_digits) (of_string s)).
  { intros s Hs. rewrite Hrule. apply UnicodeFacts.infer_ext.
    intros c Hc. apply Hascii.
    rewrite forallb_forall in Hs. now apply N.ltb_lt, Hs. }
  repeat split; rewrite Hex by reflexivity; vm_compute; reflexivity.
Qed.

End Inference.

(** The claim on the database of the Latin and Arabic blocks. *)
Lemma C5_type_inference_witness :
  (forall value : Unicode.str,
      Unicode.convert Unicode.LatinArabic value
      = InferenceRule.infer Unicode.LatinArabic
          (Some PyNum.int_max_str_digits) value)
  /\ Unicode.convert Unicode.LatinArabic (Unicode.of_string "123")
     = Unicode.Integer 123
  /\ Unicode.convert Unicode.LatinArabic (Unicode.of_string "-45")
     = Unicode.Integer (-45)
  /\ Unicode.convert Unicode.LatinArabic (Unicode.of_string "3.14")
     = Unicode.Float (S754_finite false 7070651414971679 (-51))
  /\ Unicode.convert Unicode.LatinArabic (Unicode.of_string "-0.5")
     = Unicode.Float (S754_finite true 4503599627370496 (-53))
  /\ Unicode.convert Unicode.LatinArabic (Unicode.of_string "abc")
     = Unicode.Text (Unicode.of_string "abc")
  /\ Unicode.convert Unicode.LatinArabic (Unicode.of_string "")
     = Unicode.Text (Unicode.of_string "")
  /\ Unicode.convert Unicode.LatinArabic (Unicode.of_string "12.3.4")
     = Unicode.Text (Unicode.of_string "12.3.4").
Proof.
  exact (@C5_type_inference Unicode.LatinArabic
           UnicodeFacts.LatinArabicFacts.ascii_digits
           UnicodeFacts.LatinArabicFacts.decimal_digit
           UnicodeFacts.LatinArabicFacts.decimal_range
           UnicodeFacts.LatinArabicFacts.digit_not_space).
Defined.

(** C5 as stated fails.  A text of 4301 digits is a text of digits, and
    it is kept as text: [int] refuses more than 4300 digits, and the
    conversion keeps the text when [int] raises.  And the superscript
    two, which [str.isdigit] takes for a digit, is kept as text as well:
    the digits of the rule are the decimal digits, among which the
    Arabic-Indic ones count. *)
Definition digits_4301 : Unicode.str := repeat 49%N 4301.

Lemma C5_counterexample :
  InferenceRule.all_digits Unicode.LatinArabic digits_4301 = true
  /\ Unicode.convert Unicode.LatinArabic digits_4301
     = Unicode.Text digits_4301
  /\ (exists z : Z,
         InferenceRule.infer Unicode.LatinArabic None digits_4301
         = Unicode.Integer z)
  /\ Unicode.isdigit Unicode.LatinArabic [178%N] = true
  /\ Unicode.convert Unicode.LatinArabic [178%N] = Unicode.Text [178%N]
  /\ Unicode.convert Unicode.LatinArabic [1633%N; 1634%N; 1635%N]
     = Unicode.Integer 123.
Proof.
  assert (H1 : InferenceRule.all_digits Unicode.LatinArabic digits_4301 = true)
    by (vm_compute; reflexivity).
  assert (H2 : Unicode.contains Unicode.POINT digits_4301 = false)
    by (vm_compute; reflexivity).
  split; [exact H1|]. split; [vm_compute; reflexivity|].
  split.
  - eexists. unfold InferenceRule.infer. rewrite H1, H2. reflexivity.
  - repeat split; vm_compute; reflexivity.
Qed.

(** * The round trip of the table serializer *)

Section RoundTrip.
Import PyStr Editor TableSet RoundTripFacts.


End RoundTrip.

(** A stable table set: text, integer and float cells, an empty field
    at the end of a row, and a table without rows. *)
Definition savegame : list TableSet.section :=
  [ {| TableSet.sec_name := "Savegame";
       TableSet.sec_headers := ["Name"; "Money"; "Rate"; "Note"]%string;
       TableSet.sec_rows :=
         [[("Name"%string, Text "Alice"); ("Money"%string, Integer 500);
           ("Rate"%string, Float (S754_finite false 7070651414971679 (-51)));
           ("Note"%string, Text "")];
          [("Name"%string, Text "Bob B"); ("Money"%string, Integer (-45));
           ("Rate"%string, Float (S754_finite true 4503599627370496 (-53)));
           ("Note"%string, Text "n/a")]] |};
    {| TableSet.sec_name := "Videos";
       TableSet.sec_headers := ["Id"; "Title"]%string;
       TableSet.sec_rows := [] |} ].







(** * Further properties of the two files *)

(** ** The conversion of a field *)
Section Latin1.
Import Unicode.

Variable db : database.

Hypothesis ascii_digits :
  forall c : N,
    (c < 128)%N ->
    todecimal db c
    = (if (48 <=? c)%N && (c <=? 57)%N then Some (c - 48)%N else None)
    /\ todigit db c
       = (if (48 <=? c)%N && (c <=? 57)%N then Some (c - 48)%N else None).
Hypothesis decimal_digit :
  forall c d : N, todecimal db c = Some d -> todigit db c = Some d.
Hypothesis decimal_range :
  forall c d : N, todecimal db c = Some d -> (d < 10)%N.
Hypothesis digit_not_space :
  forall c d : N, todigit db c = Some d -> isspace db c = false.
(** Between 128 and 255 there is no decimal digit. *)
Hypothesis latin1_decimal :
  forall c : N, (128 <= c < 256)%N -> todecimal db c = None.

(** X1: the table model holds texts of code points below 256, and on
    each of them the conversion it applies, [Editor.convert], gives the
    cell that the conversion on [str], [Unicode.convert], gives. *)
Theorem convert_latin1 (s : string) :
  convert db (of_string s) = unicode_cell (Editor.convert s).
Proof.
  exact (UnicodeFacts.convert_of_string db ascii_digits decimal_digit
           decimal_range digit_not_space latin1_decimal s).
Qed.

End Latin1.

Lemma convert_latin1_witness :
  Unicode.convert Unicode.LatinArabic (Unicode.of_string "-4.50")
  = unicode_cell (Editor.convert "-4.50").
Proof.
  exact (@convert_latin1 Unicode.LatinArabic
           UnicodeFacts.LatinArabicFacts.ascii_digits
           UnicodeFacts.LatinArabicFacts.decimal_digit
           UnicodeFacts.LatinArabicFacts.decimal_range
           UnicodeFacts.LatinArabicFacts.digit_not_space
           UnicodeFacts.LatinArabicFacts.latin1_decimal "-4.50"%string).
Defined.

(** ** The streaming functions *)
Section Streaming.
Import Base64 Base64Facts Base64Text.

Variable zl : zlib.

(** X2: the streaming decoder ends on every file and with every read
    size, negative ones and zero included; with the read size zero it
    reads nothing, whatever the file holds, and writes what a new
    decompression object returns at [flush]. *)
Theorem stream_decode_ends (f : infile) (c : Z) :
  (exists o, stream_decode_b64_gzip zl f c = Some o)
  /\ stream_decode_b64_gzip zl f 0 =
     Some {| written := decompress_flush zl (decompressobj_new zl);
             ended := Ok tt |}.
Proof.
  split.
  - apply StreamFacts.stream_decode_loop_ends. lia.
  - unfold stream_decode_b64_gzip. cbn [stream_decode_loop].
    destruct f as [s|b]; cbn [read read_bytes Z.ltb Z.compare Z.to_nat].
    + destruct s; reflexivity.
    + destruct b; reflexivity.
Qed.

(** X3: a text file that holds a character that is not ASCII makes the
    streaming decoder end with an exception, whatever came before the
    character: the text is read as [str] and encoded chunk by chunk. *)
Theorem stream_decode_non_ascii (s : string) (c : Z) :
  c <> 0%Z ->
  all_chars is_ascii s = false ->
  exists w e,
    stream_decode_b64_gzip zl (Str s) c =
    Some {| written := w; ended := Raise e |}.
Proof.
  intros Hc Hs. apply StreamFacts.stream_decode_loop_non_ascii;
    [cbn [remaining]; lia|assumption|assumption].
Qed.

(** X4: when the length of the text is not a multiple of four and the
    characters after the last whole group of four hold a character of
    the base64 alphabet, the streaming decoder ends with an exception:
    a group of one to three characters is never decoded into data. *)
Theorem stream_decode_trailing_group (f : infile) (c : Z) :
  c <> 0%Z ->
  ascii_file f = true ->
  existsb in_alphabet
    (skipn (length (file_bytes f) / 4 * 4) (file_bytes f)) = true ->
  exists w e,
    stream_decode_b64_gzip zl f c =
    Some {| written := w; ended := Raise e |}.
Proof.
  intros Hc Ha He. unfold stream_decode_b64_gzip.
  apply StreamFacts.stream_decode_loop_tail; try assumption.
  - destruct f; cbn [remaining file_bytes]; [|reflexivity].
    now rewrite ReadFacts.list_byte_of_string_length.
  - lia.
  - cbn; lia.
Qed.

(** The contract of [zlib.decompressobj] on what [zlib.compressobj]
    emits: fed the stream of a compression object, cut into pieces at
    any places, a decompression object returns the concatenation of the
    chunks that were compressed, the last of it at [flush] at the
    latest. *)
Hypothesis decompressobj_compressobj :
  forall chunks pieces : list bytes,
    concat pieces = compress_chunks zl (compressobj_new zl) chunks ->
    exists d out,
      feed zl (decompressobj_new zl) pieces = Ok (d, out) /\
      out ++ decompress_flush zl d = concat chunks.

(** X5: what the streaming encoder writes for an input, read with any
    size but zero, the streaming decoder reads back, with any read size
    but zero: it ends normally and has written exactly the input.  This
    is the round trip that the self-test of [_main] runs on one input. *)
Theorem stream_round_trip (x : bytes) (c1 c2 : Z) :
  c1 <> 0%Z -> c2 <> 0%Z ->
  exists text : string,
    stream_gzip_base64 zl x c1 = Some text
    /\ stream_decode_b64_gzip zl (Str text) c2 =
       Some {| written := x; ended := Ok tt |}.
Proof.
  intros H1 H2. eexists. split.
  - now apply StreamCycleFacts.stream_gzip_text.
  - apply StreamCycleFacts.stream_decode_encoded; [assumption|].
    intros pieces Hcat.
    destruct (decompressobj_compressobj _ pieces Hcat)
      as (d & out & Hfeed & Hout).
    exists d, out. split; [assumption|].
    rewrite Hout. apply StreamFacts.reads_concat; lia.
Qed.

(** The contracts of [gzip.GzipFile] and of [zlib.decompressobj] on a
    member that [gzip.GzipFile] wrote. *)
Hypothesis GzipFile_read_write :
  forall (now : Z) (x : bytes),
    GzipFile_read zl (GzipFile_write zl now x) = Ok x.
Hypothesis decompressobj_spec :
  forall (now : Z) (x : bytes) (pieces : list bytes),
    concat pieces = GzipFile_write zl now x ->
    exists d out,
      feed zl (decompressobj_new zl) pieces = Ok (d, out) /\
      out ++ decompress_flush zl d = x.

(** X6: the self-test of [_main] passes: with a compression library that
    keeps its contracts, [_main(['--self-test'])] returns 0, whatever
    the moments at which the two members are written.  It does not
    leave through [sys.exit(2)], return 5 or 6, or raise. *)
Theorem self_test_passes (now1 now2 : Z) :
  SelfTest._main_self_test zl now1 now2 = Some (SelfTest.returned 0%Z).
Proof.
  assert (Heq : forall a : bytes, SelfTest.bytes_equal a a = true).
  { intros a. unfold SelfTest.bytes_equal.
    now destruct (list_eq_dec Byte.byte_eq_dec a a). }
  unfold SelfTest._main_self_test, SelfTest._self_test.
  unfold encode_base64_gzip.
  rewrite decode_envelope, GzipFile_read_write. cbn [reraise].
  rewrite Heq. unfold b64encode.
  rewrite (@StreamCycleFacts.stream_decode_encoded zl _ SelfTest.big)
    by (try discriminate; intros pieces Hcat;
        exact (decompressobj_spec _ _ pieces Hcat)).
  cbv iota beta. rewrite Heq. cbn [negb].
  rewrite StreamCycleFacts.stream_gzip_text by discriminate.
  rewrite (@StreamCycleFacts.stream_decode_encoded zl _ SelfTest.big2).
  - cbv iota beta. rewrite Heq. reflexivity.
  - discriminate.
  - intros pieces Hcat.
    destruct (decompressobj_compressobj _ pieces Hcat)
      as (d & out & Hfeed & Hout).
    exists d, out. split; [assumption|].
    rewrite Hout. apply StreamFacts.reads_concat;
      unfold SelfTest.default_read_size; lia.
Qed.

End Streaming.

Lemma stream_decode_non_ascii_witness :
  exists w e,
    stream_decode_b64_gzip StoredGzip.zl
      (Str ("QUJD" ++ String (ascii_of_nat 233) EmptyString)) 4 =
    Some {| written := w; ended := Raise e |}.
Proof.
  apply (@stream_decode_non_ascii StoredGzip.zl
           ("QUJD" ++ String (ascii_of_nat 233) EmptyString) 4).
  - lia.
  - reflexivity.
Defined.

Lemma stream_decode_trailing_group_witness :
  exists w e,
    stream_decode_b64_gzip StoredGzip.zl
      (Bytes (list_byte_of_string "QUJDQ")) 3 =
    Some {| written := w; ended := Raise e |}.
Proof.
  apply (@stream_decode_trailing_group StoredGzip.zl
           (Bytes (list_byte_of_string "QUJDQ")) 3).
  - lia.
  - reflexivity.
  - vm_compute. reflexivity.
Defined.

Lemma stream_round_trip_witness :
  exists text : string,
    stream_gzip_base64 StoredGzip.zl hello 4 = Some text
    /\ stream_decode_b64_gzip StoredGzip.zl (Str text) 5 =
       Some {| written := hello; ended := Ok tt |}.
Proof.
  apply (@stream_round_trip StoredGzip.zl
           StoredGzipChunks.decompressobj_compressobj hello 4 5); lia.
Defined.

Lemma self_test_passes_witness :
  SelfTest._main_self_test StoredGzip.zl 1700000000 1700000060 =
  Some (SelfTest.returned 0%Z).
Proof.
  exact (@self_test_passes StoredGzip.zl
           StoredGzipChunks.decompressobj_compressobj
           StoredGzipFacts.GzipFile_read_write
           StoredGzipFacts.decompressobj_spec 1700000000 1700000060).
Defined.

(** ** The files of the editor *)
Section Files.
Import PyStr Editor EditorFiles TableSet.

(** X7: [save_as_text] and [export_to_text] write the text that
    [save_as_yls] compresses whenever the header order stored for each
    table that has rows, if one is stored, is the order of the keys of
    its first row; with no stored header order at all the two texts are
    always the same. *)
Theorem save_as_text_headers (ts : tables) (ths : table_headers) :
  (headers_agree ts ths = true -> save_as_text ts = text_data ts ths)
  /\ save_as_text ts = text_data ts [].
Proof.
  split.
  - apply FileFacts.save_as_text_agree.
  - apply FileFacts.save_as_text_agree. unfold headers_agree.
    apply forallb_forall. intros [name rows] _. cbn [fst snd dict_get].
    now destruct rows.
Qed.

(** X8: for every stable table set, the text that [save_as_text]
    writes is the text that [save_as_yls] compresses, and parsing it
    yields the same tables and the header order of every table that has
    rows. *)
Theorem save_as_text_round_trip (secs : list section) :
  stable secs = true ->
  save_as_text (tables_of secs) =
  text_data (tables_of secs) (headers_of secs)
  /\ parse_save_data (save_as_text (tables_of secs)) =
     Ok (tables_of secs, headers_of (filter has_rows secs)).
Proof.
  intros H.
  pose proof (FileFacts.save_as_text_agree _ _
                (FileFacts.stable_headers_agree secs H)) as E.
  split; [exact E|]. rewrite E. now apply RoundTripFacts.parse_text_data.
Qed.


Variable zl : zlib.

(** The contract of [gzip.GzipFile]: reading back a member that was
    written yields the data that was written. *)
Hypothesis GzipFile_read_write :
  forall (now : Z) (x : bytes),
    GzipFile_read zl (GzipFile_write zl now x) = Ok x.

(** X10: a save file is opened as it was saved.  For every stable table
    set, on the content that [save_as_yls] writes, [open_save_file]
    gets bytes from [tse.decode_base64_gzip] without an exception, the
    bytes decode as UTF-8 to the text that was compressed, and parsing
    that text yields the tables that were saved and the header order of
    every table that has rows. *)
Theorem save_open_cycle (now : Z) (secs : list section) :
  stable secs = true ->
  exists (decoded_bytes : bytes) (decoded_data : string),
    decode_base64_gzip zl
      (Str (save_as_yls zl now (tables_of secs) (headers_of secs)))
    = Ok decoded_bytes
    /\ Utf8.decode_utf8 decoded_bytes = Some (Unicode.of_string decoded_data)
    /\ decoded_data = text_data (tables_of secs) (headers_of secs)
    /\ parse_save_data decoded_data =
       Ok (tables_of secs, headers_of (filter has_rows secs)).
Proof.
  intros H.
  exists (encode_utf8 (text_data (tables_of secs) (headers_of secs))).
  exists (text_data (tables_of secs) (headers_of secs)).
  split; [|split; [|split]].
  - unfold save_as_yls, encode_base64_gzip.
    rewrite decode_envelope. now rewrite GzipFile_read_write.
  - apply Utf8Facts.decode_encode_utf8.
  - reflexivity.
  - now apply RoundTripFacts.parse_text_data.
Qed.

End Files.

Lemma save_as_text_round_trip_witness :
  EditorFiles.save_as_text (TableSet.tables_of savegame) =
  Editor.text_data (TableSet.tables_of savegame)
    (TableSet.headers_of savegame)
  /\ Editor.parse_save_data
       (EditorFiles.save_as_text (TableSet.tables_of savegame)) =
     Ok (TableSet.tables_of savegame,
         TableSet.headers_of (filter TableSet.has_rows savegame)).
Proof.
  apply (save_as_text_round_trip savegame). vm_compute. reflexivity.
Defined.

Lemma save_open_cycle_witness :
  exists (decoded_bytes : bytes) (decoded_data : string),
    decode_base64_gzip StoredGzip.zl
      (Str (Editor.save_as_yls StoredGzip.zl 1700000000
              (TableSet.tables_of savegame) (TableSet.headers_of savegame)))
    = Ok decoded_bytes
    /\ Utf8.decode_utf8 decoded_bytes = Some (Unicode.of_string decoded_data)
    /\ decoded_data =
       Editor.text_data (TableSet.tables_of savegame)
         (TableSet.headers_of savegame)
    /\ Editor.parse_save_data decoded_data =
       Ok (TableSet.tables_of savegame,
           TableSet.headers_of (filter TableSet.has_rows savegame)).
Proof.
  apply (@save_open_cycle StoredGzip.zl StoredGzipFacts.GzipFile_read_write
           1700000000 savegame).
  vm_compute. reflexivity.
Defined.
